(** * Container commands of the oio CLI (oio/cli/container/container.py)

    Every command of the file is a thin adapter: it folds the parsed
    arguments into a property map and a system map, calls the storage client
    and projects the answer on the display columns.  The commands are
    embedded as programs of a state-and-exception monad over the state of
    the storage backend; every call to the client is recorded in a log, so
    that statements such as "no call is made" or "the calls are issued in
    input order" are statements about the final log. *)

From Stdlib Require Import ZArith String List DecimalString.
From stdpp Require Import base option gmap strings list fin_maps.

Open Scope Z_scope.

(** ** Python values and built-ins *)

(** [str(n)] for a Python [int]: the decimal literal, with a leading minus
    sign for negative numbers. *)
Definition str (n : Z) : string := NilZero.string_of_int (Z.to_int n).

(** [int(b)] for a Python [bool]. *)
Definition int_of_bool (b : bool) : Z := if b then 1 else 0.

(** Truth value of an optional string, as tested by [if parsed_args.x:]:
    [None] and the empty string are false. *)
Definition truthy (o : option string) : bool :=
  match o with
  | Some s => negb (String.eqb s "")
  | None => false
  end.

(** [x or y] on optional strings whose right operand is a string. *)
Definition or_else (o : option string) (d : string) : string :=
  match o with
  | Some s => if String.eqb s "" then d else s
  | None => d
  end.

(** A Python float is carried as its IEEE-754 binary64 bit pattern; the
    commands do no arithmetic on floats, they only pass them on. *)
Definition float : Type := Z.

(** Scalars found in the dictionaries answered by the account service and in
    arguments whose type depends on the command line. *)
Inductive pyval : Type :=
| PyNone
| PyBool (b : bool)
| PyInt (n : Z)
| PyStr (s : string).

(** Exceptions.  [KeyError] is raised by a failed dictionary subscript,
    [ValueError] by [int()] on a string that is not an integer literal,
    [TypeError] by an operator applied to [None]; [NoSuchContainer] is the
    class of oio.common.exceptions the file imports; [OtherError] stands for
    any other exception class the client may raise. *)
Inductive exn : Type :=
| KeyError (key : string)
| ValueError (arg : string)
| TypeError (msg : string)
| NoSuchContainer (msg : string)
| OtherError (cls msg : string).

(** [str(e)], the text the command-line framework prints for a failure.  A
    [KeyError] prints the [repr] of the missing key (single quotes around
    the key; keys with quotes or escapes in them are not needed here). *)
Definition exn_message (e : exn) : string :=
  match e with
  | KeyError k => "'" +:+ k +:+ "'"
  | ValueError a => "invalid literal for int() with base 10: '" +:+ a +:+ "'"
  | TypeError m => m
  | NoSuchContainer m => m
  | OtherError _ m => m
  end.

(** [needle in haystack] on strings. *)
Fixpoint contains (needle haystack : string) : bool :=
  String.prefix needle haystack ||
  match haystack with
  | EmptyString => false
  | String _ rest => contains needle rest
  end.

(** ** The storage client

    The client is external to the file.  A call is a method name with the
    arguments the command passes; a keyword argument that a command does not
    pass is recorded as [None]. *)

(** One entry of a page of [container_list]: the command reads [v[0]]
    (name), [v[1]] (object count), [v[2]] (bytes) and [v[4]] (mtime). *)
Record entry : Type := Entry {
  e_name : string;
  e_count : Z;
  e_bytes : Z;
  e_isdir : bool;
  e_mtime : Z;
}.

(** One bucket of a bucket listing: a dictionary. *)
Abbreviation bucket := (gmap string pyval).

(** The answer of [bucket_list]; only ['listing'] is read here. *)
Record bucket_page : Type := BucketPage {
  listing : list bucket;
  truncated : bool;
  next_marker : option string;
}.

Inductive call : Type :=
| container_create (account container : string)
    (properties : option (gmap string string)) (system : gmap string string)
| container_create_many (account : string) (containers : list string)
    (properties : option (gmap string string)) (system : gmap string string)
| container_set_properties (account : string) (container : option string)
    (properties : option (gmap string string)) (clear : option bool)
    (system : gmap string string) (cid : option string)
| container_del_properties (account : string) (container : option string)
    (properties : list string) (cid : option string)
| container_touch (account : string) (container : option string)
    (recompute : bool) (cid : option string)
| container_delete (account : string) (container : option string)
    (cid : option string)
| container_flush (account : string) (container : option string) (fast : bool)
| container_purge (account : string) (container : option string)
    (maxvers : option Z) (cid : option string)
| container_refresh (account : string) (container : option string)
| container_snapshot (account : string) (container : option string)
    (dst_account dst_container : string)
    (batch_size : pyval) (deadline : float)
| container_get_properties (account : string) (container : pyval)
    (reqid : string)
| container_list (account : string) (kwargs : gmap string string)
| bucket_list (account : string) (kwargs : gmap string string)
| resolve_cid (cid : string).

(** What each method answers when it does not raise. *)
Definition resp (c : call) : Type :=
  match c with
  | container_create _ _ _ _ => bool
  | container_create_many _ _ _ _ => list (string * bool)
  | container_get_properties _ _ _ => gmap string (gmap string string)
  | container_list _ _ => list entry
  | bucket_list _ _ => bucket_page
  | resolve_cid _ => (string * string)%type
  | _ => unit
  end.

(** ** Generators

    A generator is resumed on a world and either stops, yields an item
    together with the generator to resume next, or raises. *)
Inductive gen (W A : Type) : Type :=
| Gen (next : W -> step W A)
with step (W A : Type) : Type :=
| Stop (w : W)
| Yield (w : W) (a : A) (rest : gen W A)
| Raised (w : W) (e : exn).

Arguments Gen {W A} next.
Arguments Stop {W A} w.
Arguments Yield {W A} w a rest.
Arguments Raised {W A} w e.

Definition next {W A : Type} (g : gen W A) : W -> step W A :=
  match g with Gen f => f end.

(** Iterating over a list. *)
Fixpoint iter {W A : Type} (l : list A) : gen W A :=
  Gen (fun w => match l with
                | [] => Stop w
                | a :: l' => Yield w a (iter l')
                end).

(** Running a generator to exhaustion, as the table formatter does. *)
Fixpoint drain {W A : Type} (g : gen W A) (w : W) : W * (exn + list A) :=
  match next g w with
  | Stop w' => (w', inr [])
  | Yield w' a rest =>
      match drain rest w' with
      | (w'', inr l) => (w'', inr (a :: l))
      | (w'', inl e) => (w'', inl e)
      end
  | Raised w' e => (w', inl e)
  end.

(** ** The environment of a command

    What the file imports or reaches through [self.app] and whose code is
    not part of it: the constants of oio.common.constants, the client
    manager (account name and storage client), the helpers of oio.common and
    the built-in [int()] on strings.  The commands are embedded once, for
    every environment. *)
Class Env : Type := {
  (* oio.common.constants *)
  M2_PROP_BUCKET_NAME : string;
  M2_PROP_QUOTA : string;
  M2_PROP_STORAGE_POLICY : string;
  M2_PROP_VERSIONING_POLICY : string;
  M2_PROP_DEL_EXC_VERSIONS : string;
  OIO_DB_ENABLED : Z;
  OIO_DB_DISABLED : Z;
  OIO_DB_FROZEN : Z;
  (* self.app.client_manager *)
  account : string;
  St : Type;
  storage : forall c : call, St -> St * (exn + resp c);
  (* oio.common.utils, oio.common.timestamp *)
  request_id : string -> string;
  timeout_to_deadline : float -> float;
  Timestamp_normal : string;
  cid_from_name : string -> string -> string;
  depaginate_bucket_list :
    string -> gmap string string -> gen (St * list call) bucket;
  (* int(s) for a string s; None when it raises ValueError *)
  int : string -> option Z;
}.

(** The system keys do not collide with each other nor with the literal
    ['sys.status'] key. *)
Definition distinct_keys `{Env} : Prop :=
  NoDup [M2_PROP_BUCKET_NAME; M2_PROP_QUOTA; M2_PROP_STORAGE_POLICY;
         M2_PROP_VERSIONING_POLICY; M2_PROP_DEL_EXC_VERSIONS; "sys.status"].

(** ** The command monad *)
Section Monad.
Context `{Env}.

(** The backend state and the calls issued so far, oldest first. *)
Definition world : Type := St * list call.

Definition M (A : Type) : Type := world -> world * (exn + A).

Definition ret {A : Type} (a : A) : M A := fun w => (w, inr a).

Definition raise {A : Type} (e : exn) : M A := fun w => (w, inl e).

Definition bind {A B : Type} (m : M A) (k : A -> M B) : M B :=
  fun w => match m w with
           | (w', inr a) => k a w'
           | (w', inl e) => (w', inl e)
           end.

(** [try: m  except NoSuchContainer: h]. *)
Definition except_NoSuchContainer {A : Type} (m : M A) (h : M A) : M A :=
  fun w => match m w with
           | (w', inl (NoSuchContainer _)) => h w'
           | r => r
           end.

(** A method call on the storage client: the call is logged, then the
    client answers or raises. *)
Definition invoke (c : call) : M (resp c) :=
  fun w => let '(s', r) := storage c (fst w) in ((s', snd w ++ [c]), r).

(** [d[k]] on a dictionary. *)
Definition subscript {V : Type} (d : gmap string V) (k : string) : M V :=
  match d !! k with
  | Some v => ret v
  | None => raise (KeyError k)
  end.
End Monad.

Notation "x <- m ;; k" := (bind m (fun x => k))
  (at level 100, m at next level, k at level 200, right associativity,
   only parsing).
Notation "m ;;; k" := (bind m (fun _ => k))
  (at level 100, k at level 200, right associativity, only parsing).

(** [for x in l: body(x)]. *)
Fixpoint for_each `{Env} {A : Type} (l : list A) (body : A -> M unit) : M unit :=
  match l with
  | [] => ret tt
  | x :: l' => body x ;;; for_each l' body
  end.

(** [for x in l: acc = body(x, acc)], the loop that grows a result list. *)
Fixpoint for_acc `{Env} {A B : Type} (l : list A) (acc : B)
    (body : A -> B -> M B) : M B :=
  match l with
  | [] => ret acc
  | x :: l' => acc' <- body x acc ;; for_acc l' acc' body
  end.

(** The generator [for v in g: yield body(v)], whose body may call the
    client or raise. *)
Fixpoint gen_for `{Env} {A B : Type} (g : gen world A) (body : A -> M B)
    : gen world B :=
  Gen (fun w => match next g w with
                | Stop w' => Stop w'
                | Yield w' a rest =>
                    match body a w' with
                    | (w'', inr b) => Yield w'' b (gen_for rest body)
                    | (w'', inl e) => Raised w'' e
                    end
                | Raised w' e => Raised w' e
                end).

(** [if o: d[k] = o] and [if o is not None: d[k] = f(o)]. *)
Definition set_if_truthy (k : string) (o : option string)
    (d : gmap string string) : gmap string string :=
  match o with
  | Some v => if truthy (Some v) then <[k := v]> d else d
  | None => d
  end.

Definition set_if_given {A : Type} (k : string) (f : A -> string)
    (o : option A) (d : gmap string string) : gmap string string :=
  match o with
  | Some v => <[k := f v]> d
  | None => d
  end.

(** [if flag: d[k] = ''], the reset switches of [unset]. *)
Definition reset_if (k : string) (flag : bool)
    (d : gmap string string) : gmap string string :=
  if flag then <[k := ""]> d else d.

(** [s.lower()] on ASCII letters. *)
Definition lower_ascii (c : Ascii.ascii) : Ascii.ascii :=
  let n := Ascii.nat_of_ascii c in
  if ((65 <=? n) && (n <=? 90))%nat then Ascii.ascii_of_nat (n + 32) else c.

Fixpoint lower (s : string) : string :=
  match s with
  | EmptyString => EmptyString
  | String c rest => String (lower_ascii c) (lower rest)
  end.

(** The calls of the list [cs] are answered one after the other without
    raising, taking the backend from [s] to [s']. *)
Inductive answered `{Env} : St -> list call -> St -> Prop :=
| answered_nil s : answered s [] s
| answered_cons s c r s1 cs s' :
    storage c s = (s1, inr r) ->
    answered s1 cs s' ->
    answered s (c :: cs) s'.

(** ** ContainerCommandMixin: a command taking a container or a CID *)
Module ContainerCommandMixin.

(** The attributes of [parsed_args] the mixin declares and updates. *)
Record ns : Type := NS {
  container : option string;
  is_cid : bool;
  cid : option string;
}.

(** What [patch_parser_container] makes of the command line: the
    positional argument and the [--cid] switch. *)
Definition parsed (container : string) (is_cid : bool) : ns :=
  {| container := Some container; is_cid := is_cid; cid := None |}.

Definition take_action_container (parsed_args : ns) : ns :=
  let parsed_args :=
    {| container := container parsed_args;
       is_cid := is_cid parsed_args;
       cid := None |} in
  if is_cid parsed_args then
    {| container := None;
       is_cid := is_cid parsed_args;
       cid := container parsed_args |}
  else parsed_args.

End ContainerCommandMixin.

(** ** CreateContainer *)
Module CreateContainer.

Record args : Type := Args {
  property : option (gmap string string);
  quota : option Z;
  storage_policy : option string;
  max_versions : option Z;
  delete_exceeding_versions : option bool;
  bucket_name : option string;
  containers : list string;
}.

Section with_env.
Context `{Env}.

(** Lines 146-157: the system map. *)
Definition system_of (parsed_args : args) : gmap string string :=
  let system : gmap string string := ∅ in
  let system :=
    set_if_truthy M2_PROP_BUCKET_NAME (bucket_name parsed_args) system in
  let system :=
    set_if_given M2_PROP_QUOTA str (quota parsed_args) system in
  let system :=
    set_if_given M2_PROP_STORAGE_POLICY id
      (storage_policy parsed_args) system in
  let system :=
    set_if_given M2_PROP_VERSIONING_POLICY str
      (max_versions parsed_args) system in
  let system :=
    set_if_given M2_PROP_DEL_EXC_VERSIONS (fun b => str (int_of_bool b))
      (delete_exceeding_versions parsed_args) system in
  system.

Definition take_action (parsed_args : args)
    : M (list string * list (string * bool)) :=
  let properties := property parsed_args in
  let system := system_of parsed_args in
  let results : list (string * bool) := [] in
  results <-
    (if (1 <? length (containers parsed_args))%nat then
       invoke (container_create_many account (containers parsed_args)
                 properties system)
     else
       for_acc (containers parsed_args) results
         (fun container results =>
            success <- invoke (container_create account container
                                 properties system) ;;
            ret (results ++ [(container, success)]))) ;;
  ret (["Name"; "Created"], results).
End with_env.

End CreateContainer.

(** ** SetContainer *)
Module SetContainer.

Record args : Type := Args {
  target : ContainerCommandMixin.ns;
  property : option (gmap string string);
  quota : option Z;
  storage_policy : option string;
  max_versions : option Z;
  delete_exceeding_versions : option bool;
  bucket_name : option string;
  clear : bool;
  status : option string;
}.

Section with_env.
Context `{Env}.

(** The dictionary literal of lines 268-272. *)
Definition status_value : gmap string string :=
  <["frozen" := str OIO_DB_FROZEN]>
    (<["disabled" := str OIO_DB_DISABLED]>
       (<["enabled" := str OIO_DB_ENABLED]> ∅)).

(** Lines 255-273: the system map; the subscript of [status_value] may
    raise. *)
Definition system_of (parsed_args : args) : M (gmap string string) :=
  let system : gmap string string := ∅ in
  let system :=
    set_if_truthy M2_PROP_BUCKET_NAME (bucket_name parsed_args) system in
  let system :=
    set_if_given M2_PROP_QUOTA str (quota parsed_args) system in
  let system :=
    set_if_given M2_PROP_STORAGE_POLICY id
      (storage_policy parsed_args) system in
  let system :=
    set_if_given M2_PROP_VERSIONING_POLICY str
      (max_versions parsed_args) system in
  let system :=
    set_if_given M2_PROP_DEL_EXC_VERSIONS (fun b => str (int_of_bool b))
      (delete_exceeding_versions parsed_args) system in
  match status parsed_args with
  | Some st =>
      v <- subscript status_value st ;;
      ret (<["sys.status" := v]> system)
  | None => ret system
  end.

Definition take_action (parsed_args : args) : M unit :=
  let tgt :=
    ContainerCommandMixin.take_action_container (target parsed_args) in
  let properties := property parsed_args in
  system <- system_of parsed_args ;;
  invoke (container_set_properties account
            (ContainerCommandMixin.container tgt)
            properties
            (Some (clear parsed_args))
            system
            (ContainerCommandMixin.cid tgt)).
End with_env.

End SetContainer.

(** ** TouchContainer and DeleteContainer: batches of names or of CIDs *)
Module TouchContainer.

Record args : Type := Args {
  containers : list string;
  is_cid : bool;
  recompute : bool;
}.

Section with_env.
Context `{Env}.

Definition take_action (parsed_args : args) : M unit :=
  if is_cid parsed_args then
    for_each (containers parsed_args) (fun container =>
      invoke (container_touch account None (recompute parsed_args)
                (Some container)))
  else
    for_each (containers parsed_args) (fun container =>
      invoke (container_touch account (Some container)
                (recompute parsed_args) None)).
End with_env.

End TouchContainer.

Module DeleteContainer.

Record args : Type := Args {
  containers : list string;
  is_cid : bool;
}.

Section with_env.
Context `{Env}.

Definition take_action (parsed_args : args) : M unit :=
  if is_cid parsed_args then
    for_each (containers parsed_args) (fun container =>
      invoke (container_delete account None (Some container)))
  else
    for_each (containers parsed_args) (fun container =>
      invoke (container_delete account (Some container) None)).
End with_env.

End DeleteContainer.

(** ** FlushContainer, PurgeContainer, RefreshContainer *)
Module FlushContainer.

Record args : Type := Args {
  target : ContainerCommandMixin.ns;
  quick : bool;
}.

Section with_env.
Context `{Env}.

Definition take_action (parsed_args : args) : M unit :=
  let tgt :=
    ContainerCommandMixin.take_action_container (target parsed_args) in
  ac <- match ContainerCommandMixin.cid tgt with
        | None => ret (account, ContainerCommandMixin.container tgt)
        | Some c =>
            r <- invoke (resolve_cid c) ;; ret (fst r, Some (snd r))
        end ;;
  invoke (container_flush (fst ac) (snd ac) (quick parsed_args)).
End with_env.

End FlushContainer.

Module PurgeContainer.

Record args : Type := Args {
  target : ContainerCommandMixin.ns;
  max_versions : option Z;
}.

Section with_env.
Context `{Env}.

Definition take_action (parsed_args : args) : M unit :=
  let tgt :=
    ContainerCommandMixin.take_action_container (target parsed_args) in
  invoke (container_purge account (ContainerCommandMixin.container tgt)
            (max_versions parsed_args) (ContainerCommandMixin.cid tgt)).
End with_env.

End PurgeContainer.

Module RefreshContainer.

Record args : Type := Args {
  target : ContainerCommandMixin.ns;
}.

Section with_env.
Context `{Env}.

Definition take_action (parsed_args : args) : M unit :=
  let tgt :=
    ContainerCommandMixin.take_action_container (target parsed_args) in
  ac <- match ContainerCommandMixin.cid tgt with
        | None => ret (account, ContainerCommandMixin.container tgt)
        | Some c =>
            r <- invoke (resolve_cid c) ;; ret (fst r, Some (snd r))
        end ;;
  invoke (container_refresh (fst ac) (snd ac)).
End with_env.

End RefreshContainer.

(** ** UnsetContainer *)
Module UnsetContainer.

Record args : Type := Args {
  target : ContainerCommandMixin.ns;
  bucket_name : bool;
  property : list string;
  storage_policy : bool;
  max_versions : bool;
  quota : bool;
  delete_exceeding_versions : bool;
}.

Section with_env.
Context `{Env}.

(** Lines 702-712. *)
Definition system_of (parsed_args : args) : gmap string string :=
  let system : gmap string string := ∅ in
  let system :=
    reset_if M2_PROP_BUCKET_NAME (bucket_name parsed_args) system in
  let system :=
    reset_if M2_PROP_STORAGE_POLICY (storage_policy parsed_args) system in
  let system :=
    reset_if M2_PROP_VERSIONING_POLICY (max_versions parsed_args) system in
  let system := reset_if M2_PROP_QUOTA (quota parsed_args) system in
  let system :=
    reset_if M2_PROP_DEL_EXC_VERSIONS
      (delete_exceeding_versions parsed_args) system in
  system.

Definition take_action (parsed_args : args) : M unit :=
  let tgt :=
    ContainerCommandMixin.take_action_container (target parsed_args) in
  let properties := property parsed_args in
  let system := system_of parsed_args in
  (if negb (bool_decide (properties = []))
      || bool_decide (system = ∅) then
     invoke (container_del_properties account
               (ContainerCommandMixin.container tgt)
               properties (ContainerCommandMixin.cid tgt))
   else ret tt) ;;;
  (if negb (bool_decide (system = ∅)) then
     invoke (container_set_properties account
               (ContainerCommandMixin.container tgt)
               None None system (ContainerCommandMixin.cid tgt))
   else ret tt).
End with_env.

End UnsetContainer.

(** ** SnapshotContainer *)
Module SnapshotContainer.

Record args : Type := Args {
  target : ContainerCommandMixin.ns;
  dst_account : option string;
  dst_container : option string;
  chunk_batch_size : pyval;
  timeout : float;
}.

Section with_env.
Context `{Env}.

(** [container + "-" + Timestamp().normal]. *)
Definition default_dst_container (container : option string) : M string :=
  match container with
  | Some c => ret (c +:+ "-" +:+ Timestamp_normal)
  | None =>
      raise (TypeError
               "unsupported operand type(s) for +: 'NoneType' and 'str'")
  end.

Definition take_action (parsed_args : args)
    : M (list string * list (string * string * string)) :=
  let tgt :=
    ContainerCommandMixin.take_action_container (target parsed_args) in
  let cid := ContainerCommandMixin.cid tgt in
  ac <- match cid with
        | None => ret (account, ContainerCommandMixin.container tgt)
        | Some c =>
            r <- invoke (resolve_cid c) ;; ret (fst r, Some (snd r))
        end ;;
  let account := fst ac in
  let container := snd ac in
  let deadline := timeout_to_deadline (timeout parsed_args) in
  let dst_account := or_else (dst_account parsed_args) account in
  dst_container <-
    match dst_container parsed_args with
    | Some d =>
        if String.eqb d "" then default_dst_container container else ret d
    | None => default_dst_container container
    end ;;
  let batch_size := chunk_batch_size parsed_args in
  invoke (container_snapshot account container dst_account dst_container
            batch_size deadline) ;;;
  let lines := [(dst_account, dst_container, "OK")] in
  ret (["Account"; "Container"; "Status"], lines).
End with_env.

End SnapshotContainer.

(** ** ListBuckets *)
Module ListBuckets.

Record args : Type := Args {
  prefix : option string;
  marker : option string;
  limit : option string;
  full_listing : bool;
  versioning_flag : bool;
}.

Section with_env.
Context `{Env}.

(** Lines 510-516. *)
Definition kwargs_of (parsed_args : args) : gmap string string :=
  let kwargs : gmap string string :=
    <["reqid" := request_id "CLI-BUCKET-"]> ∅ in
  let kwargs := set_if_truthy "prefix" (prefix parsed_args) kwargs in
  let kwargs := set_if_truthy "marker" (marker parsed_args) kwargs in
  let kwargs := set_if_truthy "limit" (limit parsed_args) kwargs in
  kwargs.

(** The inner function [versioning(bucket)], lines 536-550, which reads
    [kwargs] of the enclosing [take_action]. *)
Definition versioning (kwargs : gmap string string) (bucket : pyval)
    : M string :=
  fetched <-
    except_NoSuchContainer
      (reqid <- subscript kwargs "reqid" ;;
       data <- invoke (container_get_properties account bucket reqid) ;;
       ret (Some (data : gmap string (gmap string string))))
      (ret None) ;;
  match fetched with
  | None => ret "Error"
  | Some data =>
      sys <- subscript data "system" ;;
      match sys !! M2_PROP_VERSIONING_POLICY with
      | None => ret "Suspended"
      | Some status =>
          match int status with
          | None => raise (ValueError status)
          | Some n =>
              if n =? 0 then ret "Suspended" else ret "Enabled"
          end
      end
  end.

(** The generator [enrich(listing)], lines 555-558. *)
Definition enrich (kwargs : gmap string string)
    (listing : gen world bucket) : gen world bucket :=
  gen_for listing (fun v =>
    name <- subscript v "name" ;;
    state <- versioning kwargs name ;;
    ret (<["versioning" := PyStr state]> v)).

(** [[v[k.lower()] for k in columns]]. *)
Definition row_of (columns : list string) (v : bucket) : M (list pyval) :=
  for_acc columns [] (fun k row =>
    x <- subscript v (lower k) ;; ret (row ++ [x])).

Definition take_action (parsed_args : args)
    : M (list string * gen world (list pyval)) :=
  let kwargs := kwargs_of parsed_args in
  listing <-
    (if full_listing parsed_args then
       ret (depaginate_bucket_list account kwargs)
     else
       acct_meta <- invoke (bucket_list account kwargs) ;;
       ret (iter (listing acct_meta))) ;;
  let columns := ["Name"; "Bytes"; "Objects"; "Mtime"] in
  let columns :=
    if versioning_flag parsed_args then columns ++ ["Versioning"]
    else columns in
  let listing :=
    if versioning_flag parsed_args then enrich kwargs listing
    else listing in
  ret (columns, gen_for listing (row_of columns)).
End with_env.

End ListBuckets.

(** ** ListContainer *)
Module ListContainer.

Record args : Type := Args {
  prefix : option string;
  delimiter : option string;
  marker : option string;
  end_marker : option string;
  limit : option string;
  full_listing : bool;
}.

Section with_env.
Context `{Env}.

(** Lines 612-622. *)
Definition kwargs_of (parsed_args : args) : gmap string string :=
  let kwargs : gmap string string := ∅ in
  let kwargs := set_if_truthy "prefix" (prefix parsed_args) kwargs in
  let kwargs := set_if_truthy "marker" (marker parsed_args) kwargs in
  let kwargs :=
    set_if_truthy "end_marker" (end_marker parsed_args) kwargs in
  let kwargs := set_if_truthy "delimiter" (delimiter parsed_args) kwargs in
  let kwargs := set_if_truthy "limit" (limit parsed_args) kwargs in
  kwargs.

(** The [while listing:] loop of [full_list], lines 633-639, run until
    the generator is exhausted: the result is the list of the elements
    it yields.  The loop runs for as long as the client answers pages
    that are not empty, so the embedding takes a bound on the number of
    iterations; [None] says that the bound was reached. *)
Fixpoint full_list_while (fuel : nat) (kwargs : gmap string string)
    (listing : list entry) : M (option (list entry)) :=
  match fuel with
  | O => ret None
  | S fuel' =>
      match last listing with
      | None => ret (Some [])
      | Some e =>
          let kwargs := <["marker" := e_name e]> kwargs in
          listing <- invoke (container_list account kwargs) ;;
          rest <- full_list_while fuel' kwargs listing ;;
          ret (app listing <$> rest)
      end
  end.

(** The generator [full_list()], lines 627-639, run to exhaustion. *)
Definition full_list (fuel : nat) (kwargs : gmap string string)
    : M (option (list entry)) :=
  listing <- invoke (container_list account kwargs) ;;
  rest <- full_list_while fuel kwargs listing ;;
  ret (app listing <$> rest).

(** One output row, line 647. *)
Definition row_of (v : entry) : string * Z * Z * Z * string :=
  (e_name v, e_bytes v, e_count v, e_mtime v,
   cid_from_name account (e_name v)).

(** [take_action] followed by the exhaustion of the rows it returns. *)
Definition take_action (fuel : nat) (parsed_args : args)
    : M (option (list string * list (string * Z * Z * Z * string))) :=
  let kwargs := kwargs_of parsed_args in
  listing <-
    (if full_listing parsed_args then full_list fuel kwargs
     else
       listing <- invoke (container_list account kwargs) ;;
       ret (Some listing)) ;;
  let columns := ["Name"; "Bytes"; "Count"; "Mtime"; "CID"] in
  ret ((fun l => (columns, map row_of l)) <$> listing).
End with_env.

End ListContainer.

(** ** A recording client, to run the commands on examples

    The backend is a table of containers (name or CID to system properties),
    a script of the pages [container_list] answers one after the other, and
    the buckets of the account.  A container that is not in the table makes
    the client raise [NoSuchContainer]. *)
Module Fake.

Record backend : Type := Backend {
  table : gmap string (gmap string string);
  pages : list (list entry);
  buckets : list bucket;
}.

Definition with_table (t : gmap string (gmap string string)) (b : backend)
    : backend :=
  {| table := t; pages := pages b; buckets := buckets b |}.

Definition key_of (container cid : option string) : string :=
  match cid with
  | Some c => c
  | None => default "" container
  end.

Definition on_existing (k : string) (b : backend) : backend * (exn + unit) :=
  match table b !! k with
  | Some _ => (b, inr tt)
  | None => (b, inl (NoSuchContainer k))
  end.

Definition create (name : string) (system : gmap string string)
    (b : backend) : backend * bool :=
  match table b !! name with
  | Some _ => (b, false)
  | None => (with_table (<[name := system]> (table b)) b, true)
  end.

Fixpoint create_many (names : list string) (system : gmap string string)
    (b : backend) : backend * list (string * bool) :=
  match names with
  | [] => (b, [])
  | n :: names' =>
      let '(b1, ok) := create n system b in
      let '(b2, r) := create_many names' system b1 in
      (b2, (n, ok) :: r)
  end.

Definition answer (c : call) : backend -> backend * (exn + resp c) :=
  match c as c0 return backend -> backend * (exn + resp c0) with
  | container_create _ name _ system =>
      fun b => let '(b', ok) := create name system b in (b', inr ok)
  | container_create_many _ names _ system =>
      fun b => let '(b', r) := create_many names system b in (b', inr r)
  | container_set_properties _ container _ _ _ cid =>
      on_existing (key_of container cid)
  | container_del_properties _ container _ cid =>
      on_existing (key_of container cid)
  | container_touch _ container _ cid => on_existing (key_of container cid)
  | container_delete _ container cid =>
      fun b =>
        match on_existing (key_of container cid) b with
        | (_, inr _) =>
            (with_table (delete (key_of container cid) (table b)) b, inr tt)
        | r => r
        end
  | container_flush _ container _ => on_existing (key_of container None)
  | container_purge _ container _ cid => on_existing (key_of container cid)
  | container_refresh _ container => on_existing (key_of container None)
  | container_snapshot _ _ _ _ _ _ => fun b => (b, inr tt)
  | container_get_properties _ container _ =>
      fun b =>
        match container with
        | PyStr name =>
            match table b !! name with
            | Some system =>
                (b, inr (<["system" := system]> (<["properties" := ∅]> ∅)))
            | None => (b, inl (NoSuchContainer name))
            end
        | _ => (b, inl (OtherError "BadRequest" "container name"))
        end
  | container_list _ _ =>
      fun b =>
        match pages b with
        | [] => (b, inr [])
        | p :: ps =>
            ({| table := table b; pages := ps; buckets := buckets b |}, inr p)
        end
  | bucket_list _ _ =>
      fun b =>
        (b, inr {| listing := buckets b; truncated := false;
                   next_marker := None |})
  | resolve_cid cid =>
      fun b =>
        match table b !! cid with
        | Some _ => (b, inr ("myaccount", "name-of-" +:+ cid))
        | None => (b, inl (NoSuchContainer cid))
        end
  end.

(** Decimal integer literals with an optional minus sign, for the [int]
    of the environment below.  The keys and the status codes of this
    environment are sample values, pairwise distinct. *)
Definition parse_int (s : string) : option Z :=
  Z.of_int <$> NilZero.int_of_string s.

#[export] Instance env : Env := {|
  M2_PROP_BUCKET_NAME := "sys.m2.bucket.name";
  M2_PROP_QUOTA := "sys.m2.quota";
  M2_PROP_STORAGE_POLICY := "sys.m2.policy.storage";
  M2_PROP_VERSIONING_POLICY := "sys.m2.policy.version";
  M2_PROP_DEL_EXC_VERSIONS := "sys.m2.policy.version.delete_exceeding";
  OIO_DB_ENABLED := 0;
  OIO_DB_DISABLED := 4294967294;
  OIO_DB_FROZEN := 4294967295;
  account := "myaccount";
  St := backend;
  storage := answer;
  request_id := fun prefix => prefix +:+ "0001";
  timeout_to_deadline := fun t => t;
  Timestamp_normal := "1600000000.00000";
  cid_from_name := fun a n => "cid(" +:+ a +:+ "/" +:+ n +:+ ")";
  depaginate_bucket_list := fun _ _ => iter [];
  int := parse_int;
|}.

(** A backend holding the given containers, without system properties. *)
Definition holding (names : list string) : backend :=
  {| table := list_to_map ((fun n => (n, ∅)) <$> names);
     pages := []; buckets := [] |}.

End Fake.

(** ** Vocabulary of the statements *)

(** The arguments [create] and [set] share, seen as [create] arguments. *)
Definition as_create (a : SetContainer.args) : CreateContainer.args :=
  {| CreateContainer.property := SetContainer.property a;
     CreateContainer.quota := SetContainer.quota a;
     CreateContainer.storage_policy := SetContainer.storage_policy a;
     CreateContainer.max_versions := SetContainer.max_versions a;
     CreateContainer.delete_exceeding_versions :=
       SetContainer.delete_exceeding_versions a;
     CreateContainer.bucket_name := SetContainer.bucket_name a;
     CreateContainer.containers := [] |}.

(** The same arguments with another value of [--bucket-name]. *)
Definition create_with_bucket_name (b : option string)
    (a : CreateContainer.args) : CreateContainer.args :=
  {| CreateContainer.property := CreateContainer.property a;
     CreateContainer.quota := CreateContainer.quota a;
     CreateContainer.storage_policy := CreateContainer.storage_policy a;
     CreateContainer.max_versions := CreateContainer.max_versions a;
     CreateContainer.delete_exceeding_versions :=
       CreateContainer.delete_exceeding_versions a;
     CreateContainer.bucket_name := b;
     CreateContainer.containers := CreateContainer.containers a |}.

Definition set_with_bucket_name (b : option string)
    (a : SetContainer.args) : SetContainer.args :=
  {| SetContainer.target := SetContainer.target a;
     SetContainer.property := SetContainer.property a;
     SetContainer.quota := SetContainer.quota a;
     SetContainer.storage_policy := SetContainer.storage_policy a;
     SetContainer.max_versions := SetContainer.max_versions a;
     SetContainer.delete_exceeding_versions :=
       SetContainer.delete_exceeding_versions a;
     SetContainer.bucket_name := b;
     SetContainer.clear := SetContainer.clear a;
     SetContainer.status := SetContainer.status a |}.

(** The [container_set_properties] call of [container set] for a given
    system map. *)
Definition set_call `{Env} (a : SetContainer.args)
    (system : gmap string string) : call :=
  let tgt :=
    ContainerCommandMixin.take_action_container (SetContainer.target a) in
  container_set_properties account (ContainerCommandMixin.container tgt)
    (SetContainer.property a) (Some (SetContainer.clear a)) system
    (ContainerCommandMixin.cid tgt).

(** The client calls of [container create] for a given system map: the
    batch call for more than one name, the single call for one name, and
    no call when no name is given. *)
Definition create_calls `{Env} (a : CreateContainer.args)
    (system : gmap string string) : list call :=
  match CreateContainer.containers a with
  | [] => []
  | [name] =>
      [container_create account name (CreateContainer.property a) system]
  | names =>
      [container_create_many account names (CreateContainer.property a)
         system]
  end.

(** What [container set] does: it stops on the KeyError of the status table
    with the world untouched, or it issues [container_set_properties] with
    some system map. *)
Inductive set_outcome `{Env} (a : SetContainer.args) (w : world)
    : option (gmap string string) -> Prop :=
| set_stops st :
    SetContainer.status a = Some st ->
    st ∉ ["enabled"; "disabled"; "frozen"] ->
    SetContainer.take_action a w = (w, inl (KeyError st)) ->
    set_outcome a w None
| set_calls system :
    SetContainer.system_of a w = (w, inr system) ->
    SetContainer.take_action a w = invoke (set_call a system) w ->
    set_outcome a w (Some system).

(** The two batch commands, and the client call each issues for one member
    of the batch: the member is passed as the name, or as [cid] with
    [--cid]. *)
Inductive batch : Type :=
| Touch (recompute : bool)
| Delete.

Definition batch_call `{Env} (cmd : batch) (is_cid : bool) (member : string)
    : call :=
  let name := if is_cid then None else Some member in
  let cid := if is_cid then Some member else None in
  match cmd with
  | Touch recompute => container_touch account name recompute cid
  | Delete => container_delete account name cid
  end.

Definition batch_take_action `{Env} (cmd : batch) (is_cid : bool)
    (members : list string) : M unit :=
  match cmd with
  | Touch recompute =>
      TouchContainer.take_action
        {| TouchContainer.containers := members;
           TouchContainer.is_cid := is_cid;
           TouchContainer.recompute := recompute |}
  | Delete =>
      DeleteContainer.take_action
        {| DeleteContainer.containers := members;
           DeleteContainer.is_cid := is_cid |}
  end.

(** The two calls of [container unset], its reset switches with their keys,
    and whether one of the switches is given. *)
Definition unset_del `{Env} (a : UnsetContainer.args) : call :=
  let tgt :=
    ContainerCommandMixin.take_action_container (UnsetContainer.target a) in
  container_del_properties account (ContainerCommandMixin.container tgt)
    (UnsetContainer.property a) (ContainerCommandMixin.cid tgt).

Definition unset_set `{Env} (a : UnsetContainer.args) : call :=
  let tgt :=
    ContainerCommandMixin.take_action_container (UnsetContainer.target a) in
  container_set_properties account (ContainerCommandMixin.container tgt)
    None None (UnsetContainer.system_of a) (ContainerCommandMixin.cid tgt).

Definition reset_flags `{Env} (a : UnsetContainer.args)
    : list (string * bool) :=
  [(M2_PROP_BUCKET_NAME, UnsetContainer.bucket_name a);
   (M2_PROP_STORAGE_POLICY, UnsetContainer.storage_policy a);
   (M2_PROP_VERSIONING_POLICY, UnsetContainer.max_versions a);
   (M2_PROP_QUOTA, UnsetContainer.quota a);
   (M2_PROP_DEL_EXC_VERSIONS, UnsetContainer.delete_exceeding_versions a)].

Definition any_reset (a : UnsetContainer.args) : bool :=
  UnsetContainer.bucket_name a || UnsetContainer.storage_policy a
  || UnsetContainer.max_versions a || UnsetContainer.quota a
  || UnsetContainer.delete_exceeding_versions a.

(** Modelled from the spec: [container_create_many] of the storage client
    (oio.api, not part of this file) "returns per-name success booleans",
    "ordered pairs (name, created?)": when it answers, its answer lists the
    requested names, in the order of the request, each with a boolean. *)
Definition per_name_results `{Env} : Prop :=
  ∀ acct names properties system s s' r,
    storage (container_create_many acct names properties system) s
      = (s', inr r) ->
    r.*1 = names.

(** The source of a snapshot: the account of the client manager and the
    given name, or, with [--cid], what [resolve_cid] answers; [cs] is the
    list of the calls this takes. *)
Definition resolved `{Env} (given : string) (is_cid : bool) (s : St)
    (acct name : string) (s1 : St) (cs : list call) : Prop :=
  if is_cid then
    storage (resolve_cid given) s = (s1, inr (acct, name))
    ∧ cs = [resolve_cid given]
  else
    acct = account ∧ name = given ∧ s1 = s ∧ cs = [].

(** How the client answers the successive [container_list] calls of a full
    listing that starts with the keyword arguments [kw] on the backend [s]:
    [pages] are the pages it answers before the empty page, [cs] the calls
    (the marker of each call after the first is the name, [v[0]], of the last
    entry of the page before), [s'] the backend after the empty page. *)
Inductive paging `{Env}
    : gmap string string -> St -> list (list entry) -> list call -> St -> Prop :=
| paging_stop kw s s' :
    storage (container_list account kw) s = (s', inr []) ->
    paging kw s [] [container_list account kw] s'
| paging_page kw s p s1 e ps cs s' :
    storage (container_list account kw) s = (s1, inr p) ->
    last p = Some e ->
    paging (<["marker" := e_name e]> kw) s1 ps cs s' ->
    paging kw s (p :: ps) (container_list account kw :: cs) s'.

(** The Versioning column for the outcome of the property fetch of a
    bucket: "Error" when the fetch raises [NoSuchContainer]; otherwise
    "Suspended" when the system properties have no versioning policy or a
    policy that reads as the integer 0, "Enabled" when the policy reads as
    another integer. *)
Inductive column `{Env}
    : exn + gmap string (gmap string string) -> string -> Prop :=
| column_error msg :
    column (inl (NoSuchContainer msg)) "Error"
| column_absent data sys :
    data !! "system" = Some sys ->
    sys !! M2_PROP_VERSIONING_POLICY = None ->
    column (inr data) "Suspended"
| column_zero data sys status :
    data !! "system" = Some sys ->
    sys !! M2_PROP_VERSIONING_POLICY = Some status ->
    int status = Some 0 ->
    column (inr data) "Suspended"
| column_other data sys status n :
    data !! "system" = Some sys ->
    sys !! M2_PROP_VERSIONING_POLICY = Some status ->
    int status = Some n ->
    n ≠ 0 ->
    column (inr data) "Enabled".

(** The columns of [bucket list --versioning]. *)
Definition bucket_columns : list string :=
  ["Name"; "Bytes"; "Objects"; "Mtime"; "Versioning"].

(** Where the buckets of [bucket list] come from: the generator of
    [depaginate] with [--no-paging], and else the ['listing'] of the answer
    of one [bucket_list] call, made before the rows are produced. *)
Definition listing_source `{Env} (a : ListBuckets.args) (s : St)
    (g : gen world bucket) (s1 : St) (cs : list call) : Prop :=
  if ListBuckets.full_listing a then
    g = depaginate_bucket_list account (ListBuckets.kwargs_of a)
    ∧ s1 = s ∧ cs = []
  else
    ∃ page,
      storage (bucket_list account (ListBuckets.kwargs_of a)) s
        = (s1, inr page)
      ∧ g = iter (listing page)
      ∧ cs = [bucket_list account (ListBuckets.kwargs_of a)].

(** One bucket of the output: the dictionary the listing yields, its name,
    the outcome of its property fetch, its Versioning column and its row. *)
Record item : Type := Item {
  i_bucket : bucket;
  i_name : pyval;
  i_fetch : exn + gmap string (gmap string string);
  i_column : string;
  i_row : list pyval;
}.

(** A run of the listing [g] in which each bucket it yields is followed by
    one [container_get_properties] call for the name of this bucket, whose
    outcome has a Versioning column; the run ends when [g] stops. *)
Inductive enriched `{Env} (reqid : string)
    : gen world bucket -> world -> list item -> world -> Prop :=
| enriched_stop g w w' :
    next g w = Stop w' ->
    enriched reqid g w [] w'
| enriched_yield g w (w1 : world) v rest name b o m s2 out col items w' :
    next g w = Yield w1 v rest ->
    v !! "name" = Some name ->
    v !! "bytes" = Some b ->
    v !! "objects" = Some o ->
    v !! "mtime" = Some m ->
    storage (container_get_properties account name reqid) (fst w1)
      = (s2, out) ->
    column out col ->
    enriched reqid rest
      (s2, snd w1 ++ [container_get_properties account name reqid]) items w' ->
    enriched reqid g w
      ({| i_bucket := v; i_name := name; i_fetch := out; i_column := col;
          i_row := [name; b; o; m; PyStr col] |} :: items) w'.

(** The text of an "invalid status" error. *)
Definition invalid_status_error (e : exn) : Prop :=
  contains "invalid status" (exn_message e) = true.

From stdpp Require sorting.

(** ** Vocabulary of the further properties *)

(** The client answers the pages [pages], none of them empty, and raises [e]
    on the next [container_list] call of a full listing; [cs] are the calls,
    the failed one included. *)
Inductive paging_fails `{Env}
    : gmap string string -> St -> list (list entry) -> list call -> exn -> St
      -> Prop :=
| paging_raises kw s s' e :
    storage (container_list account kw) s = (s', inl e) ->
    paging_fails kw s [] [container_list account kw] e s'
| paging_then kw s p s1 x ps cs e s' :
    storage (container_list account kw) s = (s1, inr p) ->
    last p = Some x ->
    paging_fails (<["marker" := e_name x]> kw) s1 ps cs e s' ->
    paging_fails kw s (p :: ps) (container_list account kw :: cs) e s'.

(** Why the Versioning column of a bucket cannot be computed: the property
    fetch raises something else than [NoSuchContainer], its answer has no
    ['system'] entry, or the versioning policy is not an integer literal. *)
Inductive no_column `{Env}
    : exn + gmap string (gmap string string) -> exn -> Prop :=
| no_column_raised e :
    (∀ msg, e ≠ NoSuchContainer msg) ->
    no_column (inl e) e
| no_column_system data :
    data !! "system" = None ->
    no_column (inr data) (KeyError "system")
| no_column_literal data sys status :
    data !! "system" = Some sys ->
    sys !! M2_PROP_VERSIONING_POLICY = Some status ->
    int status = None ->
    no_column (inr data) (ValueError status).

(** A run of the listing [g] with [--versioning] that stops on the bucket
    whose Versioning column cannot be computed, after the buckets of
    [items]. *)
Inductive enriched_until `{Env} (reqid : string)
    : gen world bucket -> world -> list item -> exn -> world -> Prop :=
| until_here g w (w1 : world) v rest name s2 out e :
    next g w = Yield w1 v rest ->
    v !! "name" = Some name ->
    storage (container_get_properties account name reqid) (fst w1)
      = (s2, out) ->
    no_column out e ->
    enriched_until reqid g w [] e
      (s2, snd w1 ++ [container_get_properties account name reqid])
| until_later g w (w1 : world) v rest name b o m s2 out col items e w' :
    next g w = Yield w1 v rest ->
    v !! "name" = Some name ->
    v !! "bytes" = Some b ->
    v !! "objects" = Some o ->
    v !! "mtime" = Some m ->
    storage (container_get_properties account name reqid) (fst w1)
      = (s2, out) ->
    column out col ->
    enriched_until reqid rest
      (s2, snd w1 ++ [container_get_properties account name reqid])
      items e w' ->
    enriched_until reqid g w
      ({| i_bucket := v; i_name := name; i_fetch := out; i_column := col;
          i_row := [name; b; o; m; PyStr col] |} :: items) e w'.

(** A run of the listing [g] with [--versioning], whatever the property
    fetches do: it goes through every bucket ([None]), or it stops with [e]
    on the first bucket whose Versioning column cannot be computed. *)
Inductive versioned `{Env} (reqid : string)
    : gen world bucket -> world -> list item -> option exn -> world
      -> Prop :=
| versioned_all g w items w' :
    enriched reqid g w items w' ->
    versioned reqid g w items None w'
| versioned_until g w items e w' :
    enriched_until reqid g w items e w' ->
    versioned reqid g w items (Some e) w'.

(** A bucket of a listing with the four keys of a row. *)
Definition listed (v : bucket) : Prop :=
  is_Some (v !! "name") ∧ is_Some (v !! "bytes")
  ∧ is_Some (v !! "objects") ∧ is_Some (v !! "mtime").

(** The environment of the recording client with other answers. *)
Definition fake_with
    (answer : forall c : call, Fake.backend -> Fake.backend * (exn + resp c))
    : Env :=
  {| M2_PROP_BUCKET_NAME := M2_PROP_BUCKET_NAME (Env := Fake.env);
     M2_PROP_QUOTA := M2_PROP_QUOTA (Env := Fake.env);
     M2_PROP_STORAGE_POLICY := M2_PROP_STORAGE_POLICY (Env := Fake.env);
     M2_PROP_VERSIONING_POLICY := M2_PROP_VERSIONING_POLICY (Env := Fake.env);
     M2_PROP_DEL_EXC_VERSIONS := M2_PROP_DEL_EXC_VERSIONS (Env := Fake.env);
     OIO_DB_ENABLED := OIO_DB_ENABLED (Env := Fake.env);
     OIO_DB_DISABLED := OIO_DB_DISABLED (Env := Fake.env);
     OIO_DB_FROZEN := OIO_DB_FROZEN (Env := Fake.env);
     account := account (Env := Fake.env);
     St := Fake.backend;
     storage := answer;
     request_id := request_id (Env := Fake.env);
     timeout_to_deadline := timeout_to_deadline (Env := Fake.env);
     Timestamp_normal := Timestamp_normal (Env := Fake.env);
     cid_from_name := cid_from_name (Env := Fake.env);
     depaginate_bucket_list := fun _ _ => iter [];
     int := Fake.parse_int |}.

(** A client that never answers an empty page: the recording client, except
    that every [container_list] call answers the same one-entry page. *)
Module Endless.

Definition page : list entry :=
  [{| e_name := "again"; e_count := 0; e_bytes := 0; e_isdir := false;
      e_mtime := 0 |}].

Definition answer (c : call) : Fake.backend -> Fake.backend * (exn + resp c) :=
  match c as c0 return Fake.backend -> Fake.backend * (exn + resp c0) with
  | container_list _ _ => fun b => (b, inr page)
  | c0 => Fake.answer c0
  end.

Definition env : Env := fake_with answer.

End Endless.

(** A client that breaks down: the recording client, except that
    [container_list] raises once its script of pages is used up, and that
    [container_get_properties] raises for the container named ["down"]. *)
Module Flaky.

Definition busy : exn := OtherError "ServiceBusy" "retry later".

Definition answer (c : call) : Fake.backend -> Fake.backend * (exn + resp c) :=
  match c as c0 return Fake.backend -> Fake.backend * (exn + resp c0) with
  | container_list a kw =>
      fun b => match Fake.pages b with
               | [] => (b, inl busy)
               | _ => Fake.answer (container_list a kw) b
               end
  | container_get_properties a (PyStr "down") r => fun b => (b, inl busy)
  | c0 => Fake.answer c0
  end.

Definition env : Env := fake_with answer.

End Flaky.

(** The five system keys the property flags stand for. *)
Definition property_keys `{Env} : list string :=
  [M2_PROP_BUCKET_NAME; M2_PROP_QUOTA; M2_PROP_STORAGE_POLICY;
   M2_PROP_VERSIONING_POLICY; M2_PROP_DEL_EXC_VERSIONS].

(** A filter of the command line as the listing commands forward it: a
    value that is [None] or empty is not forwarded. *)
Definition forwarded (o : option string) : option string :=
  if truthy o then o else None.

(** ** The commands that show: [show], [locate] and the bucket commands

    These commands call methods of the client that the commands above do
    not use, and return dictionaries whose values may be floats. *)

(** A scalar, or a float carried as its bit pattern. *)
Inductive value : Type :=
| Scalar (v : pyval)
| Float (f : float).

Module Client2.

Inductive call : Type :=
| container_get_properties (account : string) (container cid : option string)
| directory_list (account : string) (container cid : option string)
| bucket_show (bucket : string) (reqid : string)
| bucket_update (bucket : string) (metadata : gmap string string)
    (to_delete : option (list string)) (reqid : string)
| bucket_refresh (bucket : string) (reqid : string).

Definition resp (c : call) : Type :=
  match c with
  | container_get_properties _ _ _ => gmap string (gmap string string)
  | directory_list _ _ _ => gmap string (list (gmap string string))
  | bucket_show _ _ => gmap string value
  | bucket_update _ _ _ _ => gmap string value
  | bucket_refresh _ _ => unit
  end.

End Client2.

(** The environment of these commands: the environment of the commands
    above, the other constants of oio.common.constants, the other methods
    of the client, the helpers of oio.common.easy_value and
    oio.common.timestamp, and the built-in conversions of floats. *)
Class Env2 : Type := {
  env2_env :: Env;
  BUCKET_PROP_REPLI_ENABLED : string;
  M2_PROP_CTIME : string;
  M2_PROP_USAGE : string;
  M2_PROP_OBJECTS : string;
  M2_PROP_DAMAGED_OBJECTS : string;
  M2_PROP_MISSING_CHUNKS : string;
  (* OIO_DB_STATUS_NAME.get(x), for x a string or None *)
  OIO_DB_STATUS_NAME : option string -> option string;
  storage2 : forall c : Client2.call, St -> St * (exn + Client2.resp c);
  (* convert_size(value, unit=...) *)
  convert_size : value -> option string -> exn + string;
  (* Timestamp(value).isoformat *)
  Timestamp_isoformat : value -> exn + string;
  (* float(s); None when it raises ValueError *)
  float_of_string : string -> option float;
  (* x / 1000000. *)
  micro_to_seconds : float -> float;
  (* int(x) for a float x *)
  int_of_float : float -> exn + Z;
}.

Section Monad2.
Context `{Env2}.

(** The backend state and the calls of these commands, oldest first. *)
Definition world2 : Type := St * list Client2.call.

Definition M2 (A : Type) : Type := world2 -> world2 * (exn + A).

Definition ret2 {A : Type} (a : A) : M2 A := fun w => (w, inr a).

Definition raise2 {A : Type} (e : exn) : M2 A := fun w => (w, inl e).

Definition bind2 {A B : Type} (m : M2 A) (k : A -> M2 B) : M2 B :=
  fun w => match m w with
           | (w', inr a) => k a w'
           | (w', inl e) => (w', inl e)
           end.

(** The outcome of a helper that answers or raises. *)
Definition lift2 {A : Type} (r : exn + A) : M2 A := fun w => (w, r).

Definition invoke2 (c : Client2.call) : M2 (Client2.resp c) :=
  fun w => let '(s', r) := storage2 c (fst w) in ((s', snd w ++ [c]), r).

Definition subscript2 {V : Type} (d : gmap string V) (k : string) : M2 V :=
  match d !! k with
  | Some v => ret2 v
  | None => raise2 (KeyError k)
  end.
End Monad2.

Notation "x <~ m ;; k" := (bind2 m (fun x => k))
  (at level 100, m at next level, k at level 200, right associativity,
   only parsing).

(** [for x in l: acc = body(x, acc)]. *)
Fixpoint for_acc2 `{Env2} {A B : Type} (l : list A) (acc : B)
    (body : A -> B -> M2 B) : M2 B :=
  match l with
  | [] => ret2 acc
  | x :: l' => acc' <~ body x acc ;; for_acc2 l' acc' body
  end.

(** [sorted(d.items())]: the items by increasing key (the keys of a
    dictionary are distinct, so that the values are never compared). *)
Definition sorted_items {V : Type} (d : gmap string V)
    : list (string * V) :=
  sorting.merge_sort (fun x y => String.le x.1 y.1) (map_to_list d).

(** [zip] applied to the unpacked items: nothing at all for no item, and
    else the tuple of the keys and the tuple of the values. *)
Definition zip_star {V : Type} (items : list (string * V))
    : option (list string * list V) :=
  match items with
  | [] => None
  | _ => Some (items.*1, items.*2)
  end.

(** [d.get(k, default)] on a dictionary of strings. *)
Definition get_or (d : gmap string string) (k : string) (dflt : value)
    : value :=
  match d !! k with
  | Some s => Scalar (PyStr s)
  | None => dflt
  end.

(** [str(b)] for a [bool]. *)
Definition str_of_bool (b : bool) : string := if b then "True" else "False".

(** [s.split(',')]. *)
Fixpoint split_comma (s : string) : list string :=
  match s with
  | EmptyString => [""]
  | String c rest =>
      if String.eqb (String c "") "," then "" :: split_comma rest
      else match split_comma rest with
           | x :: xs => String c x :: xs
           | [] => [String c ""]
           end
  end.

(** [sep.join(l)]. *)
Definition join (sep : string) (l : list string) : string :=
  String.concat sep l.

(** [int(v)] on the values a counter of [show] may be: the string of the
    system properties or the integer default. *)
Definition int_of_value `{Env2} (v : value) : M2 Z :=
  match v with
  | Scalar (PyStr s) =>
      match int s with
      | Some n => ret2 n
      | None => raise2 (ValueError s)
      end
  | Scalar (PyInt n) => ret2 n
  | Scalar (PyBool b) => ret2 (int_of_bool b)
  | Scalar PyNone =>
      raise2 (TypeError "int() argument must be a string or a number")
  | Float f => lift2 (int_of_float f)
  end.

(** ** ShowContainer *)
Module ShowContainer.

Record args : Type := Args {
  target : ContainerCommandMixin.ns;
  formatter : string;
}.

Section with_env.
Context `{Env2}.

(** Lines 462-463: [for k, v in iteritems(data['properties']):
    info['meta.' + k] = v]. *)
Definition add_meta (properties : gmap string string)
    (info : gmap string value) : gmap string value :=
  fold_left (fun info kv => <["meta." +:+ kv.1 := Scalar (PyStr kv.2)]> info)
    (map_to_list properties) info.

(** Lines 429-439: the creation time and the two counters that the table
    formatter converts. *)
Definition shown_counters (formatter : string) (sys : gmap string string)
    : M2 (value * value * value) :=
  ctime_s <~ subscript2 sys M2_PROP_CTIME ;;
  ctime_f <~ match float_of_string ctime_s with
             | Some f => ret2 f
             | None => raise2 (ValueError ctime_s)
             end ;;
  let ctime := micro_to_seconds ctime_f in
  let bytes_usage := get_or sys M2_PROP_USAGE (Scalar (PyInt 0)) in
  let objects := get_or sys M2_PROP_OBJECTS (Scalar (PyInt 0)) in
  if String.eqb formatter "table" then
    ctime_i <~ lift2 (int_of_float ctime) ;;
    usage_i <~ int_of_value bytes_usage ;;
    usage_s <~ lift2 (convert_size (Scalar (PyInt usage_i)) (Some "B")) ;;
    objects_i <~ int_of_value objects ;;
    objects_s <~ lift2 (convert_size (Scalar (PyInt objects_i)) None) ;;
    ret2 (Scalar (PyInt ctime_i), Scalar (PyStr usage_s),
          Scalar (PyStr objects_s))
  else ret2 (Float ctime, bytes_usage, objects).

(** Lines 440-455: the dictionary literal, once its three subscripts have
    been evaluated. *)
Definition info_literal (sys : gmap string string)
    (shown : value * value * value) (account base_name container : string)
    : gmap string value :=
  let '(ctime, bytes_usage, objects) := shown in
  <["status" :=
      Scalar (PyStr (default "Unknown"
                       (OIO_DB_STATUS_NAME (sys !! "sys.status"))))]>
  (<["max_versions" :=
       get_or sys M2_PROP_VERSIONING_POLICY
         (Scalar (PyStr "Namespace default"))]>
  (<["storage_policy" :=
       get_or sys M2_PROP_STORAGE_POLICY
         (Scalar (PyStr "Namespace default"))]>
  (<["missing_chunks" :=
       get_or sys M2_PROP_MISSING_CHUNKS (Scalar (PyInt 0))]>
  (<["damaged_objects" :=
       get_or sys M2_PROP_DAMAGED_OBJECTS (Scalar (PyInt 0))]>
  (<["objects" := objects]>
  (<["quota" :=
       get_or sys M2_PROP_QUOTA (Scalar (PyStr "Namespace default"))]>
  (<["bytes_usage" := bytes_usage]>
  (<["ctime" := ctime]>
  (<["container" := Scalar (PyStr container)]>
  (<["base_name" := Scalar (PyStr base_name)]>
  (<["account" := Scalar (PyStr account)]> ∅))))))))))).

(** Lines 456-461: the two keys that are shown only when the system
    properties have them. *)
Definition optional_keys (sys : gmap string string)
    (info : gmap string value) : gmap string value :=
  let info :=
    match sys !! M2_PROP_BUCKET_NAME with
    | Some bucket => <["bucket" := Scalar (PyStr bucket)]> info
    | None => info
    end in
  match sys !! M2_PROP_DEL_EXC_VERSIONS with
  | Some delete_exceeding =>
      <["delete_exceeding_versions" :=
          Scalar (PyBool (negb (String.eqb delete_exceeding "0")))]> info
  | None => info
  end.

(** Lines 428-463: the dictionary [info]. *)
Definition info_of (formatter : string)
    (data : gmap string (gmap string string)) : M2 (gmap string value) :=
  sys <~ subscript2 data "system" ;;
  shown <~ shown_counters formatter sys ;;
  account <~ subscript2 sys "sys.account" ;;
  base_name <~ subscript2 sys "sys.name" ;;
  container <~ subscript2 sys "sys.user.name" ;;
  let info := info_literal sys shown account base_name container in
  let info := optional_keys sys info in
  properties <~ subscript2 data "properties" ;;
  ret2 (add_meta properties info).

Definition take_action (parsed_args : args)
    : M2 (option (list string * list value)) :=
  let tgt :=
    ContainerCommandMixin.take_action_container (target parsed_args) in
  data <~ invoke2 (Client2.container_get_properties account
                     (ContainerCommandMixin.container tgt)
                     (ContainerCommandMixin.cid tgt)) ;;
  info <~ info_of (formatter parsed_args) data ;;
  ret2 (zip_star (sorted_items info)).
End with_env.

End ShowContainer.

(** ** LocateContainer *)
Module LocateContainer.

Record args : Type := Args {
  target : ContainerCommandMixin.ns;
}.

Section with_env.
Context `{Env2}.

(** Lines 796-798: the hosts of the services of type meta2. *)
Definition meta2_of (srv : list (gmap string string)) : M2 (list string) :=
  for_acc2 srv [] (fun d meta2 =>
    type <~ subscript2 d "type" ;;
    if String.eqb type "meta2" then
      host <~ subscript2 d "host" ;; ret2 (meta2 ++ [host])
    else ret2 meta2).

(** Lines 803-807: the hosts of the directory services of type meta0 and
    of type meta1. *)
Definition meta0_meta1_of (dir : list (gmap string string))
    : M2 (list string * list string) :=
  for_acc2 dir ([], []) (fun d acc =>
    type <~ subscript2 d "type" ;;
    meta0 <~ (if String.eqb type "meta0" then
                host <~ subscript2 d "host" ;; ret2 (acc.1 ++ [host])
              else ret2 acc.1) ;;
    type <~ subscript2 d "type" ;;
    meta1 <~ (if String.eqb type "meta1" then
                host <~ subscript2 d "host" ;; ret2 (acc.2 ++ [host])
              else ret2 acc.2) ;;
    ret2 (meta0, meta1)).

Definition take_action (parsed_args : args)
    : M2 (option (list string * list string)) :=
  let tgt :=
    ContainerCommandMixin.take_action_container (target parsed_args) in
  let container := ContainerCommandMixin.container tgt in
  let cid := ContainerCommandMixin.cid tgt in
  data <~ invoke2 (Client2.container_get_properties account container cid) ;;
  m2_sys <~ subscript2 data "system" ;;
  data_dir <~ invoke2 (Client2.directory_list account container cid) ;;
  account <~ subscript2 m2_sys "sys.account" ;;
  base_name <~ subscript2 m2_sys "sys.name" ;;
  name <~ subscript2 m2_sys "sys.user.name" ;;
  let status :=
    default "Unknown" (OIO_DB_STATUS_NAME (m2_sys !! "sys.status")) in
  srv <~ subscript2 data_dir "srv" ;;
  meta2 <~ meta2_of srv ;;
  let peers := [] ++ split_comma (default "Unknown" (m2_sys !! "sys.peers")) in
  dir <~ subscript2 data_dir "dir" ;;
  meta01 <~ meta0_meta1_of dir ;;
  let info : gmap string string :=
    <["meta2.sys.peers" := join ", " peers]>
    (<["meta2" := join ", " meta2]>
    (<["meta1" := join ", " meta01.2]>
    (<["meta0" := join ", " meta01.1]>
    (<["status" := status]>
    (<["name" := name]>
    (<["base_name" := base_name]>
    (<["account" := account]> ∅))))))) in
  ret2 (zip_star (sorted_items info)).
End with_env.

End LocateContainer.

(** ** ShowBucket, SetBucket, RefreshBucket *)

(** Lines 211-215 and 396-400: what the table formatter makes of the
    answer. *)
Definition bucket_table `{Env2} (data : gmap string value)
    : M2 (gmap string value) :=
  bytes <~ subscript2 data "bytes" ;;
  bytes_s <~ lift2 (convert_size bytes None) ;;
  let data := <["bytes" := Scalar (PyStr bytes_s)]> data in
  mtime_s <~ lift2 (Timestamp_isoformat (default (Float 0) (data !! "mtime"))) ;;
  ret2 (<["mtime" := Scalar (PyStr mtime_s)]> data).

Module ShowBucket.

Record args : Type := Args {
  bucket : string;
  formatter : string;
}.

Section with_env.
Context `{Env2}.

Definition take_action (parsed_args : args)
    : M2 (option (list string * list value)) :=
  let reqid := request_id "CLI-BUCKET-" in
  data <~ invoke2 (Client2.bucket_show (bucket parsed_args) reqid) ;;
  data <~ (if String.eqb (formatter parsed_args) "table"
           then bucket_table data else ret2 data) ;;
  ret2 (zip_star (sorted_items data)).
End with_env.

End ShowBucket.

Module SetBucket.

Record args : Type := Args {
  bucket : string;
  replicate : option bool;
  formatter : string;
}.

Section with_env.
Context `{Env2}.

Definition metadata_of (parsed_args : args) : gmap string string :=
  let metadata : gmap string string := ∅ in
  set_if_given BUCKET_PROP_REPLI_ENABLED str_of_bool
    (replicate parsed_args) metadata.

Definition take_action (parsed_args : args)
    : M2 (option (list string * list value)) :=
  let reqid := request_id "CLI-BUCKET-" in
  let metadata := metadata_of parsed_args in
  data <~ invoke2 (Client2.bucket_update (bucket parsed_args) metadata None
                     reqid) ;;
  data <~ (if String.eqb (formatter parsed_args) "table"
           then bucket_table data else ret2 data) ;;
  ret2 (zip_star (sorted_items data)).
End with_env.

End SetBucket.

Module RefreshBucket.

Record args : Type := Args {
  bucket : string;
}.

Section with_env.
Context `{Env2}.

Definition take_action (parsed_args : args) : M2 unit :=
  let reqid := request_id "CLI-BUCKET-" in
  invoke2 (Client2.bucket_refresh (bucket parsed_args) reqid).
End with_env.

End RefreshBucket.

(** A list of keys in strictly increasing order. *)
Definition increasing (keys : list string) : Prop :=
  Sorted.StronglySorted (fun a b => String.le a b ∧ a ≠ b) keys.

(** What a command that returns [zip] of the sorted items of a dictionary
    [d] returns: nothing for the empty dictionary, and else the keys in
    increasing order with the values under them, from which [d] can be read
    back. *)
Definition prints {V : Type} (out : option (list string * list V))
    (d : gmap string V) : Prop :=
  match out with
  | None => d = ∅
  | Some (keys, values) =>
      d ≠ ∅
      ∧ length keys = length values
      ∧ increasing keys
      ∧ list_to_map (zip keys values) = d
  end.

(** The hosts of the services of one type, in the order of the listing. *)
Definition hosts_of (type : string) (l : list (gmap string string))
    : list string :=
  omap (fun d => if decide (d !! "type" = Some type) then d !! "host"
                 else None) l.

(** A recording client for these commands: it answers the same system and
    user properties, directory and bucket whatever it is asked. *)
Module Fake2.

Definition status_name (x : option string) : option string :=
  match x with
  | Some "0" => Some "Enabled"
  | Some "4294967294" => Some "Disabled"
  | Some "4294967295" => Some "Frozen"
  | _ => None
  end.

Definition answer (system properties : gmap string string)
    (directory : gmap string (list (gmap string string)))
    (bucket : gmap string value) (c : Client2.call)
    : Fake.backend -> Fake.backend * (exn + Client2.resp c) :=
  match c as c0
        return Fake.backend -> Fake.backend * (exn + Client2.resp c0) with
  | Client2.container_get_properties _ _ _ =>
      fun b => (b, inr (<["properties" := properties]>
                          (<["system" := system]> ∅)))
  | Client2.directory_list _ _ _ => fun b => (b, inr directory)
  | Client2.bucket_show _ _ => fun b => (b, inr bucket)
  | Client2.bucket_update _ metadata _ _ =>
      fun b => (b, inr (((fun s => Scalar (PyStr s)) <$> metadata) ∪ bucket))
  | Client2.bucket_refresh _ _ => fun b => (b, inr tt)
  end.

Definition size (v : value) (unit : option string) : exn + string :=
  match v with
  | Scalar (PyInt n) => inr (str n +:+ default "" unit)
  | _ => inl (TypeError "not a number")
  end.

Definition isoformat (v : value) : exn + string :=
  match v with
  | Float f => inr ("T" +:+ str f)
  | Scalar (PyInt n) => inr ("T" +:+ str n)
  | _ => inl (TypeError "not a number")
  end.

Definition env (system properties : gmap string string)
    (directory : gmap string (list (gmap string string)))
    (bucket : gmap string value) : Env2 :=
  {| env2_env := Fake.env;
     BUCKET_PROP_REPLI_ENABLED := "replication_enabled";
     M2_PROP_CTIME := "sys.m2.ctime";
     M2_PROP_USAGE := "sys.m2.usage";
     M2_PROP_OBJECTS := "sys.m2.objects";
     M2_PROP_DAMAGED_OBJECTS := "sys.m2.objects.damaged";
     M2_PROP_MISSING_CHUNKS := "sys.m2.chunks.missing";
     OIO_DB_STATUS_NAME := status_name;
     storage2 := answer system properties directory bucket;
     convert_size := size;
     Timestamp_isoformat := isoformat;
     float_of_string := Fake.parse_int;
     micro_to_seconds := fun f => f / 1000000;
     int_of_float := fun f => inr f |}.

End Fake2.

(** The keys [container show] fills from the system properties. *)
Definition show_keys : list string :=
  ["account"; "base_name"; "container"; "ctime"; "bytes_usage"; "quota";
   "objects"; "damaged_objects"; "missing_chunks"; "storage_policy";
   "max_versions"; "status"; "bucket"; "delete_exceeding_versions"].

(** An entry of a directory listing that the loops of [container locate]
    read without an error: it has a type, and a host when the type is one
    of those collected. *)
Definition locatable (types : list string) (d : gmap string string) : Prop :=
  ∃ t, d !! "type" = Some t ∧ (t ∈ types -> is_Some (d !! "host")).

(** The columns of [container locate]. *)
Definition locate_keys : list string :=
  ["account"; "base_name"; "meta0"; "meta1"; "meta2"; "meta2.sys.peers";
   "name"; "status"].

(** * Theorems *)

(** ** The monad *)

Lemma invoke_eq `{Env} (c : call) (s : St) (log : list call) :
  invoke c (s, log) = (let '(s', r) := storage c s in ((s', log ++ [c]), r)).
Proof. reflexivity. Qed.

Lemma invoke_ok `{Env} (c : call) (s s' : St) (r : resp c) (log : list call) :
  storage c s = (s', inr r) -> invoke c (s, log) = ((s', log ++ [c]), inr r).
Proof. intros E. rewrite invoke_eq, E. reflexivity. Qed.

Lemma invoke_raises `{Env} (c : call) (s s' : St) (e : exn) (log : list call) :
  storage c s = (s', inl e) -> invoke c (s, log) = ((s', log ++ [c]), inl e).
Proof. intros E. rewrite invoke_eq, E. reflexivity. Qed.

(** ** The system map of [create] and [set] *)

Lemma distinct_keys_ne `{Env} :
  distinct_keys ->
  M2_PROP_BUCKET_NAME ≠ M2_PROP_QUOTA ∧
  M2_PROP_BUCKET_NAME ≠ M2_PROP_STORAGE_POLICY ∧
  M2_PROP_BUCKET_NAME ≠ M2_PROP_VERSIONING_POLICY ∧
  M2_PROP_BUCKET_NAME ≠ M2_PROP_DEL_EXC_VERSIONS ∧
  M2_PROP_BUCKET_NAME ≠ "sys.status" ∧
  M2_PROP_QUOTA ≠ M2_PROP_STORAGE_POLICY ∧
  M2_PROP_QUOTA ≠ M2_PROP_VERSIONING_POLICY ∧
  M2_PROP_QUOTA ≠ M2_PROP_DEL_EXC_VERSIONS ∧
  M2_PROP_QUOTA ≠ "sys.status" ∧
  M2_PROP_STORAGE_POLICY ≠ M2_PROP_VERSIONING_POLICY ∧
  M2_PROP_STORAGE_POLICY ≠ M2_PROP_DEL_EXC_VERSIONS ∧
  M2_PROP_STORAGE_POLICY ≠ "sys.status" ∧
  M2_PROP_VERSIONING_POLICY ≠ M2_PROP_DEL_EXC_VERSIONS ∧
  M2_PROP_VERSIONING_POLICY ≠ "sys.status" ∧
  M2_PROP_DEL_EXC_VERSIONS ≠ "sys.status".
Proof.
  unfold distinct_keys. intros D.
  repeat match goal with
         | D : NoDup (_ :: _) |- _ => apply NoDup_cons in D as [? D]
         end.
  repeat match goal with
         | N : _ ∉ _ :: _ |- _ => apply not_elem_of_cons in N as [? N]
         end.
  repeat split; assumption.
Qed.

(** [set] builds the map of [create] and then looks the status up. *)
Lemma set_system_of_eq `{Env} (a : SetContainer.args) (w : world) :
  SetContainer.system_of a w =
  match SetContainer.status a with
  | None => (w, inr (CreateContainer.system_of (as_create a)))
  | Some st =>
      match SetContainer.status_value !! st with
      | Some v =>
          (w, inr (<["sys.status" := v]>
                     (CreateContainer.system_of (as_create a))))
      | None => (w, inl (KeyError st))
      end
  end.
Proof.
  unfold SetContainer.system_of, CreateContainer.system_of, as_create; simpl.
  destruct (SetContainer.status a) as [st|]; [|reflexivity].
  unfold bind, subscript.
  destruct (SetContainer.status_value !! st); reflexivity.
Qed.

Lemma status_value_lookup `{Env} (st : string) :
  SetContainer.status_value !! st =
  if decide (st = "frozen") then Some (str OIO_DB_FROZEN)
  else if decide (st = "disabled") then Some (str OIO_DB_DISABLED)
  else if decide (st = "enabled") then Some (str OIO_DB_ENABLED)
  else None.
Proof.
  unfold SetContainer.status_value.
  repeat case_decide; subst; simplify_map_eq; reflexivity.
Qed.

(** What the map of [create] binds, key by key. *)
Lemma create_system_lookup `{Env} (a : CreateContainer.args) :
  distinct_keys ->
  let system := CreateContainer.system_of a in
  system !! M2_PROP_BUCKET_NAME =
    (if truthy (CreateContainer.bucket_name a)
     then CreateContainer.bucket_name a else None) ∧
  system !! M2_PROP_QUOTA = str <$> CreateContainer.quota a ∧
  system !! M2_PROP_STORAGE_POLICY = CreateContainer.storage_policy a ∧
  system !! M2_PROP_VERSIONING_POLICY = str <$> CreateContainer.max_versions a ∧
  system !! M2_PROP_DEL_EXC_VERSIONS =
    (fun b => str (int_of_bool b)) <$>
      CreateContainer.delete_exceeding_versions a ∧
  system !! "sys.status" = None.
Proof.
  intros D. apply distinct_keys_ne in D.
  destruct D as (?&?&?&?&?&?&?&?&?&?&?&?&?&?&?).
  destruct a as [p q sp mv dev bn cs]; simpl.
  unfold CreateContainer.system_of, set_if_given, set_if_truthy, truthy; simpl.
  destruct bn as [b|]; [destruct (String.eqb b "")|];
    destruct q, sp, mv, dev; simpl; simplify_map_eq; repeat split; reflexivity.
Qed.

(** The calls [container create] has made when it returns or raises,
    whatever the client answers. *)
Lemma create_log `{Env} (a : CreateContainer.args) (w : world) :
  snd (fst (CreateContainer.take_action a w)) =
    snd w ++ create_calls a (CreateContainer.system_of a).
Proof.
  destruct w as [s log].
  unfold CreateContainer.take_action, create_calls.
  destruct (CreateContainer.containers a) as [|x [|y l]].
  - simpl. rewrite app_nil_r. reflexivity.
  - simpl. unfold bind. rewrite invoke_eq.
    destruct (storage _ s) as [s' [e|ok]]; reflexivity.
  - change (1 <? length (x :: y :: l))%nat with true. cbv iota.
    unfold bind. rewrite invoke_eq.
    destruct (storage _ s) as [s' [e|r]]; reflexivity.
Qed.

(** ** C1: identifier resolution *)

(** C1.  The method [take_action_container] that every single-container
    command (set, flush, show, locate, purge, refresh, snapshot, save, unset)
    runs first turns the pair (container, is_cid) of the command line into
    a pair (name, cid): with [--cid] it is (None, the given string), without
    it (the given string, None); so exactly one of the two is not None. *)
Theorem take_action_container_resolves (given : string) (flag : bool) :
  let a := ContainerCommandMixin.take_action_container
             (ContainerCommandMixin.parsed given flag) in
  (ContainerCommandMixin.container a, ContainerCommandMixin.cid a) =
    (if flag then (None, Some given) else (Some given, None))
  ∧ ((ContainerCommandMixin.container a ≠ None
      ∧ ContainerCommandMixin.cid a = None)
     ∨ (ContainerCommandMixin.container a = None
        ∧ ContainerCommandMixin.cid a ≠ None)).
Proof.
  destruct flag; simpl; split; try reflexivity.
  - right. split; [reflexivity | discriminate].
  - left. split; [discriminate | reflexivity].
Qed.

(** The resolved pair is what the commands hand to the client: [purge]
    passes it as it is; [flush] and [refresh] pass the name, or what
    [resolve_cid] answers for the CID. *)
Lemma purge_passes_resolved_pair `{Env} (given : string) (flag : bool)
    (maxvers : option Z) (w : world) :
  PurgeContainer.take_action
    {| PurgeContainer.target := ContainerCommandMixin.parsed given flag;
       PurgeContainer.max_versions := maxvers |} w =
  invoke (container_purge account
            (if flag then None else Some given) maxvers
            (if flag then Some given else None)) w.
Proof. destruct flag; reflexivity. Qed.

Lemma flush_by_name `{Env} (given : string) (quick : bool) (w : world) :
  FlushContainer.take_action
    {| FlushContainer.target := ContainerCommandMixin.parsed given false;
       FlushContainer.quick := quick |} w =
  invoke (container_flush account (Some given) quick) w.
Proof.
  unfold FlushContainer.take_action, bind. simpl.
  destruct (invoke _ w) as [w' [e|[]]]; reflexivity.
Qed.

Lemma flush_by_cid `{Env} (given : string) (quick : bool) (s s1 : St)
    (acct name : string) (log : list call) :
  storage (resolve_cid given) s = (s1, inr (acct, name)) ->
  FlushContainer.take_action
    {| FlushContainer.target := ContainerCommandMixin.parsed given true;
       FlushContainer.quick := quick |} (s, log) =
  invoke (container_flush acct (Some name) quick)
    (s1, log ++ [resolve_cid given]).
Proof.
  intros R. unfold FlushContainer.take_action. simpl.
  unfold bind at 1. unfold bind at 1. rewrite (invoke_ok _ _ _ _ _ R).
  cbn [ret fst snd].
  destruct (invoke _ _) as [w' [e|[]]]; reflexivity.
Qed.

Lemma refresh_by_cid `{Env} (given : string) (s s1 : St)
    (acct name : string) (log : list call) :
  storage (resolve_cid given) s = (s1, inr (acct, name)) ->
  RefreshContainer.take_action
    {| RefreshContainer.target := ContainerCommandMixin.parsed given true |}
    (s, log) =
  invoke (container_refresh acct (Some name)) (s1, log ++ [resolve_cid given]).
Proof.
  intros R. unfold RefreshContainer.take_action. simpl.
  unfold bind at 1. unfold bind at 1. rewrite (invoke_ok _ _ _ _ _ R).
  cbn [ret fst snd].
  destruct (invoke _ _) as [w' [e|[]]]; reflexivity.
Qed.

(** ** C2: the status of [container set] *)

(** C2, as the specification states it, fails: with [--status bogus] the
    command does stop before any client call, but the exception is the
    KeyError of the dictionary subscript, whose text is the quoted value and
    says nothing of an invalid status. *)
Lemma set_status_bogus_is_KeyError :
  let a := {| SetContainer.target := ContainerCommandMixin.parsed "c" false;
              SetContainer.property := None;
              SetContainer.quota := None;
              SetContainer.storage_policy := None;
              SetContainer.max_versions := None;
              SetContainer.delete_exceeding_versions := None;
              SetContainer.bucket_name := None;
              SetContainer.clear := false;
              SetContainer.status := Some "bogus" |} in
  let r := SetContainer.take_action (H := Fake.env) a
             (Fake.holding ["c"], []) in
  snd r = inl (KeyError "bogus")
  ∧ exn_message (KeyError "bogus") = "'bogus'"
  ∧ ¬ (∃ e, snd r = inl e ∧ invalid_status_error e).
Proof.
  simpl. split; [reflexivity|]. split; [reflexivity|].
  intros (e & He & Hm). vm_compute in He. injection He as <-.
  vm_compute in Hm. discriminate Hm.
Qed.

(** C2, amended.  When the value of [--status] is none of enabled, disabled
    and frozen, [container set] raises the KeyError of the subscript of the
    status table, carrying the value, and leaves the world as it was: no
    call has reached the storage client.  For the three values, the system
    map passed to [container_set_properties] binds ['sys.status'] to the
    decimal string of the matching backend code. *)
Theorem set_status_lookup `{Env} (a : SetContainer.args) (st : string)
    (w : world) :
  SetContainer.status a = Some st ->
  (st ∉ ["enabled"; "disabled"; "frozen"] ->
   SetContainer.take_action a w = (w, inl (KeyError st)))
  ∧ (∀ code,
       (st, code) ∈ [("enabled", OIO_DB_ENABLED);
                     ("disabled", OIO_DB_DISABLED);
                     ("frozen", OIO_DB_FROZEN)] ->
       ∃ system,
         system !! "sys.status" = Some (str code)
         ∧ SetContainer.take_action a w =
           invoke (container_set_properties account
                     (ContainerCommandMixin.container
                        (ContainerCommandMixin.take_action_container
                           (SetContainer.target a)))
                     (SetContainer.property a)
                     (Some (SetContainer.clear a))
                     system
                     (ContainerCommandMixin.cid
                        (ContainerCommandMixin.take_action_container
                           (SetContainer.target a)))) w).
Proof.
  intros Hst. unfold SetContainer.take_action, bind.
  rewrite set_system_of_eq, Hst, status_value_lookup. split.
  - intros Hnot.
    repeat case_decide; subst; try reflexivity; exfalso; apply Hnot;
      set_solver.
  - intros code Hin.
    assert (Hc : (st = "enabled" ∧ code = OIO_DB_ENABLED)
                 ∨ (st = "disabled" ∧ code = OIO_DB_DISABLED)
                 ∨ (st = "frozen" ∧ code = OIO_DB_FROZEN)).
    { apply list_elem_of_In in Hin. simpl in Hin.
      destruct Hin as [Hin|[Hin|[Hin|[]]]]; injection Hin as <- <-; auto. }
    destruct Hc as [[-> ->]|[[-> ->]|[-> ->]]]; simpl;
      eexists; (split; [apply lookup_insert_eq | reflexivity]).
Qed.

Lemma set_status_lookup_witness :
  let a st := {| SetContainer.target := ContainerCommandMixin.parsed "c" false;
                 SetContainer.property := None;
                 SetContainer.quota := None;
                 SetContainer.storage_policy := None;
                 SetContainer.max_versions := None;
                 SetContainer.delete_exceeding_versions := None;
                 SetContainer.bucket_name := None;
                 SetContainer.clear := false;
                 SetContainer.status := Some st |} in
  let w : world (H := Fake.env) := (Fake.holding ["c"], []) in
  SetContainer.take_action (a "bogus") w = (w, inl (KeyError "bogus"))
  ∧ ∃ system,
      system !! "sys.status" = Some "4294967295"
      ∧ snd (fst (SetContainer.take_action (a "frozen") w)) =
        [container_set_properties "myaccount" (Some "c") None (Some false)
           system None].
Proof.
  intros a w. split.
  - apply (set_status_lookup (H := Fake.env) (a "bogus") "bogus" w eq_refl).
    intros Hin. apply list_elem_of_In in Hin. simpl in Hin.
    destruct Hin as [Hin|[Hin|[Hin|[]]]]; discriminate Hin.
  - destruct (proj2 (set_status_lookup (H := Fake.env) (a "frozen") "frozen"
                       w eq_refl)
                4294967295) as (system & Hs & Hrun).
    + apply list_elem_of_In. simpl. auto.
    + exists system. split; [exact Hs|]. rewrite Hrun. reflexivity.
Defined.


Lemma status_value_None `{Env} (st : string) :
  SetContainer.status_value !! st = None <->
  st ∉ ["enabled"; "disabled"; "frozen"].
Proof.
  rewrite status_value_lookup. split.
  - intros E Hin. apply list_elem_of_In in Hin. simpl in Hin.
    destruct Hin as [<-|[<-|[<-|[]]]]; simpl in E; discriminate E.
  - intros Hnot.
    repeat case_decide; subst; try reflexivity; exfalso; apply Hnot;
      set_solver.
Qed.

(** [container set] either stops on the status or calls the client once,
    with a map that agrees with the map of [create] on every key but
    ['sys.status']. *)
Lemma set_outcome_total `{Env} (a : SetContainer.args) (w : world) :
  ∃ o, set_outcome a w o
       ∧ ∀ system, o = Some system ->
           ∀ k, k ≠ "sys.status" ->
             system !! k = CreateContainer.system_of (as_create a) !! k.
Proof.
  pose proof (set_system_of_eq a w) as E.
  destruct (SetContainer.status a) as [st|] eqn:Hst.
  - destruct (SetContainer.status_value !! st) as [v|] eqn:Hv.
    + eexists (Some _). split.
      * apply set_calls; [exact E|].
        unfold SetContainer.take_action, bind. rewrite E. reflexivity.
      * intros system [= <-] k Hk.
        rewrite lookup_insert_ne by congruence. reflexivity.
    + exists None. split; [|discriminate].
      apply (set_stops a w st Hst); [apply status_value_None, Hv|].
      unfold SetContainer.take_action, bind. rewrite E. reflexivity.
  - eexists (Some _). split.
    + apply set_calls; [exact E|].
      unfold SetContainer.take_action, bind. rewrite E. reflexivity.
    + intros system [= <-] k _. reflexivity.
Qed.

Lemma fake_distinct_keys : distinct_keys (H := Fake.env).
Proof. apply (bool_decide_unpack _). vm_compute. exact I. Defined.

(** [str] on the integers the help of [--max-versions] singles out. *)
Example str_examples :
  str (-1) = "-1" ∧ str 0 = "0" ∧ str 1 = "1" ∧ str 5 = "5".
Proof. repeat split. Qed.

(** ** C7: the versioning policy is the decimal string of [--max-versions] *)

(** C7.  [container create] passes its system map to the client, in the
    [container_create] call (one name) or the [container_create_many] call
    (several names), and this map binds the versioning-policy key to
    [str(n)] when [--max-versions n] is given and leaves the key out when
    the flag is absent (both are the equation
    [system !! key = str <$> max_versions]).  For [container set] the map is
    the one passed to [container_set_properties], whenever the command
    reaches the client. *)
Theorem max_versions_verbatim `{Env} (c : CreateContainer.args)
    (a : SetContainer.args) (w : world) :
  distinct_keys ->
  (snd (fst (CreateContainer.take_action c w)) =
     snd w ++ create_calls c (CreateContainer.system_of c)
   ∧ CreateContainer.system_of c !! M2_PROP_VERSIONING_POLICY =
     str <$> CreateContainer.max_versions c)
  ∧ ∃ o, set_outcome a w o
         ∧ ∀ system, o = Some system ->
             system !! M2_PROP_VERSIONING_POLICY =
               str <$> SetContainer.max_versions a.
Proof.
  intros D. split.
  - split; [apply create_log | apply (create_system_lookup c D)].
  - destruct (set_outcome_total a w) as (o & Ho & Hk).
    exists o. split; [exact Ho|].
    intros system -> .
    rewrite (Hk system eq_refl).
    + apply (create_system_lookup (as_create a) D).
    + apply distinct_keys_ne in D. tauto.
Qed.

Lemma max_versions_verbatim_witness :
  let c := {| CreateContainer.property := None;
              CreateContainer.quota := Some 1024;
              CreateContainer.storage_policy := None;
              CreateContainer.max_versions := Some 5;
              CreateContainer.delete_exceeding_versions := Some true;
              CreateContainer.bucket_name := None;
              CreateContainer.containers := ["photos"] |} in
  let a := {| SetContainer.target := ContainerCommandMixin.parsed "c" false;
              SetContainer.property := None;
              SetContainer.quota := None;
              SetContainer.storage_policy := None;
              SetContainer.max_versions := Some (-1);
              SetContainer.delete_exceeding_versions := None;
              SetContainer.bucket_name := None;
              SetContainer.clear := false;
              SetContainer.status := Some "enabled" |} in
  let w : world (H := Fake.env) := (Fake.holding ["c"], []) in
  distinct_keys (H := Fake.env)
  ∧ (snd (fst (CreateContainer.take_action (H := Fake.env) c w)) =
       [container_create "myaccount" "photos" None
          (CreateContainer.system_of (H := Fake.env) c)]
     ∧ CreateContainer.system_of (H := Fake.env) c !! "sys.m2.policy.version"
       = Some "5")
  ∧ ∃ o, set_outcome a w o
         ∧ ∀ system, o = Some system ->
             system !! "sys.m2.policy.version" = Some "-1".
Proof.
  intros c a w. split; [exact fake_distinct_keys|].
  exact (max_versions_verbatim (H := Fake.env) c a w fake_distinct_keys).
Defined.

(** ** C10: an empty [--bucket-name] counts as no bucket name *)

(** C10.  In [container create] and [container set], [--bucket-name '']
    is treated as no [--bucket-name] at all: the system map is the same and
    the command does the same, and the map passed to the client has no
    bucket-name key whenever the name is absent or empty.  [--quota],
    [--storage-policy], [--max-versions] and [--delete-exceeding-versions]
    are bound in the map of the client call as soon as they are given (an
    empty storage policy is bound to the empty string).  Hence the
    bucket-name key is never bound to the empty string in a call of these
    two commands.  For [create] the call is [container_create] or
    [container_create_many]; for [set] it is [container_set_properties],
    whenever the command reaches the client. *)
Theorem empty_bucket_name_is_absent `{Env} (c : CreateContainer.args)
    (a : SetContainer.args) (w : world) :
  distinct_keys ->
  (CreateContainer.system_of (create_with_bucket_name (Some "") c) =
     CreateContainer.system_of (create_with_bucket_name None c)
   ∧ SetContainer.system_of (set_with_bucket_name (Some "") a) w =
     SetContainer.system_of (set_with_bucket_name None a) w)
  ∧ (CreateContainer.take_action (create_with_bucket_name (Some "") c) w =
       CreateContainer.take_action (create_with_bucket_name None c) w
     ∧ SetContainer.take_action (set_with_bucket_name (Some "") a) w =
       SetContainer.take_action (set_with_bucket_name None a) w)
  ∧ (let system := CreateContainer.system_of c in
     snd (fst (CreateContainer.take_action c w)) =
       snd w ++ create_calls c system
     ∧ (truthy (CreateContainer.bucket_name c) = false ->
        system !! M2_PROP_BUCKET_NAME = None)
     ∧ system !! M2_PROP_QUOTA = str <$> CreateContainer.quota c
     ∧ system !! M2_PROP_STORAGE_POLICY = CreateContainer.storage_policy c
     ∧ system !! M2_PROP_VERSIONING_POLICY =
         str <$> CreateContainer.max_versions c
     ∧ system !! M2_PROP_DEL_EXC_VERSIONS =
         (fun b => str (int_of_bool b)) <$>
           CreateContainer.delete_exceeding_versions c
     ∧ system !! M2_PROP_BUCKET_NAME ≠ Some "")
  ∧ ∃ o, set_outcome a w o
         ∧ ∀ system, o = Some system ->
             (truthy (SetContainer.bucket_name a) = false ->
              system !! M2_PROP_BUCKET_NAME = None)
             ∧ system !! M2_PROP_QUOTA = str <$> SetContainer.quota a
             ∧ system !! M2_PROP_STORAGE_POLICY = SetContainer.storage_policy a
             ∧ system !! M2_PROP_VERSIONING_POLICY =
                 str <$> SetContainer.max_versions a
             ∧ system !! M2_PROP_DEL_EXC_VERSIONS =
                 (fun b => str (int_of_bool b)) <$>
                   SetContainer.delete_exceeding_versions a
             ∧ system !! M2_PROP_BUCKET_NAME ≠ Some "".
Proof.
  intros D.
  assert (Hbucket : ∀ c' : CreateContainer.args,
             CreateContainer.system_of c' !! M2_PROP_BUCKET_NAME ≠ Some "").
  { intros c'. destruct (create_system_lookup c' D) as (-> & _).
    destruct (CreateContainer.bucket_name c') as [b|]; simpl; [|discriminate].
    destruct (String.eqb b "") eqn:Eb; simpl; [discriminate|].
    intros [= ->]. discriminate Eb. }
  assert (Habsent : ∀ c' : CreateContainer.args,
             truthy (CreateContainer.bucket_name c') = false ->
             CreateContainer.system_of c' !! M2_PROP_BUCKET_NAME = None).
  { intros c' Ht. destruct (create_system_lookup c' D) as (-> & _).
    rewrite Ht. reflexivity. }
  split; [|split; [|split]].
  - split; [reflexivity|].
    rewrite !set_system_of_eq. reflexivity.
  - split; [reflexivity|].
    unfold SetContainer.take_action, bind.
    rewrite !set_system_of_eq. reflexivity.
  - pose proof (create_system_lookup c D) as L. simpl in L.
    destruct L as (_ & Lq & Ls & Lv & Ld & _).
    simpl. split; [apply create_log|]. auto 10.
  - destruct (set_outcome_total a w) as (o & Ho & Hk).
    exists o. split; [exact Ho|].
    intros system ->.
    pose proof (distinct_keys_ne D) as N.
    pose proof (create_system_lookup (as_create a) D) as L. simpl in L.
    destruct L as (_ & Lq & Ls & Lv & Ld & _).
    pose proof (Hbucket (as_create a)) as Hb.
    pose proof (Habsent (as_create a)) as Ha. simpl in Ha.
    rewrite !(Hk system eq_refl) by tauto.
    auto 10.
Qed.

Lemma empty_bucket_name_is_absent_witness :
  let c := {| CreateContainer.property := None;
              CreateContainer.quota := Some 0;
              CreateContainer.storage_policy := Some "";
              CreateContainer.max_versions := None;
              CreateContainer.delete_exceeding_versions := Some false;
              CreateContainer.bucket_name := Some "";
              CreateContainer.containers := ["photos"] |} in
  let a := {| SetContainer.target := ContainerCommandMixin.parsed "c" false;
              SetContainer.property := None;
              SetContainer.quota := None;
              SetContainer.storage_policy := Some "";
              SetContainer.max_versions := None;
              SetContainer.delete_exceeding_versions := None;
              SetContainer.bucket_name := Some "";
              SetContainer.clear := false;
              SetContainer.status := None |} in
  let w : world (H := Fake.env) := (Fake.holding ["c"], []) in
  distinct_keys (H := Fake.env)
  ∧ snd (fst (CreateContainer.take_action (H := Fake.env) c w)) =
    [container_create "myaccount" "photos" None
       (CreateContainer.system_of (H := Fake.env) c)]
  ∧ CreateContainer.system_of (H := Fake.env) c !! "sys.m2.bucket.name" = None
  ∧ CreateContainer.system_of (H := Fake.env) c !! "sys.m2.policy.storage"
    = Some ""
  ∧ CreateContainer.system_of (H := Fake.env) c !! "sys.m2.bucket.name"
    ≠ Some "".
Proof.
  intros c a w. split; [exact fake_distinct_keys|].
  destruct (empty_bucket_name_is_absent (H := Fake.env) c a w
              fake_distinct_keys)
    as (_ & _ & (Hlog & Hnone & _ & Hs & _ & _ & Hb) & _).
  split; [exact Hlog|].
  split; [exact (Hnone eq_refl)|].
  split; [exact Hs | exact Hb].
Defined.


(** ** C3: a batch stops at the first failure *)

Ltac batch_step IH :=
  match goal with
  | A : answered _ (_ <$> _ :: _) _ |- _ =>
      rewrite fmap_cons in A |- *;
      inversion A as [|? ? r ? ? ? Hc Hrest]; subst; clear A;
      cbn [for_each app]; unfold bind at 1;
      match type of Hc with
      | storage ?c _ = _ => rewrite (invoke_ok c _ _ _ _ Hc)
      end;
      rewrite IH by assumption; rewrite <- !app_assoc; reflexivity
  end.

Lemma batch_all_answered `{Env} (cmd : batch) (is_cid : bool)
    (members : list string) (s s1 : St) (log : list call) :
  answered s (batch_call cmd is_cid <$> members) s1 ->
  batch_take_action cmd is_cid members (s, log) =
    ((s1, log ++ (batch_call cmd is_cid <$> members)), inr tt).
Proof.
  revert s log.
  destruct cmd as [recompute|], is_cid;
    unfold batch_take_action, TouchContainer.take_action,
      DeleteContainer.take_action; simpl;
    (induction members as [|x members IH]; intros s log A;
     [ inversion A; subst; simpl; rewrite app_nil_r; reflexivity
     | batch_step IH ]).
Qed.

Lemma batch_first_failure `{Env} (cmd : batch) (is_cid : bool)
    (pre : list string) (k : string) (post : list string)
    (s s1 s2 : St) (e : exn) (log : list call) :
  answered s (batch_call cmd is_cid <$> pre) s1 ->
  storage (batch_call cmd is_cid k) s1 = (s2, inl e) ->
  batch_take_action cmd is_cid (pre ++ k :: post) (s, log) =
    ((s2, log ++ (batch_call cmd is_cid <$> pre) ++ [batch_call cmd is_cid k]),
     inl e).
Proof.
  revert s log.
  destruct cmd as [recompute|], is_cid;
    unfold batch_take_action, TouchContainer.take_action,
      DeleteContainer.take_action; simpl;
    (induction pre as [|x pre IH]; intros s log A F;
     [ inversion A; subst; cbn [for_each app fmap list_fmap];
       unfold bind at 1;
       match type of F with
       | storage ?c _ = _ => rewrite (invoke_raises c _ _ _ _ F)
       end; reflexivity
     | batch_step IH ]).
Qed.

(** C3.  [container touch] and [container delete] over a batch of names or
    of CIDs issue the client operation member by member, in input order.
    When the client answers every member, all the calls are in the log.
    When it raises on a member after answering those before it, the log
    holds the calls of the members up to that one and no call for any later
    member, and the command raises the same exception. *)
Theorem batch_stops_at_first_failure `{Env} (cmd : batch) (is_cid : bool)
    (pre post : list string) (s s1 : St) (log : list call) :
  answered s (batch_call cmd is_cid <$> pre) s1 ->
  (post = [] ->
   batch_take_action cmd is_cid (pre ++ post) (s, log) =
     ((s1, log ++ (batch_call cmd is_cid <$> pre)), inr tt))
  ∧ (∀ k post' s2 e,
       post = k :: post' ->
       storage (batch_call cmd is_cid k) s1 = (s2, inl e) ->
       batch_take_action cmd is_cid (pre ++ post) (s, log) =
         ((s2, log ++ (batch_call cmd is_cid <$> pre)
                 ++ [batch_call cmd is_cid k]),
          inl e)).
Proof.
  intros A. split.
  - intros ->. rewrite app_nil_r. apply batch_all_answered, A.
  - intros k post' s2 e -> F. apply (batch_first_failure _ _ _ _ _ _ s1); auto.
Qed.

Lemma batch_stops_at_first_failure_witness :
  let s := Fake.holding ["a"; "b"; "d"] in
  batch_take_action (H := Fake.env) (Touch true) false ["a"; "b"; "c"; "d"]
    (s, []) =
    ((s, [container_touch "myaccount" (Some "a") true None;
          container_touch "myaccount" (Some "b") true None;
          container_touch "myaccount" (Some "c") true None]),
     inl (NoSuchContainer "c"))
  ∧ snd (batch_take_action (H := Fake.env) Delete true ["a"; "b"] (s, [])) =
    inr tt.
Proof.
  intros s.
  assert (A1 : answered (H := Fake.env) s
                 (batch_call (H := Fake.env) (Touch true) false
                    <$> ["a"; "b"]) s).
  { repeat (eapply (answered_cons (H := Fake.env)); [reflexivity|]).
    apply (answered_nil (H := Fake.env)). }
  assert (A2 : answered (H := Fake.env) s
                 (batch_call (H := Fake.env) Delete true <$> ["a"; "b"])
                 (Fake.holding ["d"])).
  { repeat (eapply (answered_cons (H := Fake.env)); [reflexivity|]).
    apply (answered_nil (H := Fake.env)). }
  split.
  - apply (proj2 (batch_stops_at_first_failure (H := Fake.env) (Touch true)
                    false ["a"; "b"] ["c"; "d"] s s [] A1)
             "c" ["d"] s (NoSuchContainer "c") eq_refl eq_refl).
  - exact (f_equal snd
             (proj1 (batch_stops_at_first_failure (H := Fake.env) Delete true
                       ["a"; "b"] [] s _ [] A2) eq_refl)).
Defined.


(** ** C4: what [container unset] sends *)

Lemma unset_system_empty `{Env} (a : UnsetContainer.args) :
  UnsetContainer.system_of a = ∅ <-> any_reset a = false.
Proof.
  destruct a as [t bn p sp mv q dev].
  unfold UnsetContainer.system_of, any_reset, reset_if; simpl.
  destruct bn, sp, mv, q, dev; simpl; split; intros E;
    try reflexivity; try discriminate E;
    exfalso; revert E; apply insert_non_empty.
Qed.

Lemma unset_system_lookup `{Env} (a : UnsetContainer.args) (k : string) :
  (k, true) ∈ reset_flags a -> UnsetContainer.system_of a !! k = Some "".
Proof.
  intros Hin. apply list_elem_of_In in Hin.
  destruct a as [t bn p sp mv q dev].
  unfold reset_flags, UnsetContainer.system_of, reset_if in *; simpl in *.
  assert (G : ∀ (m : gmap string string) k' (f : bool),
             m !! k = Some "" ∨ (k = k' ∧ f = true) ->
             (if f then <[k' := ""]> m else m) !! k = Some "").
  { intros m k' f [Hm|[-> ->]].
    - destruct f; [|exact Hm].
      destruct (decide (k' = k)) as [->|N];
        [apply lookup_insert_eq | rewrite lookup_insert_ne; auto].
    - apply lookup_insert_eq. }
  destruct Hin as [E|[E|[E|[E|[E|[]]]]]]; injection E as <- ->;
    repeat first [ apply lookup_insert_eq | apply G; left ].
Qed.

(** C4.  [container unset]: (a) every reset switch given has its key bound
    to the empty string in the system map; (b) without any property and
    without any switch the command makes one call, [container_del_properties]
    with the empty list; (c) with properties the first call is
    [container_del_properties] with these properties, and it is the only
    call when no switch is given; (d) with a switch, the command calls
    [container_set_properties] with the system map, directly when there is
    no property, and once [container_del_properties] has answered when there
    are properties. *)
Theorem unset_calls `{Env} (a : UnsetContainer.args) (s : St)
    (log : list call) :
  (∀ k, (k, true) ∈ reset_flags a ->
        UnsetContainer.system_of a !! k = Some "")
  ∧ (UnsetContainer.property a = [] -> any_reset a = false ->
     unset_del a =
       container_del_properties account
         (ContainerCommandMixin.container
            (ContainerCommandMixin.take_action_container
               (UnsetContainer.target a)))
         []
         (ContainerCommandMixin.cid
            (ContainerCommandMixin.take_action_container
               (UnsetContainer.target a)))
     ∧ UnsetContainer.take_action a (s, log) = invoke (unset_del a) (s, log))
  ∧ (UnsetContainer.property a ≠ [] -> any_reset a = false ->
     UnsetContainer.take_action a (s, log) = invoke (unset_del a) (s, log))
  ∧ (UnsetContainer.property a = [] -> any_reset a = true ->
     UnsetContainer.take_action a (s, log) = invoke (unset_set a) (s, log))
  ∧ (UnsetContainer.property a ≠ [] -> any_reset a = true ->
     ∀ s1 r, storage (unset_del a) s = (s1, r) ->
       UnsetContainer.take_action a (s, log) =
         match r with
         | inr _ => invoke (unset_set a) (s1, log ++ [unset_del a])
         | inl e => ((s1, log ++ [unset_del a]), inl e)
         end).
Proof.
  split; [intros k; apply unset_system_lookup|].
  pose proof (unset_system_empty a) as Hsys.
  unfold UnsetContainer.take_action, bind.
  fold (unset_del a). fold (unset_set a).
  split; [|split; [|split]].
  - intros Hp Hf. split; [unfold unset_del; rewrite Hp; reflexivity|].
    rewrite (bool_decide_eq_true_2 _ (proj2 Hsys Hf)). rewrite orb_true_r.
    simpl. rewrite invoke_eq. destruct (storage (unset_del a) s) as [s1 [e|[]]];
      reflexivity.
  - intros _ Hf.
    rewrite (bool_decide_eq_true_2 _ (proj2 Hsys Hf)). rewrite orb_true_r.
    simpl. rewrite invoke_eq. destruct (storage (unset_del a) s) as [s1 [e|[]]];
      reflexivity.
  - intros Hp Hf.
    assert (Hne : UnsetContainer.system_of a ≠ ∅).
    { intros E. apply Hsys in E. congruence. }
    rewrite (bool_decide_eq_true_2 _ Hp), (bool_decide_eq_false_2 _ Hne).
    reflexivity.
  - intros Hp Hf s1 r Hdel.
    assert (Hne : UnsetContainer.system_of a ≠ ∅).
    { intros E. apply Hsys in E. congruence. }
    rewrite (bool_decide_eq_false_2 _ Hp), (bool_decide_eq_false_2 _ Hne).
    simpl. rewrite invoke_eq, Hdel. destruct r as [e|[]]; reflexivity.
Qed.

Lemma unset_calls_witness :
  let a p q :=
    {| UnsetContainer.target := ContainerCommandMixin.parsed "c" false;
       UnsetContainer.bucket_name := false;
       UnsetContainer.property := p;
       UnsetContainer.storage_policy := false;
       UnsetContainer.max_versions := false;
       UnsetContainer.quota := q;
       UnsetContainer.delete_exceeding_versions := false |} in
  let s := Fake.holding ["c"] in
  UnsetContainer.take_action (H := Fake.env) (a [] false) (s, []) =
    ((s, [container_del_properties "myaccount" (Some "c") [] None]), inr tt)
  ∧ UnsetContainer.take_action (H := Fake.env) (a ["color"] true) (s, []) =
    ((s, [container_del_properties "myaccount" (Some "c") ["color"] None;
          container_set_properties "myaccount" (Some "c") None None
            {[ "sys.m2.quota" := "" ]} None]),
     inr tt).
Proof.
  intros a s. split.
  - destruct (unset_calls (H := Fake.env) (a [] false) s [])
      as (_ & Hnone & _).
    destruct (Hnone eq_refl eq_refl) as (_ & E). exact E.
  - destruct (unset_calls (H := Fake.env) (a ["color"] true) s [])
      as (_ & _ & _ & _ & Hboth).
    exact (Hboth ltac:(discriminate) eq_refl s (inr tt) eq_refl).
Defined.

(** ** C5: the results of [container create] *)

Lemma for_acc_single `{Env} {A B : Type} (x : A) (acc : B)
    (body : A -> B -> M B) (w : world) :
  for_acc [x] acc body w =
    match body x acc w with
    | (w', inr acc') => (w', inr acc')
    | (w', inl e) => (w', inl e)
    end.
Proof.
  simpl. unfold bind, ret. destruct (body x acc w) as [w' [e|acc']]; reflexivity.
Qed.

(** C5.  [container create] with more than one name makes one call,
    [container_create_many], and returns what the call answers; when the
    client answers per name, these are as many (name, success) pairs as
    there are names, in input order.  With one name it makes one call,
    [container_create], and returns the one pair of this name and of the
    answer. *)
Theorem create_results `{Env} (a : CreateContainer.args) (s : St)
    (log : list call) :
  per_name_results ->
  ((1 < length (CreateContainer.containers a))%nat ->
   let c := container_create_many account (CreateContainer.containers a)
              (CreateContainer.property a) (CreateContainer.system_of a) in
   ∀ s' r, storage c s = (s', r) ->
     CreateContainer.take_action a (s, log) =
       ((s', log ++ [c]),
        match r with
        | inr results => inr (["Name"; "Created"], results)
        | inl e => inl e
        end)
     ∧ ∀ results, r = inr results ->
         results.*1 = CreateContainer.containers a
         ∧ length results = length (CreateContainer.containers a))
  ∧ (∀ name, CreateContainer.containers a = [name] ->
     let c := container_create account name
                (CreateContainer.property a) (CreateContainer.system_of a) in
     ∀ s' r, storage c s = (s', r) ->
       CreateContainer.take_action a (s, log) =
         ((s', log ++ [c]),
          match r with
          | inr success => inr (["Name"; "Created"], [(name, success)])
          | inl e => inl e
          end)).
Proof.
  intros Hper. split.
  - intros Hn c s' r Hc. split.
    + unfold CreateContainer.take_action, bind.
      apply Nat.ltb_lt in Hn. rewrite Hn.
      fold c. rewrite invoke_eq, Hc. destruct r; reflexivity.
    + intros results ->. pose proof (Hper _ _ _ _ _ _ _ Hc) as E.
      split; [exact E|]. rewrite <- E. symmetry. apply length_fmap.
  - intros name Hone c s' r Hc.
    unfold CreateContainer.take_action. unfold bind at 1.
    rewrite Hone. change (1 <? length [name])%nat with false. cbv iota.
    rewrite for_acc_single. unfold bind at 1. fold c.
    rewrite invoke_eq, Hc. destruct r; reflexivity.
Qed.

Lemma fake_create_many_names (names : list string)
    (system : gmap string string) (b : Fake.backend) :
  (Fake.create_many names system b).2.*1 = names.
Proof.
  revert b. induction names as [|n names IH]; intros b; [reflexivity|].
  cbn [Fake.create_many]. destruct (Fake.create n system b) as [b1 ok].
  specialize (IH b1). destruct (Fake.create_many names system b1) as [b2 r].
  cbn [snd] in *. rewrite fmap_cons. cbn [fst]. f_equal. exact IH.
Defined.

Lemma fake_per_name_results : per_name_results (H := Fake.env).
Proof.
  intros acct names properties system s s' r. simpl.
  pose proof (fake_create_many_names names system s) as E.
  destruct (Fake.create_many names system s) as [b l]. simpl in E.
  intros [= _ <-]. exact E.
Defined.

Lemma create_results_witness :
  let a names :=
    {| CreateContainer.property := None;
       CreateContainer.quota := None;
       CreateContainer.storage_policy := None;
       CreateContainer.max_versions := None;
       CreateContainer.delete_exceeding_versions := None;
       CreateContainer.bucket_name := None;
       CreateContainer.containers := names |} in
  per_name_results (H := Fake.env)
  ∧ snd (CreateContainer.take_action (H := Fake.env) (a ["a"; "b"; "c"])
           (Fake.holding ["b"], [])) =
    inr (["Name"; "Created"], [("a", true); ("b", false); ("c", true)])
  ∧ snd (CreateContainer.take_action (H := Fake.env) (a ["a"])
           (Fake.holding ["b"], [])) =
    inr (["Name"; "Created"], [("a", true)]).
Proof.
  intros a. split; [exact fake_per_name_results|].
  destruct (create_results (H := Fake.env) (a ["a"; "b"; "c"])
              (Fake.holding ["b"]) [] fake_per_name_results) as (Hmany & _).
  destruct (create_results (H := Fake.env) (a ["a"])
              (Fake.holding ["b"]) [] fake_per_name_results) as (_ & Hone).
  split.
  - exact (f_equal snd
             (proj1 (Hmany ltac:(simpl; lia) _ _ eq_refl))).
  - exact (f_equal snd (Hone "a" eq_refl _ _ eq_refl)).
Defined.

(** ** C8: the defaults of [container snapshot] *)

(** C8.  [container snapshot] passes to [container_snapshot] the resolved
    source account and name, the destination account [dst_account or
    account] and the destination name [dst_container or name + "-" +
    timestamp]: without [--dst-container] the destination name is the
    resolved source name, a dash and the current timestamp, and without
    [--dst-account] the destination account is the resolved source
    account. *)
Theorem snapshot_defaults `{Env} (a : SnapshotContainer.args)
    (given : string) (is_cid : bool) (s s1 : St) (acct name : string)
    (cs : list call) (log : list call) :
  SnapshotContainer.target a = ContainerCommandMixin.parsed given is_cid ->
  resolved given is_cid s acct name s1 cs ->
  let dst_acct := or_else (SnapshotContainer.dst_account a) acct in
  let dst_cont :=
    or_else (SnapshotContainer.dst_container a)
      (name +:+ "-" +:+ Timestamp_normal) in
  let c := container_snapshot acct (Some name) dst_acct dst_cont
             (SnapshotContainer.chunk_batch_size a)
             (timeout_to_deadline (SnapshotContainer.timeout a)) in
  SnapshotContainer.take_action a (s, log) =
    (let '(s2, r) := storage c s1 in
     ((s2, log ++ cs ++ [c]),
      match r with
      | inr _ =>
          inr (["Account"; "Container"; "Status"], [(dst_acct, dst_cont, "OK")])
      | inl e => inl e
      end))
  ∧ (SnapshotContainer.dst_container a = None ->
     dst_cont = name +:+ "-" +:+ Timestamp_normal)
  ∧ (SnapshotContainer.dst_account a = None -> dst_acct = acct).
Proof.
  intros Ht R dst_acct dst_cont c.
  split; [|split; [intros E; subst dst_cont; rewrite E; reflexivity
                  |intros E; subst dst_acct; rewrite E; reflexivity]].
  unfold SnapshotContainer.take_action. rewrite Ht.
  assert (Hd :
    match SnapshotContainer.dst_container a with
    | Some d =>
        if String.eqb d ""
        then SnapshotContainer.default_dst_container (Some name)
        else ret d
    | None => SnapshotContainer.default_dst_container (Some name)
    end = ret dst_cont).
  { subst dst_cont. unfold or_else, SnapshotContainer.default_dst_container.
    destruct (SnapshotContainer.dst_container a) as [d|]; [|reflexivity].
    destruct (String.eqb d ""); reflexivity. }
  destruct is_cid; simpl in R |- *.
  - destruct R as (Hr & ->). unfold bind at 1. unfold bind at 1.
    rewrite invoke_eq, Hr. cbn [ret fst snd].
    unfold bind at 1. rewrite Hd. cbn [ret]. unfold bind at 1.
    fold dst_acct. fold c. rewrite invoke_eq.
    destruct (storage c s1) as [s2 [e|[]]]; rewrite <- ?app_assoc; reflexivity.
  - destruct R as (-> & -> & -> & ->). unfold bind at 1. cbn [ret fst snd].
    unfold bind at 1. rewrite Hd. cbn [ret]. unfold bind at 1.
    fold dst_acct. fold c. rewrite invoke_eq.
    destruct (storage c s) as [s2 [e|[]]]; reflexivity.
Qed.

Lemma snapshot_defaults_witness :
  let a flag :=
    {| SnapshotContainer.target := ContainerCommandMixin.parsed "photos" flag;
       SnapshotContainer.dst_account := None;
       SnapshotContainer.dst_container := None;
       SnapshotContainer.chunk_batch_size := PyInt 100;
       SnapshotContainer.timeout := 60 |} in
  let s := Fake.holding ["photos"] in
  SnapshotContainer.take_action (H := Fake.env) (a false) (s, []) =
    ((s, [container_snapshot "myaccount" (Some "photos") "myaccount"
            "photos-1600000000.00000" (PyInt 100) 60]),
     inr (["Account"; "Container"; "Status"],
          [("myaccount", "photos-1600000000.00000", "OK")]))
  ∧ snd (fst (SnapshotContainer.take_action (H := Fake.env) (a true) (s, []))) =
    [resolve_cid "photos";
     container_snapshot "myaccount" (Some "name-of-photos") "myaccount"
       "name-of-photos-1600000000.00000" (PyInt 100) 60].
Proof.
  intros a s. split.
  - exact (proj1 (snapshot_defaults (H := Fake.env) (a false) "photos" false
                    s s "myaccount" "photos" [] [] eq_refl
                    (conj eq_refl (conj eq_refl (conj eq_refl eq_refl))))).
  - exact (f_equal (fun r => snd (fst r))
             (proj1 (snapshot_defaults (H := Fake.env) (a true) "photos" true
                       s s "myaccount" "name-of-photos"
                       [resolve_cid "photos"] [] eq_refl
                       (conj eq_refl eq_refl)))).
Defined.


(** ** C6: the full listing of [container list] *)

Lemma full_list_while_next `{Env} (fuel : nat) (kw : gmap string string)
    (p : list entry) (e : entry) :
  last p = Some e ->
  ListContainer.full_list_while (S fuel) kw p =
  ListContainer.full_list fuel (<["marker" := e_name e]> kw).
Proof. intros E. simpl. rewrite E. reflexivity. Qed.

Lemma full_list_paging `{Env} (kw : gmap string string) (s s' : St)
    (pages : list (list entry)) (cs : list call) :
  paging kw s pages cs s' ->
  ∀ fuel log, (length pages < fuel)%nat ->
    ListContainer.full_list fuel kw (s, log) =
      ((s', log ++ cs), inr (Some (concat pages))).
Proof.
  induction 1 as [kw s s' Hc | kw s p s1 e ps cs s' Hc He _ IH];
    intros fuel log Hfuel.
  - destruct fuel as [|fuel]; [simpl in Hfuel; lia|].
    unfold ListContainer.full_list, bind.
    rewrite (invoke_ok _ _ _ _ _ Hc). reflexivity.
  - destruct fuel as [|fuel]; [simpl in Hfuel; lia|].
    unfold ListContainer.full_list. unfold bind at 1.
    rewrite (invoke_ok _ _ _ _ _ Hc).
    rewrite (full_list_while_next _ _ _ _ He).
    unfold bind at 1. rewrite IH by (simpl in Hfuel; lia).
    rewrite <- app_assoc. reflexivity.
Qed.

Lemma paging_calls `{Env} (kw : gmap string string) (s s' : St)
    (pages : list (list entry)) (cs : list call) :
  paging kw s pages cs s' -> length cs = S (length pages).
Proof. induction 1; simpl; congruence. Qed.

(** C6.  [container list --no-paging] calls [container_list] again and
    again, each time with the name of the last entry of the page before as
    marker, until the client answers an empty page: when the client answers
    the pages [pages] and then an empty page, the rows are those of the
    entries of all the pages in order, the calls are those of the paging and
    no other (one more than there are pages, the last being the one answered
    by the empty page), whatever bound above the number of pages is put on
    the loop. *)
Theorem full_listing_exhausts_pages `{Env} (a : ListContainer.args)
    (s s' : St) (pages : list (list entry)) (cs log : list call) :
  ListContainer.full_listing a = true ->
  paging (ListContainer.kwargs_of a) s pages cs s' ->
  length cs = S (length pages)
  ∧ ∀ fuel, (length pages < fuel)%nat ->
      ListContainer.take_action fuel a (s, log) =
        ((s', log ++ cs),
         inr (Some (["Name"; "Bytes"; "Count"; "Mtime"; "CID"],
                    map ListContainer.row_of (concat pages)))).
Proof.
  intros Hfull P. split; [exact (paging_calls _ _ _ _ _ P)|].
  intros fuel Hfuel. unfold ListContainer.take_action, bind.
  rewrite Hfull, (full_list_paging _ _ _ _ _ P fuel log Hfuel). reflexivity.
Qed.

Lemma full_listing_exhausts_pages_witness :
  let E n := {| e_name := n; e_count := 1; e_bytes := 2; e_isdir := false;
                e_mtime := 3 |} in
  let R n := (n, 2, 1, 3, "cid(myaccount/" +:+ n +:+ ")") in
  let script ps := {| Fake.table := ∅; Fake.pages := ps; Fake.buckets := [] |} in
  let a := {| ListContainer.prefix := None;
              ListContainer.delimiter := None;
              ListContainer.marker := None;
              ListContainer.end_marker := None;
              ListContainer.limit := None;
              ListContainer.full_listing := true |} in
  ListContainer.take_action (H := Fake.env) 3 a
    (script [[E "a"; E "b"]; [E "c"; E "d"]; []; [E "e"]], []) =
    ((script [[E "e"]],
      [container_list "myaccount" ∅;
       container_list "myaccount" {[ "marker" := "b" ]};
       container_list "myaccount" {[ "marker" := "d" ]}]),
     inr (Some (["Name"; "Bytes"; "Count"; "Mtime"; "CID"],
                [R "a"; R "b"; R "c"; R "d"]))).
Proof.
  intros E R script a.
  assert (P : paging (H := Fake.env) (ListContainer.kwargs_of a)
                (script [[E "a"; E "b"]; [E "c"; E "d"]; []; [E "e"]])
                [[E "a"; E "b"]; [E "c"; E "d"]]
                [container_list "myaccount" ∅;
                 container_list "myaccount" {[ "marker" := "b" ]};
                 container_list "myaccount" {[ "marker" := "d" ]}]
                (script [[E "e"]])).
  { eapply (paging_page (H := Fake.env)) with (e := E "b");
      [reflexivity | reflexivity |].
    eapply (paging_page (H := Fake.env)) with (e := E "d");
      [reflexivity | reflexivity |].
    apply (paging_stop (H := Fake.env)). reflexivity. }
  exact (proj2 (full_listing_exhausts_pages (H := Fake.env) a _ _ _ _ []
                  eq_refl P) 3%nat ltac:(simpl; lia)).
Defined.


(** ** C9: the Versioning column of [bucket list] *)

Lemma next_gen_for `{Env} {A B : Type} (g : gen world A) (body : A -> M B)
    (w : world) :
  next (gen_for g body) w =
  match next g w with
  | Stop w' => Stop w'
  | Yield w' a rest =>
      match body a w' with
      | (w'', inr b) => Yield w'' b (gen_for rest body)
      | (w'', inl e) => Raised w'' e
      end
  | Raised w' e => Raised w' e
  end.
Proof. destruct g; reflexivity. Qed.

Lemma drain_eq {W A : Type} (g : gen W A) (w : W) :
  drain g w =
  match next g w with
  | Stop w' => (w', inr [])
  | Yield w' a rest =>
      match drain rest w' with
      | (w'', inr l) => (w'', inr (a :: l))
      | (w'', inl e) => (w'', inl e)
      end
  | Raised w' e => (w', inl e)
  end.
Proof. destruct g; reflexivity. Qed.

Lemma bucket_kwargs_reqid `{Env} (a : ListBuckets.args) :
  ListBuckets.kwargs_of a !! "reqid" = Some (request_id "CLI-BUCKET-").
Proof.
  unfold ListBuckets.kwargs_of, set_if_truthy.
  destruct (ListBuckets.prefix a) as [x|], (ListBuckets.marker a) as [y|],
    (ListBuckets.limit a) as [z|];
    repeat match goal with
           | |- context [truthy ?o] => destruct (truthy o)
           end;
    repeat (rewrite lookup_insert_ne by discriminate);
    apply lookup_insert_eq.
Qed.

Lemma versioning_of_column `{Env} (kw : gmap string string) (reqid : string)
    (name : pyval) (s s2 : St) (log : list call)
    (out : exn + gmap string (gmap string string)) (col : string) :
  kw !! "reqid" = Some reqid ->
  storage (container_get_properties account name reqid) s = (s2, out) ->
  column out col ->
  ListBuckets.versioning kw name (s, log) =
    ((s2, log ++ [container_get_properties account name reqid]), inr col).
Proof.
  intros Hreq Hfetch Hcol.
  unfold ListBuckets.versioning, bind, except_NoSuchContainer, subscript.
  rewrite Hreq. cbn [ret]. rewrite invoke_eq, Hfetch.
  destruct Hcol as [msg | data sys Hd Hs | data sys status Hd Hs Hi
                   | data sys status n Hd Hs Hi Hn]; cbn [ret].
  - reflexivity.
  - rewrite Hd. cbn [ret]. rewrite Hs. reflexivity.
  - rewrite Hd. cbn [ret]. rewrite Hs, Hi. reflexivity.
  - rewrite Hd. cbn [ret]. rewrite Hs, Hi.
    destruct (Z.eqb_spec n 0); [contradiction | reflexivity].
Qed.

(** A policy that [int()] rejects is outside of the three columns: the
    function raises ValueError. *)
Lemma versioning_not_an_integer `{Env} (kw : gmap string string)
    (reqid : string) (name : pyval) (s s2 : St) (log : list call)
    (data : gmap string (gmap string string)) (sys : gmap string string)
    (status : string) :
  kw !! "reqid" = Some reqid ->
  storage (container_get_properties account name reqid) s = (s2, inr data) ->
  data !! "system" = Some sys ->
  sys !! M2_PROP_VERSIONING_POLICY = Some status ->
  int status = None ->
  ListBuckets.versioning kw name (s, log) =
    ((s2, log ++ [container_get_properties account name reqid]),
     inl (ValueError status)).
Proof.
  intros Hreq Hfetch Hd Hs Hi.
  unfold ListBuckets.versioning, bind, except_NoSuchContainer, subscript.
  rewrite Hreq. cbn [ret]. rewrite invoke_eq, Hfetch. cbn [ret].
  rewrite Hd. cbn [ret]. rewrite Hs, Hi. reflexivity.
Qed.

Lemma bucket_row `{Env} (v : bucket) (name b o m : pyval) (col : string)
    (w : world) :
  v !! "name" = Some name ->
  v !! "bytes" = Some b ->
  v !! "objects" = Some o ->
  v !! "mtime" = Some m ->
  ListBuckets.row_of bucket_columns (<["versioning" := PyStr col]> v) w =
    (w, inr [name; b; o; m; PyStr col]).
Proof.
  intros Hn Hb Ho Hm.
  unfold ListBuckets.row_of, bucket_columns. cbn [for_acc].
  change (lower "Name") with "name". change (lower "Bytes") with "bytes".
  change (lower "Objects") with "objects". change (lower "Mtime") with "mtime".
  change (lower "Versioning") with "versioning".
  unfold bind, subscript.
  rewrite !lookup_insert_ne by discriminate.
  rewrite Hn, Hb, Ho, Hm, lookup_insert_eq. reflexivity.
Qed.

Lemma enriched_rows `{Env} (kw : gmap string string) (reqid : string)
    (g : gen world bucket) (w w' : world) (items : list item) :
  kw !! "reqid" = Some reqid ->
  enriched reqid g w items w' ->
  drain (gen_for (ListBuckets.enrich kw g) (ListBuckets.row_of bucket_columns))
    w = (w', inr (i_row <$> items)).
Proof.
  intros Hreq. induction 1
    as [g w w' Hstop
       | g w [s1 log1] v rest name b o m s2 out col items w' Hy Hn Hb Ho Hm
           Hfetch Hcol _ IH].
  - rewrite drain_eq, next_gen_for. unfold ListBuckets.enrich.
    rewrite next_gen_for, Hstop. reflexivity.
  - rewrite drain_eq, next_gen_for. unfold ListBuckets.enrich at 1.
    rewrite next_gen_for, Hy.
    unfold bind at 1. unfold subscript at 1. rewrite Hn. cbn [ret].
    unfold bind at 1.
    rewrite (versioning_of_column kw reqid name s1 s2 log1 out col
               Hreq Hfetch Hcol).
    cbn [ret].
    rewrite (bucket_row v name b o m col _ Hn Hb Ho Hm).
    fold (ListBuckets.enrich kw rest). cbn [fst snd] in IH.
    rewrite IH. reflexivity.
Qed.

Lemma enriched_columns `{Env} (reqid : string) (g : gen world bucket)
    (w w' : world) (items : list item) :
  enriched reqid g w items w' ->
  Forall (fun i =>
            (i_column i = "Error" <-> ∃ msg, i_fetch i = inl (NoSuchContainer msg))
            ∧ column (i_fetch i) (i_column i)
            ∧ last (i_row i) = Some (PyStr (i_column i))) items.
Proof.
  induction 1
    as [| g w w1 v rest name b o m s2 out col items w' _ _ _ _ _ _
            Hcol _ IH]; constructor; [|exact IH].
  simpl. split; [|split; [exact Hcol | reflexivity]].
  destruct Hcol; split; try discriminate; eauto;
    intros (msg' & E); discriminate E.
Qed.

Lemma versioning_without_column `{Env} (kw : gmap string string)
    (reqid : string) (name : pyval) (s s2 : St) (log : list call)
    (out : exn + gmap string (gmap string string)) (e : exn) :
  kw !! "reqid" = Some reqid ->
  storage (container_get_properties account name reqid) s = (s2, out) ->
  no_column out e ->
  ListBuckets.versioning kw name (s, log) =
    ((s2, log ++ [container_get_properties account name reqid]), inl e).
Proof.
  intros Hreq Hfetch Hno.
  destruct Hno as [e Hne | data Hd | data sys status Hd Hs Hi].
  - unfold ListBuckets.versioning, bind, except_NoSuchContainer, subscript.
    rewrite Hreq. cbn [ret]. rewrite invoke_eq, Hfetch.
    destruct e; try reflexivity. exfalso. exact (Hne _ eq_refl).
  - unfold ListBuckets.versioning, bind, except_NoSuchContainer, subscript.
    rewrite Hreq. cbn [ret]. rewrite invoke_eq, Hfetch. cbn [ret].
    rewrite Hd. reflexivity.
  - exact (versioning_not_an_integer kw reqid name s s2 log data sys status
             Hreq Hfetch Hd Hs Hi).
Qed.

Lemma enriched_until_raises `{Env} (kw : gmap string string) (reqid : string)
    (g : gen world bucket) (w w' : world) (items : list item) (e : exn) :
  kw !! "reqid" = Some reqid ->
  enriched_until reqid g w items e w' ->
  drain (gen_for (ListBuckets.enrich kw g) (ListBuckets.row_of bucket_columns))
    w = (w', inl e).
Proof.
  intros Hreq. induction 1
    as [g w [s1 log1] v rest name s2 out e Hy Hn Hfetch Hno
       | g w [s1 log1] v rest name b o m s2 out col items e w' Hy Hn Hb Ho Hm
           Hfetch Hcol _ IH].
  - rewrite drain_eq, next_gen_for. unfold ListBuckets.enrich at 1.
    rewrite next_gen_for, Hy.
    unfold bind at 1. unfold subscript at 1. rewrite Hn. cbn [ret].
    unfold bind at 1.
    rewrite (versioning_without_column kw reqid name s1 s2 log1 out e
               Hreq Hfetch Hno).
    reflexivity.
  - rewrite drain_eq, next_gen_for. unfold ListBuckets.enrich at 1.
    rewrite next_gen_for, Hy.
    unfold bind at 1. unfold subscript at 1. rewrite Hn. cbn [ret].
    unfold bind at 1.
    rewrite (versioning_of_column kw reqid name s1 s2 log1 out col
               Hreq Hfetch Hcol).
    cbn [ret].
    rewrite (bucket_row v name b o m col _ Hn Hb Ho Hm).
    fold (ListBuckets.enrich kw rest). cbn [fst snd] in IH.
    rewrite IH. reflexivity.
Qed.

Lemma enriched_iter `{Env} (reqid : string) (l : list bucket)
    (s : St) (log : list call) (items : list item) (w' : world) :
  enriched reqid (iter l) (s, log) items w' ->
  i_bucket <$> items = l
  ∧ snd w' =
    log ++ ((fun i => container_get_properties account (i_name i) reqid)
              <$> items).
Proof.
  revert s log items.
  induction l as [|v l IH]; intros s log items R;
    inversion R as [g w w1 Hstop
                   | g w w1 v' rest name b o m s2 out col items' w2
                       Hy Hn Hb Ho Hm Hfetch Hcol Hrest]; subst;
    cbn [iter next] in *; try discriminate.
  - injection Hstop as <-. split; [reflexivity|].
    rewrite fmap_nil, app_nil_r. reflexivity.
  - injection Hy as <- <- <-. cbn [fst snd] in *.
    destruct (IH _ _ _ Hrest) as (E1 & E2).
    rewrite !fmap_cons. cbn [i_bucket i_name]. rewrite E1.
    split; [reflexivity|].
    rewrite E2, <- app_assoc. reflexivity.
Qed.

Lemma enriched_until_iter `{Env} (reqid : string) (l : list bucket)
    (s : St) (log : list call) (items : list item) (e : exn) (w' : world) :
  enriched_until reqid (iter l) (s, log) items e w' ->
  ∃ v name rest,
    l = (i_bucket <$> items) ++ v :: rest
    ∧ v !! "name" = Some name
    ∧ snd w' =
      log ++ ((fun i => container_get_properties account (i_name i) reqid)
                <$> items)
          ++ [container_get_properties account name reqid].
Proof.
  revert s log items.
  induction l as [|v l IH]; intros s log items R;
    inversion R as [g w w1 v' rest name s2 out e' Hy Hn Hfetch Hno
                   | g w w1 v' rest name b o m s2 out col items' e' w2
                       Hy Hn Hb Ho Hm Hfetch Hcol Hrest]; subst;
    cbn [iter next] in *; try discriminate.
  - injection Hy as <- <- <-. exists v, name, l.
    split; [reflexivity|]. split; [exact Hn | reflexivity].
  - injection Hy as <- <- <-. cbn [fst snd] in *.
    destruct (IH _ _ _ Hrest) as (v0 & name0 & rest0 & E1 & E2 & E3).
    exists v0, name0, rest0. rewrite !fmap_cons. cbn [i_bucket i_name].
    split; [rewrite E1; reflexivity|]. split; [exact E2|].
    rewrite E3, <- !app_assoc. reflexivity.
Qed.

(** The outcome of a property fetch either has a Versioning column or
    stops the listing. *)
Lemma column_or_not `{Env} (out : exn + gmap string (gmap string string)) :
  (∃ col, column out col) ∨ (∃ e, no_column out e).
Proof.
  destruct out as [e|data].
  - destruct e as [k|x|m|msg|cls m];
      try (right; eexists; apply no_column_raised; discriminate).
    left. eexists. apply column_error.
  - destruct (data !! "system") as [sys|] eqn:Hd;
      [|right; eexists; apply (no_column_system _ Hd)].
    destruct (sys !! M2_PROP_VERSIONING_POLICY) as [status|] eqn:Hs;
      [|left; eexists; apply (column_absent _ _ Hd Hs)].
    destruct (int status) as [n|] eqn:Hi;
      [|right; eexists; apply (no_column_literal _ _ _ Hd Hs Hi)].
    left. destruct (decide (n = 0)) as [->|Hn]; eexists.
    + apply (column_zero _ _ _ Hd Hs Hi).
    + apply (column_other _ _ _ _ Hd Hs Hi Hn).
Qed.

(** Every client gives a run: on a page of buckets that have the four keys
    of a row, whatever the property fetches answer or raise. *)
Lemma versioned_total `{Env} (reqid : string) (l : list bucket) (s : St)
    (log : list call) :
  Forall listed l ->
  ∃ items r w', versioned reqid (iter l) (s, log) items r w'.
Proof.
  intros Hl. revert s log.
  induction Hl as [|v l ([name Hn] & [b Hb] & [o Ho] & [m Hm]) _ IH];
    intros s log.
  - exists [], None, (s, log). apply versioned_all, enriched_stop. reflexivity.
  - destruct (storage (container_get_properties account name reqid) s)
      as [s2 out] eqn:Hfetch.
    destruct (column_or_not out) as [[col Hcol]|[e Hno]].
    + destruct (IH s2 (log ++ [container_get_properties account name reqid]))
        as (items & r & w' & Hrun).
      eexists (_ :: items), r, w'.
      inversion Hrun as [g w its w2 Hr | g w its e w2 Hr]; subst.
      * apply versioned_all.
        exact (enriched_yield reqid (iter (v :: l)) (s, log) (s, log) v
                 (iter l) name b o m s2 out col items w' eq_refl Hn Hb Ho Hm
                 Hfetch Hcol Hr).
      * apply versioned_until.
        exact (until_later reqid (iter (v :: l)) (s, log) (s, log) v
                 (iter l) name b o m s2 out col items e w' eq_refl Hn Hb Ho
                 Hm Hfetch Hcol Hr).
    + exists [], (Some e), (s2, log ++ [container_get_properties account name
                                         reqid]).
      apply versioned_until.
      exact (until_here reqid (iter (v :: l)) (s, log) (s, log) v (iter l)
               name s2 out e eq_refl Hn Hfetch Hno).
Qed.

Lemma versioned_inv `{Env} (reqid : string) (g : gen world bucket)
    (w w' : world) (items : list item) (r : option exn) :
  versioned reqid g w items r w' ->
  match r with
  | None => enriched reqid g w items w'
  | Some e => enriched_until reqid g w items e w'
  end.
Proof. destruct 1; assumption. Qed.

Lemma enriched_until_columns `{Env} (reqid : string) (g : gen world bucket)
    (w w' : world) (items : list item) (e : exn) :
  enriched_until reqid g w items e w' ->
  Forall (fun i =>
            (i_column i = "Error" <-> ∃ msg, i_fetch i = inl (NoSuchContainer msg))
            ∧ column (i_fetch i) (i_column i)
            ∧ last (i_row i) = Some (PyStr (i_column i))) items.
Proof.
  induction 1
    as [| g w w1 v rest name b o m s2 out col items e w' _ _ _ _ _ _
            Hcol _ IH]; constructor; [|exact IH].
  simpl. split; [|split; [exact Hcol | reflexivity]].
  destruct Hcol; split; try discriminate; eauto;
    intros (msg' & E); discriminate E.
Qed.

(** C9.  With [--versioning], whatever the property fetches answer or
    raise: each bucket the listing yields is followed by one
    [container_get_properties] call for this bucket, and the row of a
    bucket in the output ends with the Versioning column, "Error" exactly
    when this call raised [NoSuchContainer], and otherwise "Suspended" when
    the versioning policy is absent or reads as 0 and "Enabled" when it reads
    as another integer (the relation [column]).  A bucket whose call raised
    [NoSuchContainer] has its row like the others and the listing goes on
    with the next bucket.  A fetch that raises another exception, an answer
    without ['system'] and a policy that is not an integer literal give no
    column at all (the relation [no_column]): the production of the rows
    raises there, this bucket has no row, and no later bucket is fetched.
    Without [--no-paging] the calls made after [bucket_list] are these
    fetches and no other, one per bucket of the page, in order, up to the
    bucket where the production stops.  The runs [versioned] are all the
    runs: every client gives one on a page of buckets that have the four
    keys of a row (lemma [versioned_total]). *)
Theorem bucket_versioning_column `{Env} (a : ListBuckets.args) (s s1 : St)
    (g : gen world bucket) (cs log : list call) (items : list item)
    (r : option exn) (w' : world) :
  ListBuckets.versioning_flag a = true ->
  listing_source a s g s1 cs ->
  versioned (request_id "CLI-BUCKET-") g (s1, log ++ cs) items r w' ->
  (∃ rows,
     ListBuckets.take_action a (s, log) =
       ((s1, log ++ cs), inr (bucket_columns, rows))
     ∧ drain rows (s1, log ++ cs) =
       (w', match r with
            | None => inr (i_row <$> items)
            | Some e => inl e
            end))
  ∧ Forall (fun i =>
              (i_column i = "Error" <->
               ∃ msg, i_fetch i = inl (NoSuchContainer msg))
              ∧ column (i_fetch i) (i_column i)
              ∧ last (i_row i) = Some (PyStr (i_column i))) items
  ∧ (ListBuckets.full_listing a = false ->
     ∃ page,
       g = iter (listing page)
       ∧ match r with
         | None =>
             i_bucket <$> items = listing page
             ∧ snd w' =
               log ++ cs ++
               ((fun i => container_get_properties account (i_name i)
                            (request_id "CLI-BUCKET-")) <$> items)
         | Some e =>
             ∃ v name rest,
               listing page = (i_bucket <$> items) ++ v :: rest
               ∧ v !! "name" = Some name
               ∧ snd w' =
                 log ++ cs ++
                 ((fun i => container_get_properties account (i_name i)
                              (request_id "CLI-BUCKET-")) <$> items)
                 ++ [container_get_properties account name
                       (request_id "CLI-BUCKET-")]
         end).
Proof.
  intros Hv Hsrc Hrun. apply versioned_inv in Hrun. split; [|split].
  - exists (gen_for (ListBuckets.enrich (ListBuckets.kwargs_of a) g)
              (ListBuckets.row_of bucket_columns)).
    split.
    + unfold ListBuckets.take_action, listing_source in *. rewrite Hv.
      destruct (ListBuckets.full_listing a).
      * destruct Hsrc as (-> & -> & ->). rewrite app_nil_r. reflexivity.
      * destruct Hsrc as (page & Hpage & -> & ->).
        unfold bind. rewrite (invoke_ok _ _ _ _ _ Hpage). reflexivity.
    + destruct r as [e|].
      * exact (enriched_until_raises _ (request_id "CLI-BUCKET-") g _ _ items
                 e (bucket_kwargs_reqid a) Hrun).
      * exact (enriched_rows _ (request_id "CLI-BUCKET-") g _ _ items
                 (bucket_kwargs_reqid a) Hrun).
  - destruct r as [e|].
    + exact (enriched_until_columns _ _ _ _ _ _ Hrun).
    + exact (enriched_columns _ _ _ _ _ Hrun).
  - intros Hfull. unfold listing_source in Hsrc. rewrite Hfull in Hsrc.
    destruct Hsrc as (page & _ & -> & ->).
    exists page. split; [reflexivity|].
    destruct r as [e|].
    + destruct (enriched_until_iter _ _ _ _ _ _ _ Hrun)
        as (v & name & rest & E1 & E2 & E3).
      exists v, name, rest.
      split; [exact E1|]. split; [exact E2|].
      rewrite E3, <- !app_assoc. reflexivity.
    + destruct (enriched_iter _ _ _ _ _ _ Hrun) as (E1 & E2).
      split; [exact E1|]. rewrite E2, <- app_assoc. reflexivity.
Qed.

Lemma bucket_versioning_column_witness :
  let B (n : string) : bucket :=
    <["name" := PyStr n]>
      (<["bytes" := PyInt 1]>
         (<["objects" := PyInt 2]> (<["mtime" := PyInt 3]> ∅))) in
  let bk :=
    {| Fake.table :=
         <["b1" := {[ "sys.m2.policy.version" := "0" ]}]>
           (<["b2" := {[ "sys.m2.policy.version" := "-1" ]}]>
              (<["b4" := ∅]> ∅));
       Fake.pages := [];
       Fake.buckets := [B "b1"; B "b2"; B "b3"; B "b4"] |} in
  let bk' :=
    {| Fake.table := ∅;
       Fake.pages := [];
       Fake.buckets := [B "b3"; B "down"; B "b1"] |} in
  let a := {| ListBuckets.prefix := None;
              ListBuckets.marker := None;
              ListBuckets.limit := None;
              ListBuckets.full_listing := false;
              ListBuckets.versioning_flag := true |} in
  let R (n c : string) := [PyStr n; PyInt 1; PyInt 2; PyInt 3; PyStr c] in
  let F (n : string) :=
    container_get_properties "myaccount" (PyStr n) "CLI-BUCKET-0001" in
  let L := bucket_list "myaccount" {[ "reqid" := "CLI-BUCKET-0001" ]} in
  (∃ rows,
     ListBuckets.take_action (H := Fake.env) a (bk, []) =
       ((bk, [L]), inr (bucket_columns, rows))
     ∧ drain rows (bk, [L]) =
       ((bk, [L; F "b1"; F "b2"; F "b3"; F "b4"]),
        inr [R "b1" "Suspended"; R "b2" "Enabled"; R "b3" "Error";
             R "b4" "Suspended"]))
  ∧ (∃ rows,
       ListBuckets.take_action (H := Flaky.env) a (bk', []) =
         ((bk', [L]), inr (bucket_columns, rows))
       ∧ drain rows (bk', [L]) =
         ((bk', [L; F "b3"; F "down"]), inl Flaky.busy)).
Proof.
  intros B bk bk' a R F L. split.
  - assert (Hsrc : listing_source (H := Fake.env) a bk
                     (iter [B "b1"; B "b2"; B "b3"; B "b4"]) bk [L]).
    { eexists. split; [reflexivity|]. split; reflexivity. }
    assert (Hrun : enriched (H := Fake.env) "CLI-BUCKET-0001"
                     (iter [B "b1"; B "b2"; B "b3"; B "b4"]) (bk, [] ++ [L])
                     [ Item (B "b1") (PyStr "b1")
                         (inr {[ "system" :=
                                   {[ "sys.m2.policy.version" := "0" ]};
                                 "properties" := ∅ ]})
                         "Suspended" (R "b1" "Suspended");
                       Item (B "b2") (PyStr "b2")
                         (inr {[ "system" :=
                                   {[ "sys.m2.policy.version" := "-1" ]};
                                 "properties" := ∅ ]})
                         "Enabled" (R "b2" "Enabled");
                       Item (B "b3") (PyStr "b3")
                         (inl (NoSuchContainer "b3"))
                         "Error" (R "b3" "Error");
                       Item (B "b4") (PyStr "b4")
                         (inr {[ "system" := ∅; "properties" := ∅ ]})
                         "Suspended" (R "b4" "Suspended") ]
                     (bk, [L; F "b1"; F "b2"; F "b3"; F "b4"])).
    { eapply (enriched_yield (H := Fake.env));
        [reflexivity | reflexivity | reflexivity | reflexivity | reflexivity
        | reflexivity
        | eapply (column_zero (H := Fake.env)); reflexivity |].
      eapply (enriched_yield (H := Fake.env));
        [reflexivity | reflexivity | reflexivity | reflexivity | reflexivity
        | reflexivity
        | eapply (column_other (H := Fake.env) _ _ _ (-1));
            [reflexivity | reflexivity | reflexivity | discriminate] |].
      eapply (enriched_yield (H := Fake.env));
        [reflexivity | reflexivity | reflexivity | reflexivity | reflexivity
        | reflexivity
        | apply (column_error (H := Fake.env)) |].
      eapply (enriched_yield (H := Fake.env));
        [reflexivity | reflexivity | reflexivity | reflexivity | reflexivity
        | reflexivity
        | eapply (column_absent (H := Fake.env)); reflexivity |].
      apply (enriched_stop (H := Fake.env)). reflexivity. }
    exact (proj1 (bucket_versioning_column (H := Fake.env) a bk bk _ [L] []
                    _ None _ eq_refl Hsrc
                    (versioned_all (H := Fake.env) _ _ _ _ _ Hrun))).
  - assert (Hsrc : listing_source (H := Flaky.env) a bk'
                     (iter [B "b3"; B "down"; B "b1"]) bk' [L]).
    { eexists. split; [reflexivity|]. split; reflexivity. }
    assert (Hrun : enriched_until (H := Flaky.env) "CLI-BUCKET-0001"
                     (iter [B "b3"; B "down"; B "b1"]) (bk', [] ++ [L])
                     [ Item (B "b3") (PyStr "b3")
                         (inl (NoSuchContainer "b3"))
                         "Error" (R "b3" "Error") ]
                     Flaky.busy
                     (bk', (([] ++ [L]) ++ [F "b3"]) ++ [F "down"])).
    { eapply (until_later (H := Flaky.env));
        [reflexivity | reflexivity | reflexivity | reflexivity | reflexivity
        | reflexivity
        | apply (column_error (H := Flaky.env)) |].
      eapply (until_here (H := Flaky.env))
        with (w1 := (bk', ([] ++ [L]) ++ [F "b3"])) (out := inl Flaky.busy);
        [reflexivity | reflexivity | reflexivity |].
      apply (no_column_raised (H := Flaky.env)). discriminate. }
    exact (proj1 (bucket_versioning_column (H := Flaky.env) a bk' bk' _ [L] []
                    _ (Some Flaky.busy) _ eq_refl Hsrc
                    (versioned_until (H := Flaky.env) _ _ _ _ _ _ Hrun))).
Defined.

(** * Further properties of the commands *)

(** ** Batches *)

(** X1.  Whatever the client does, the calls [container touch] and
    [container delete] have issued when they return or raise are the calls
    of the first [k] members of the batch, in input order: [k] is the size
    of the batch when the command returns, and at least one when it
    raises. *)
Theorem batch_calls_are_a_prefix `{Env} (cmd : batch) (is_cid : bool)
    (members : list string) (w : world) :
  ∃ k : nat,
    (k <= length members)%nat
    ∧ snd (fst (batch_take_action cmd is_cid members w)) =
      snd w ++ take k (batch_call cmd is_cid <$> members)
    ∧ (∀ u, snd (batch_take_action cmd is_cid members w) = inr u ->
            k = length members)
    ∧ (∀ e, snd (batch_take_action cmd is_cid members w) = inl e ->
            (0 < k)%nat).
Proof.
  revert w.
  destruct cmd as [recompute|], is_cid;
    unfold batch_take_action, TouchContainer.take_action,
      DeleteContainer.take_action; simpl.
  all: induction members as [|x members IH]; intros [s log].
  all: try (exists 0%nat; cbn [for_each ret fst snd length];
            rewrite take_0, app_nil_r;
            repeat split; [lia | intros e; discriminate]).
  all: cbn [for_each]; unfold bind; rewrite !invoke_eq.
  all: match goal with
       | |- context [storage ?c ?s0] =>
           destruct (storage c s0) as [s1 [e|[]]] eqn:Hc
       end.
  all: try (exists 1%nat; cbn [fst snd length]; rewrite fmap_cons;
            repeat split; [lia | intros u; discriminate | intros; lia]).
  all: match type of Hc with
       | storage ?c _ = _ =>
           destruct (IH (s1, log ++ [c])) as (k & Hk & Hlog & Hok & Hfail)
       end;
       exists (S k); cbn [fst snd length] in *; rewrite fmap_cons;
       repeat split;
       [ lia
       | etrans; [exact Hlog|]; rewrite <- app_assoc; reflexivity
       | intros u Hu; rewrite (Hok u Hu); reflexivity
       | intros; lia ].
Qed.

(** ** The system maps *)

Lemma set_if_given_bound {A : Type} (Q : string -> string -> Prop)
    (key : string) (f : A -> string) (o : option A)
    (d : gmap string string) :
  (∀ k v, d !! k = Some v -> Q k v) ->
  (∀ x, Q key (f x)) ->
  ∀ k v, set_if_given key f o d !! k = Some v -> Q k v.
Proof.
  intros Hd Hkey k v. unfold set_if_given. destruct o as [x|]; [|apply Hd].
  intros [[<- <-]|[_ Hk]]%lookup_insert_Some; [apply Hkey | exact (Hd _ _ Hk)].
Qed.

Lemma set_if_truthy_bound (Q : string -> string -> Prop)
    (key : string) (o : option string) (d : gmap string string) :
  (∀ k v, d !! k = Some v -> Q k v) ->
  (∀ x, Q key x) ->
  ∀ k v, set_if_truthy key o d !! k = Some v -> Q k v.
Proof.
  intros Hd Hkey k v. unfold set_if_truthy.
  destruct o as [x|]; [|apply Hd]. destruct (truthy (Some x)); [|apply Hd].
  intros [[<- <-]|[_ Hk]]%lookup_insert_Some; [apply Hkey | exact (Hd _ _ Hk)].
Qed.

Lemma reset_if_bound (Q : string -> string -> Prop)
    (key : string) (flag : bool) (d : gmap string string) :
  (∀ k v, d !! k = Some v -> Q k v) ->
  Q key "" ->
  ∀ k v, reset_if key flag d !! k = Some v -> Q k v.
Proof.
  intros Hd Hkey k v. unfold reset_if. destruct flag; [|apply Hd].
  intros [[<- <-]|[_ Hk]]%lookup_insert_Some; [apply Hkey | exact (Hd _ _ Hk)].
Qed.

Lemma create_system_keys `{Env} (c : CreateContainer.args) (k v : string) :
  CreateContainer.system_of c !! k = Some v -> k ∈ property_keys.
Proof.
  unfold CreateContainer.system_of, property_keys.
  revert k v.
  repeat first
    [ apply (set_if_given_bound (fun k _ => k ∈ _));
        [|intros; set_solver]
    | apply (set_if_truthy_bound (fun k _ => k ∈ _));
        [|intros; set_solver] ].
  intros k v E. rewrite lookup_empty in E. discriminate E.
Qed.

(** X2.  The system maps never carry a key of their own making: every key
    bound by [container create] is one of the five property keys; [container
    set] may add ['sys.status'] and nothing else; [container unset] binds
    property keys only, and only to the empty string. *)
Theorem system_maps_bind_known_keys `{Env} (c : CreateContainer.args)
    (a : SetContainer.args) (u : UnsetContainer.args) (w w' : world)
    (system : gmap string string) (k v : string) :
  (CreateContainer.system_of c !! k = Some v -> k ∈ property_keys)
  ∧ (SetContainer.system_of a w = (w', inr system) ->
     system !! k = Some v -> k ∈ property_keys ∨ k = "sys.status")
  ∧ (UnsetContainer.system_of u !! k = Some v ->
     k ∈ property_keys ∧ v = "").
Proof.
  split; [apply create_system_keys|]. split.
  - rewrite set_system_of_eq.
    destruct (SetContainer.status a) as [st|].
    + destruct (SetContainer.status_value !! st) as [x|]; [|discriminate].
      intros [= _ <-].
      intros [[<- _]|[_ Hk]]%lookup_insert_Some; [right; reflexivity|].
      left. exact (create_system_keys _ _ _ Hk).
    + intros [= _ <-] Hk. left. exact (create_system_keys _ _ _ Hk).
  - unfold UnsetContainer.system_of, property_keys.
    revert k v.
    repeat (apply (reset_if_bound (fun k v => k ∈ _ ∧ v = ""));
            [|split; [set_solver | reflexivity]]).
    intros k v E. rewrite lookup_empty in E. discriminate E.
Qed.

Lemma system_maps_bind_known_keys_witness :
  let a := {| SetContainer.target := ContainerCommandMixin.parsed "c" false;
              SetContainer.property := Some {[ "color" := "blue" ]};
              SetContainer.quota := Some 10;
              SetContainer.storage_policy := None;
              SetContainer.max_versions := None;
              SetContainer.delete_exceeding_versions := None;
              SetContainer.bucket_name := None;
              SetContainer.clear := false;
              SetContainer.status := Some "frozen" |} in
  let u := {| UnsetContainer.target := ContainerCommandMixin.parsed "c" false;
              UnsetContainer.bucket_name := false;
              UnsetContainer.property := [];
              UnsetContainer.storage_policy := false;
              UnsetContainer.max_versions := false;
              UnsetContainer.quota := true;
              UnsetContainer.delete_exceeding_versions := false |} in
  ("sys.status" ∈ property_keys (H := Fake.env) ∨ "sys.status" = "sys.status")
  ∧ ("sys.m2.quota" ∈ property_keys (H := Fake.env) ∧ "" = "").
Proof.
  intros a u.
  destruct (system_maps_bind_known_keys (H := Fake.env)
              (as_create a) a u (Fake.holding ["c"], [])
              (Fake.holding ["c"], [])
              {[ "sys.m2.quota" := "10"; "sys.status" := "4294967295" ]}
              "sys.status" "4294967295") as (_ & Hset & _).
  destruct (system_maps_bind_known_keys (H := Fake.env)
              (as_create a) a u (Fake.holding ["c"], [])
              (Fake.holding ["c"], []) ∅ "sys.m2.quota" "")
    as (_ & _ & Hunset).
  split; [exact (Hset eq_refl eq_refl) | exact (Hunset eq_refl)].
Defined.

(** ** Commands that resolve a CID *)

(** X3.  With [--cid], [container flush], [container refresh] and
    [container snapshot] first call [resolve_cid]; when this call raises,
    the command raises the same exception and the operation itself is
    never called. *)
Theorem resolve_failure_aborts `{Env} (given : string) (quick : bool)
    (a : SnapshotContainer.args) (s s1 : St) (e : exn) (log : list call) :
  SnapshotContainer.target a = ContainerCommandMixin.parsed given true ->
  storage (resolve_cid given) s = (s1, inl e) ->
  FlushContainer.take_action
    {| FlushContainer.target := ContainerCommandMixin.parsed given true;
       FlushContainer.quick := quick |} (s, log) =
    ((s1, log ++ [resolve_cid given]), inl e)
  ∧ RefreshContainer.take_action
      {| RefreshContainer.target := ContainerCommandMixin.parsed given true |}
      (s, log) =
    ((s1, log ++ [resolve_cid given]), inl e)
  ∧ SnapshotContainer.take_action a (s, log) =
    ((s1, log ++ [resolve_cid given]), inl e).
Proof.
  intros Ht R. repeat split.
  - unfold FlushContainer.take_action. simpl.
    unfold bind. rewrite (invoke_raises _ _ _ _ _ R). reflexivity.
  - unfold RefreshContainer.take_action. simpl.
    unfold bind. rewrite (invoke_raises _ _ _ _ _ R). reflexivity.
  - unfold SnapshotContainer.take_action. rewrite Ht. simpl.
    unfold bind. rewrite (invoke_raises _ _ _ _ _ R). reflexivity.
Qed.

Lemma resolve_failure_aborts_witness :
  let a := {| SnapshotContainer.target :=
                ContainerCommandMixin.parsed "0BAD" true;
              SnapshotContainer.dst_account := None;
              SnapshotContainer.dst_container := None;
              SnapshotContainer.chunk_batch_size := PyInt 100;
              SnapshotContainer.timeout := 60 |} in
  let s := Fake.holding ["photos"] in
  SnapshotContainer.take_action (H := Fake.env) a (s, []) =
    ((s, [resolve_cid "0BAD"]), inl (NoSuchContainer "0BAD")).
Proof.
  intros a s.
  exact (proj2 (proj2 (resolve_failure_aborts (H := Fake.env) "0BAD" false a
                         s s (NoSuchContainer "0BAD") [] eq_refl eq_refl))).
Defined.

Lemma snapshot_run `{Env} (a : SnapshotContainer.args)
    (given : string) (is_cid : bool) (s s1 : St) (acct name : string)
    (cs : list call) (log : list call) :
  SnapshotContainer.target a = ContainerCommandMixin.parsed given is_cid ->
  resolved given is_cid s acct name s1 cs ->
  snd (fst (SnapshotContainer.take_action a (s, log))) =
    log ++ cs ++
    [container_snapshot acct (Some name)
       (or_else (SnapshotContainer.dst_account a) acct)
       (or_else (SnapshotContainer.dst_container a)
          (name +:+ "-" +:+ Timestamp_normal))
       (SnapshotContainer.chunk_batch_size a)
       (timeout_to_deadline (SnapshotContainer.timeout a))].
Proof.
  intros Ht R.
  unfold SnapshotContainer.take_action. rewrite Ht.
  assert (Hd :
    match SnapshotContainer.dst_container a with
    | Some d =>
        if String.eqb d ""
        then SnapshotContainer.default_dst_container (Some name)
        else ret d
    | None => SnapshotContainer.default_dst_container (Some name)
    end = ret (or_else (SnapshotContainer.dst_container a)
                 (name +:+ "-" +:+ Timestamp_normal))).
  { unfold or_else, SnapshotContainer.default_dst_container.
    destruct (SnapshotContainer.dst_container a) as [d|]; [|reflexivity].
    destruct (String.eqb d ""); reflexivity. }
  destruct is_cid; simpl in R |- *.
  - destruct R as (Hr & ->). unfold bind at 1. unfold bind at 1.
    rewrite invoke_eq, Hr. cbn [ret fst snd].
    unfold bind at 1. rewrite Hd. cbn [ret]. unfold bind at 1.
    rewrite invoke_eq.
    match goal with
    | |- context [storage ?c s1] =>
        destruct (storage c s1) as [s2 [e|[]]]
    end; cbn [fst snd]; rewrite <- ?app_assoc; reflexivity.
  - destruct R as (-> & -> & -> & ->). unfold bind at 1. cbn [ret fst snd].
    unfold bind at 1. rewrite Hd. cbn [ret]. unfold bind at 1.
    rewrite invoke_eq.
    match goal with
    | |- context [storage ?c s] =>
        destruct (storage c s) as [s2 [e|[]]]
    end; reflexivity.
Qed.

(** X4.  [container snapshot] passes a destination account and a
    destination container that are given and not empty as they are; given
    as the empty string, they count as not given: the destination account
    is the source account and the destination container is the source name,
    a dash and the timestamp. *)
Theorem snapshot_destination_given `{Env} (a : SnapshotContainer.args)
    (given : string) (is_cid : bool) (s s1 : St) (acct name : string)
    (cs : list call) (log : list call) :
  SnapshotContainer.target a = ContainerCommandMixin.parsed given is_cid ->
  resolved given is_cid s acct name s1 cs ->
  ∃ dst_acct dst_cont,
    snd (fst (SnapshotContainer.take_action a (s, log))) =
      log ++ cs ++
      [container_snapshot acct (Some name) dst_acct dst_cont
         (SnapshotContainer.chunk_batch_size a)
         (timeout_to_deadline (SnapshotContainer.timeout a))]
    ∧ (∀ d, SnapshotContainer.dst_account a = Some d -> d ≠ "" ->
            dst_acct = d)
    ∧ (SnapshotContainer.dst_account a = Some "" -> dst_acct = acct)
    ∧ (∀ d, SnapshotContainer.dst_container a = Some d -> d ≠ "" ->
            dst_cont = d)
    ∧ (SnapshotContainer.dst_container a = Some "" ->
       dst_cont = name +:+ "-" +:+ Timestamp_normal).
Proof.
  intros Ht R. eexists _, _. split; [exact (snapshot_run _ _ _ _ _ _ _ _ _ Ht R)|].
  repeat split.
  - intros d -> Hd. unfold or_else.
    destruct (String.eqb_spec d ""); [contradiction | reflexivity].
  - intros ->. reflexivity.
  - intros d -> Hd. unfold or_else.
    destruct (String.eqb_spec d ""); [contradiction | reflexivity].
  - intros ->. reflexivity.
Qed.

Lemma snapshot_destination_given_witness :
  let a := {| SnapshotContainer.target :=
                ContainerCommandMixin.parsed "photos" false;
              SnapshotContainer.dst_account := Some "backup";
              SnapshotContainer.dst_container := Some "";
              SnapshotContainer.chunk_batch_size := PyStr "50";
              SnapshotContainer.timeout := 60 |} in
  let s := Fake.holding ["photos"] in
  ∃ dst_acct dst_cont,
    snd (fst (SnapshotContainer.take_action (H := Fake.env) a (s, []))) =
      [container_snapshot "myaccount" (Some "photos") dst_acct dst_cont
         (PyStr "50") 60]
    ∧ dst_acct = "backup"
    ∧ dst_cont = "photos-1600000000.00000".
Proof.
  intros a s.
  destruct (snapshot_destination_given (H := Fake.env) a "photos" false s s
              "myaccount" "photos" [] [] eq_refl
              (conj eq_refl (conj eq_refl (conj eq_refl eq_refl))))
    as (da & dc & Hlog & Ha & _ & _ & Hc).
  exists da, dc. split; [exact Hlog|].
  split; [apply (Ha "backup" eq_refl); discriminate | exact (Hc eq_refl)].
Defined.

(** ** [container list] *)

Lemma set_if_truthy_lookup (key : string) (o : option string)
    (d : gmap string string) (k : string) :
  set_if_truthy key o d !! k =
  if decide (k = key) then
    match forwarded o with Some v => Some v | None => d !! k end
  else d !! k.
Proof.
  unfold set_if_truthy, forwarded.
  destruct o as [v|]; [destruct (truthy (Some v))|];
    case_decide; subst; simplify_map_eq; reflexivity.
Qed.

Lemma list_kwargs_lookup `{Env} (a : ListContainer.args) :
  let kw := ListContainer.kwargs_of a in
  kw !! "prefix" = forwarded (ListContainer.prefix a)
  ∧ kw !! "marker" = forwarded (ListContainer.marker a)
  ∧ kw !! "end_marker" = forwarded (ListContainer.end_marker a)
  ∧ kw !! "delimiter" = forwarded (ListContainer.delimiter a)
  ∧ kw !! "limit" = forwarded (ListContainer.limit a)
  ∧ ∀ k, k ∉ ["prefix"; "marker"; "end_marker"; "delimiter"; "limit"] ->
         kw !! k = None.
Proof.
  unfold ListContainer.kwargs_of. cbv zeta.
  repeat (split;
          [ rewrite !set_if_truthy_lookup;
            repeat case_decide; try congruence;
            repeat (destruct (forwarded _)); reflexivity |]).
  intros k Hk. rewrite !set_if_truthy_lookup.
  repeat (case_decide; [subst; exfalso; apply Hk; set_solver|]).
  apply lookup_empty.
Qed.

Lemma bucket_kwargs_lookup `{Env} (b : ListBuckets.args) :
  let kw := ListBuckets.kwargs_of b in
  kw !! "reqid" = Some (request_id "CLI-BUCKET-")
  ∧ kw !! "prefix" = forwarded (ListBuckets.prefix b)
  ∧ kw !! "marker" = forwarded (ListBuckets.marker b)
  ∧ kw !! "limit" = forwarded (ListBuckets.limit b)
  ∧ ∀ k, k ∉ ["reqid"; "prefix"; "marker"; "limit"] -> kw !! k = None.
Proof.
  unfold ListBuckets.kwargs_of. cbv zeta.
  repeat (split;
          [ rewrite !set_if_truthy_lookup;
            repeat case_decide; try congruence;
            repeat (destruct (forwarded _)); reflexivity |]).
  intros k Hk. rewrite !set_if_truthy_lookup.
  repeat (case_decide; [subst; exfalso; apply Hk; set_solver|]).
  rewrite lookup_insert_ne; [apply lookup_empty|].
  intros <-. apply Hk. set_solver.
Qed.

Lemma full_list_eq `{Env} (fuel : nat) (kw : gmap string string) (s : St)
    (log : list call) :
  ListContainer.full_list fuel kw (s, log) =
  match storage (container_list account kw) s with
  | (s1, inl e) => ((s1, log ++ [container_list account kw]), inl e)
  | (s1, inr p) =>
      match fuel, last p with
      | O, _ => ((s1, log ++ [container_list account kw]), inr None)
      | S _, None =>
          ((s1, log ++ [container_list account kw]), inr (Some (p ++ [])))
      | S fuel', Some x =>
          match ListContainer.full_list fuel' (<["marker" := e_name x]> kw)
                  (s1, log ++ [container_list account kw]) with
          | (w', inr rest) => (w', inr (app p <$> rest))
          | (w', inl e) => (w', inl e)
          end
      end
  end.
Proof.
  unfold ListContainer.full_list at 1. unfold bind at 1. rewrite invoke_eq.
  destruct (storage (container_list account kw) s) as [s1 [e|p]];
    [reflexivity|].
  destruct fuel as [|fuel']; [reflexivity|].
  destruct (last p) as [x|] eqn:Hl.
  - rewrite (full_list_while_next _ _ _ _ Hl). unfold bind at 1.
    destruct (ListContainer.full_list fuel' _ _) as [w' [e|rest]]; reflexivity.
  - simpl. rewrite Hl. reflexivity.
Qed.

Lemma full_list_endless `{Env} :
  (∀ kw s, ∃ s' p x,
      storage (container_list account kw) s = (s', inr p) ∧ last p = Some x) ->
  ∀ fuel kw s log,
    snd (ListContainer.full_list fuel kw (s, log)) = inr None
    ∧ length (snd (fst (ListContainer.full_list fuel kw (s, log)))) =
      (length log + S fuel)%nat.
Proof.
  intros Hnever. induction fuel as [|fuel IH]; intros kw s log;
    rewrite full_list_eq;
    destruct (Hnever kw s) as (s1 & p & x & -> & Hl).
  - cbn [fst snd]. rewrite length_app. simpl. split; [reflexivity | lia].
  - rewrite Hl.
    destruct (IH (<["marker" := e_name x]> kw) s1
                (log ++ [container_list account kw])) as (Hr & Hn).
    destruct (ListContainer.full_list fuel _ _) as [w' [e|rest]];
      cbn [fst snd] in *; [discriminate Hr|].
    injection Hr as ->. split; [reflexivity|].
    rewrite Hn, length_app. simpl. lia.
Qed.

(** X6.  [container list --no-paging] has no bound of its own: against a
    client that never answers an empty page (and never raises) the loop
    does not end.  Whatever number of iterations it is allowed, it has then
    not produced its listing and has made one [container_list] call more
    than this number. *)
Theorem full_listing_never_ends `{Env} (a : ListContainer.args) (fuel : nat)
    (s : St) (log : list call) :
  (∀ kw s, ∃ s' p x,
      storage (container_list account kw) s = (s', inr p) ∧ last p = Some x) ->
  ListContainer.full_listing a = true ->
  snd (ListContainer.take_action fuel a (s, log)) = inr None
  ∧ length (snd (fst (ListContainer.take_action fuel a (s, log)))) =
    (length log + S fuel)%nat.
Proof.
  intros Hnever Hfull.
  destruct (full_list_endless Hnever fuel (ListContainer.kwargs_of a) s log)
    as (Hr & Hn).
  unfold ListContainer.take_action, bind. rewrite Hfull.
  destruct (ListContainer.full_list fuel _ _) as [w' [e|rest]];
    cbn [fst snd] in *; [discriminate Hr|].
  injection Hr as ->. split; [reflexivity | exact Hn].
Qed.

Lemma full_listing_never_ends_witness :
  let a := {| ListContainer.prefix := None;
              ListContainer.delimiter := None;
              ListContainer.marker := None;
              ListContainer.end_marker := None;
              ListContainer.limit := None;
              ListContainer.full_listing := true |} in
  snd (ListContainer.take_action (H := Endless.env) 7 a (Fake.holding [], []))
    = inr None
  ∧ length (snd (fst (ListContainer.take_action (H := Endless.env) 7 a
                        (Fake.holding [], [])))) = 8%nat.
Proof.
  intros a.
  apply (full_listing_never_ends (H := Endless.env) a 7 (Fake.holding []) []);
    [|reflexivity].
  intros kw s. exists s, Endless.page.
  eexists. split; reflexivity.
Defined.

Lemma full_list_marker_only `{Env} (fuel : nat) (kw : gmap string string)
    (s : St) (log : list call) :
  ∃ new,
    snd (fst (ListContainer.full_list fuel kw (s, log))) =
      log ++ container_list account kw :: new
    ∧ Forall (fun c => ∃ m, c = container_list account (<["marker" := m]> kw))
        new.
Proof.
  revert kw s log. induction fuel as [|fuel IH]; intros kw s log;
    rewrite full_list_eq;
    destruct (storage (container_list account kw) s) as [s1 [e|p]];
    try (exists []; split; [reflexivity | constructor]).
  destruct (last p) as [x|];
    [|exists []; split; [reflexivity | constructor]].
  destruct (IH (<["marker" := e_name x]> kw) s1
              (log ++ [container_list account kw])) as (new & Hlog & Hall).
  exists (container_list account (<["marker" := e_name x]> kw) :: new).
  split.
  - destruct (ListContainer.full_list fuel _ _) as [w' [e|rest]];
      cbn [fst snd] in *; rewrite Hlog, <- app_assoc; reflexivity.
  - constructor; [eexists; reflexivity|].
    eapply Forall_impl; [exact Hall|].
    intros c (m & ->). exists m. rewrite insert_insert_eq. reflexivity.
Qed.

(** X7.  Whatever the client does, [container list] first calls
    [container_list] with the filters of the command line, and every later
    call of a full listing carries these same filters with only the marker
    replaced; without [--no-paging] there is no later call. *)
Theorem listing_moves_the_marker_only `{Env} (a : ListContainer.args)
    (fuel : nat) (s : St) (log : list call) :
  ∃ new,
    snd (fst (ListContainer.take_action fuel a (s, log))) =
      log ++ container_list account (ListContainer.kwargs_of a) :: new
    ∧ Forall (fun c =>
                ∃ m, c = container_list account
                           (<["marker" := m]> (ListContainer.kwargs_of a)))
        new
    ∧ (ListContainer.full_listing a = false -> new = []).
Proof.
  unfold ListContainer.take_action, bind.
  destruct (ListContainer.full_listing a).
  - destruct (full_list_marker_only fuel (ListContainer.kwargs_of a) s log)
      as (new & Hlog & Hall).
    exists new. split; [|split; [exact Hall | discriminate]].
    destruct (ListContainer.full_list fuel _ _) as [w' [e|rest]]; exact Hlog.
  - exists []. split; [|split; [constructor | reflexivity]].
    rewrite invoke_eq.
    destruct (storage _ s) as [s1 [e|p]]; reflexivity.
Qed.

Lemma list_first_call `{Env} (a : ListContainer.args) (fuel : nat) (s : St)
    (log : list call) :
  ∃ new,
    snd (fst (ListContainer.take_action fuel a (s, log))) =
      log ++ container_list account (ListContainer.kwargs_of a) :: new.
Proof.
  unfold ListContainer.take_action, bind.
  destruct (ListContainer.full_listing a).
  - destruct (full_list_marker_only fuel (ListContainer.kwargs_of a) s log)
      as (new & Hlog & _).
    exists new.
    destruct (ListContainer.full_list fuel _ _) as [w' [e|rest]]; exact Hlog.
  - exists []. rewrite invoke_eq.
    destruct (storage _ s) as [s1 [e|p]]; reflexivity.
Qed.

(** X5.  The listing commands forward a filter to the client only when it
    is given and not empty.  The first [container_list] call of [container
    list] carries [prefix], [marker], [end_marker], [delimiter] and [limit]
    under these names and nothing else.  [bucket list] passes [prefix],
    [marker], [limit], always a [reqid], and nothing else: to its one
    [bucket_list] call, or with [--no-paging] to [depaginate], whose
    generator it returns without a call of its own. *)
Theorem listing_filters_forwarded `{Env} (a : ListContainer.args)
    (b : ListBuckets.args) (fuel : nat) (s : St) (log : list call) :
  (∃ kw new,
     snd (fst (ListContainer.take_action fuel a (s, log))) =
       log ++ container_list account kw :: new
     ∧ kw !! "prefix" = forwarded (ListContainer.prefix a)
     ∧ kw !! "marker" = forwarded (ListContainer.marker a)
     ∧ kw !! "end_marker" = forwarded (ListContainer.end_marker a)
     ∧ kw !! "delimiter" = forwarded (ListContainer.delimiter a)
     ∧ kw !! "limit" = forwarded (ListContainer.limit a)
     ∧ ∀ k, k ∉ ["prefix"; "marker"; "end_marker"; "delimiter"; "limit"] ->
            kw !! k = None)
  ∧ (∃ kw,
       (if ListBuckets.full_listing b then
          ∃ columns,
            ListBuckets.take_action b (s, log) =
              ((s, log),
               inr (columns,
                    gen_for
                      (if ListBuckets.versioning_flag b
                       then ListBuckets.enrich kw
                              (depaginate_bucket_list account kw)
                       else depaginate_bucket_list account kw)
                      (ListBuckets.row_of columns)))
        else
          snd (fst (ListBuckets.take_action b (s, log))) =
            log ++ [bucket_list account kw])
       ∧ kw !! "reqid" = Some (request_id "CLI-BUCKET-")
       ∧ kw !! "prefix" = forwarded (ListBuckets.prefix b)
       ∧ kw !! "marker" = forwarded (ListBuckets.marker b)
       ∧ kw !! "limit" = forwarded (ListBuckets.limit b)
       ∧ ∀ k, k ∉ ["reqid"; "prefix"; "marker"; "limit"] -> kw !! k = None).
Proof.
  split.
  - destruct (list_first_call a fuel s log) as (new & Hlog).
    exists (ListContainer.kwargs_of a), new.
    split; [exact Hlog | exact (list_kwargs_lookup a)].
  - exists (ListBuckets.kwargs_of b).
    split; [|exact (bucket_kwargs_lookup b)].
    unfold ListBuckets.take_action.
    destruct (ListBuckets.full_listing b).
    + eexists. unfold bind, ret. reflexivity.
    + unfold bind. rewrite invoke_eq.
      destruct (storage _ s) as [s1 [e|page]]; reflexivity.
Qed.

Lemma full_list_paging_fails `{Env} (kw : gmap string string) (s s' : St)
    (pages : list (list entry)) (cs : list call) (e : exn) :
  paging_fails kw s pages cs e s' ->
  ∀ fuel log, (length pages <= fuel)%nat ->
    ListContainer.full_list fuel kw (s, log) = ((s', log ++ cs), inl e).
Proof.
  induction 1 as [kw s s' e Hc | kw s p s1 x ps cs e s' Hc Hl _ IH];
    intros fuel log Hfuel; rewrite full_list_eq, Hc; [reflexivity|].
  destruct fuel as [|fuel]; [simpl in Hfuel; lia|].
  rewrite Hl, IH by (simpl in Hfuel; lia).
  rewrite <- app_assoc. reflexivity.
Qed.

(** X8.  When a [container_list] call of a full listing raises, after pages
    that were not empty, [container list --no-paging] raises the same
    exception; it has made the calls up to the failed one and makes no
    other. *)
Theorem full_listing_failure_propagates `{Env} (a : ListContainer.args)
    (s s' : St) (pages : list (list entry)) (cs log : list call) (e : exn)
    (fuel : nat) :
  ListContainer.full_listing a = true ->
  paging_fails (ListContainer.kwargs_of a) s pages cs e s' ->
  (length pages <= fuel)%nat ->
  ListContainer.take_action fuel a (s, log) = ((s', log ++ cs), inl e)
  ∧ length cs = S (length pages).
Proof.
  intros Hfull P Hfuel. split.
  - unfold ListContainer.take_action, bind.
    rewrite Hfull, (full_list_paging_fails _ _ _ _ _ _ P fuel log Hfuel).
    reflexivity.
  - clear Hfuel. induction P; simpl; congruence.
Qed.

Lemma full_listing_failure_propagates_witness :
  let E n := {| e_name := n; e_count := 1; e_bytes := 2; e_isdir := false;
                e_mtime := 3 |} in
  let script ps := {| Fake.table := ∅; Fake.pages := ps; Fake.buckets := [] |} in
  let a := {| ListContainer.prefix := Some "p";
              ListContainer.delimiter := None;
              ListContainer.marker := None;
              ListContainer.end_marker := None;
              ListContainer.limit := None;
              ListContainer.full_listing := true |} in
  ListContainer.take_action (H := Flaky.env) 1 a
    (script [[E "a"; E "b"]], []) =
    ((script [],
      [container_list "myaccount" {[ "prefix" := "p" ]};
       container_list "myaccount" {[ "prefix" := "p"; "marker" := "b" ]}]),
     inl Flaky.busy).
Proof.
  intros E script a.
  refine (proj1 (full_listing_failure_propagates (H := Flaky.env) a
                   (script [[E "a"; E "b"]]) (script [])
                   [[E "a"; E "b"]] _ [] Flaky.busy 1%nat eq_refl _ _)).
  - eapply (paging_then (H := Flaky.env)) with (x := E "b");
      [reflexivity | reflexivity |].
    apply (paging_raises (H := Flaky.env)). reflexivity.
  - simpl. lia.
Defined.

(** ** [bucket list] *)

Lemma bucket_plain_row `{Env} (v : bucket) (name b o m : pyval) (w : world) :
  v !! "name" = Some name ->
  v !! "bytes" = Some b ->
  v !! "objects" = Some o ->
  v !! "mtime" = Some m ->
  ListBuckets.row_of ["Name"; "Bytes"; "Objects"; "Mtime"] v w =
    (w, inr [name; b; o; m]).
Proof.
  intros Hn Hb Ho Hm.
  unfold ListBuckets.row_of. cbn [for_acc].
  change (lower "Name") with "name". change (lower "Bytes") with "bytes".
  change (lower "Objects") with "objects". change (lower "Mtime") with "mtime".
  unfold bind, subscript. rewrite Hn, Hb, Ho, Hm. reflexivity.
Qed.

Lemma bucket_plain_rows `{Env} (l : list bucket) (rows : list (list pyval))
    (w : world) :
  Forall2 (fun v row =>
             ∃ name b o m,
               v !! "name" = Some name ∧ v !! "bytes" = Some b
               ∧ v !! "objects" = Some o ∧ v !! "mtime" = Some m
               ∧ row = [name; b; o; m]) l rows ->
  drain (gen_for (iter l)
           (ListBuckets.row_of ["Name"; "Bytes"; "Objects"; "Mtime"])) w =
    (w, inr rows).
Proof.
  induction 1 as [|v row l rows (name & b & o & m & Hn & Hb & Ho & Hm & ->)
                    _ IH];
    rewrite drain_eq, next_gen_for; cbn [iter next]; [reflexivity|].
  rewrite (bucket_plain_row v name b o m w Hn Hb Ho Hm), IH. reflexivity.
Qed.

(** X9.  Without [--versioning] and without [--no-paging], [bucket list]
    makes one client call, [bucket_list]; producing the rows makes no
    further call (no property is fetched), and each bucket of the answer
    gives the row of its name, bytes, objects and mtime, in the order of
    the answer. *)
Theorem bucket_list_without_versioning `{Env} (a : ListBuckets.args)
    (s s1 : St) (log : list call) (page : bucket_page)
    (rows : list (list pyval)) :
  ListBuckets.versioning_flag a = false ->
  ListBuckets.full_listing a = false ->
  storage (bucket_list account (ListBuckets.kwargs_of a)) s = (s1, inr page) ->
  Forall2 (fun v row =>
             ∃ name b o m,
               v !! "name" = Some name ∧ v !! "bytes" = Some b
               ∧ v !! "objects" = Some o ∧ v !! "mtime" = Some m
               ∧ row = [name; b; o; m]) (listing page) rows ->
  let w1 := (s1, log ++ [bucket_list account (ListBuckets.kwargs_of a)]) in
  ∃ g,
    ListBuckets.take_action a (s, log) =
      (w1, inr (["Name"; "Bytes"; "Objects"; "Mtime"], g))
    ∧ drain g w1 = (w1, inr rows).
Proof.
  intros Hv Hfull Hpage Hrows w1.
  eexists. split.
  - unfold ListBuckets.take_action, bind. rewrite Hv, Hfull.
    rewrite (invoke_ok _ _ _ _ _ Hpage). reflexivity.
  - apply bucket_plain_rows, Hrows.
Qed.

Lemma bucket_list_without_versioning_witness :
  let B (n : string) : bucket :=
    <["name" := PyStr n]>
      (<["bytes" := PyInt 1]>
         (<["objects" := PyInt 2]> (<["mtime" := PyInt 3]> ∅))) in
  let bk := {| Fake.table := ∅; Fake.pages := [];
               Fake.buckets := [B "b1"; B "b2"] |} in
  let a := {| ListBuckets.prefix := Some "b";
              ListBuckets.marker := None;
              ListBuckets.limit := Some "";
              ListBuckets.full_listing := false;
              ListBuckets.versioning_flag := false |} in
  let R (n : string) := [PyStr n; PyInt 1; PyInt 2; PyInt 3] in
  let L := bucket_list "myaccount"
             {[ "reqid" := "CLI-BUCKET-0001"; "prefix" := "b" ]} in
  ∃ g,
    ListBuckets.take_action (H := Fake.env) a (bk, []) =
      ((bk, [L]), inr (["Name"; "Bytes"; "Objects"; "Mtime"], g))
    ∧ drain g (bk, [L]) = ((bk, [L]), inr [R "b1"; R "b2"]).
Proof.
  intros B bk a R L.
  apply (bucket_list_without_versioning (H := Fake.env) a bk bk []
           {| listing := [B "b1"; B "b2"]; truncated := false;
              next_marker := None |}
           [R "b1"; R "b2"] eq_refl eq_refl eq_refl).
  repeat constructor;
    eexists _, _, _, _; repeat split; reflexivity.
Defined.

Lemma bucket_rows_generator `{Env} (a : ListBuckets.args) (s s1 : St)
    (g : gen world bucket) (cs log : list call) :
  ListBuckets.versioning_flag a = true ->
  listing_source a s g s1 cs ->
  ListBuckets.take_action a (s, log) =
    ((s1, log ++ cs),
     inr (bucket_columns,
          gen_for (ListBuckets.enrich (ListBuckets.kwargs_of a) g)
            (ListBuckets.row_of bucket_columns))).
Proof.
  intros Hv Hsrc.
  unfold ListBuckets.take_action, listing_source in *. rewrite Hv.
  destruct (ListBuckets.full_listing a).
  - destruct Hsrc as (-> & -> & ->). rewrite app_nil_r. reflexivity.
  - destruct Hsrc as (page & Hpage & -> & ->).
    unfold bind. rewrite (invoke_ok _ _ _ _ _ Hpage). reflexivity.
Qed.

(** X10.  With [--versioning], only [NoSuchContainer] is turned into a
    column.  When the property fetch of a bucket raises another exception,
    when its answer has no ['system'] entry (KeyError) or when the
    versioning policy is not an integer literal (ValueError), the production
    of the rows raises this exception at this bucket, after the rows of the
    buckets before it, and no later bucket is fetched. *)
Theorem bucket_versioning_failure_stops `{Env} (a : ListBuckets.args)
    (s s1 : St) (g : gen world bucket) (cs log : list call)
    (items : list item) (e : exn) (w' : world) :
  ListBuckets.versioning_flag a = true ->
  listing_source a s g s1 cs ->
  enriched_until (request_id "CLI-BUCKET-") g (s1, log ++ cs) items e w' ->
  ∃ rows,
    ListBuckets.take_action a (s, log) =
      ((s1, log ++ cs), inr (bucket_columns, rows))
    ∧ drain rows (s1, log ++ cs) = (w', inl e).
Proof.
  intros Hv Hsrc Hrun. eexists. split.
  - exact (bucket_rows_generator a s s1 g cs log Hv Hsrc).
  - exact (enriched_until_raises _ (request_id "CLI-BUCKET-") g _ _ items e
             (bucket_kwargs_reqid a) Hrun).
Qed.

Lemma bucket_versioning_failure_stops_witness :
  let B (n : string) : bucket :=
    <["name" := PyStr n]>
      (<["bytes" := PyInt 1]>
         (<["objects" := PyInt 2]> (<["mtime" := PyInt 3]> ∅))) in
  let bk :=
    {| Fake.table := <["b1" := {[ "sys.m2.policy.version" := "2" ]}]> ∅;
       Fake.pages := [];
       Fake.buckets := [B "b1"; B "down"; B "b3"] |} in
  let a := {| ListBuckets.prefix := None;
              ListBuckets.marker := None;
              ListBuckets.limit := None;
              ListBuckets.full_listing := false;
              ListBuckets.versioning_flag := true |} in
  let F (n : string) :=
    container_get_properties "myaccount" (PyStr n) "CLI-BUCKET-0001" in
  let L := bucket_list "myaccount" {[ "reqid" := "CLI-BUCKET-0001" ]} in
  ∃ rows,
    ListBuckets.take_action (H := Flaky.env) a (bk, []) =
      ((bk, [L]), inr (bucket_columns, rows))
    ∧ drain rows (bk, [L]) = ((bk, [L; F "b1"; F "down"]), inl Flaky.busy).
Proof.
  intros B bk a F L.
  assert (Hsrc : listing_source (H := Flaky.env) a bk
                   (iter [B "b1"; B "down"; B "b3"]) bk [L]).
  { eexists. split; [reflexivity|]. split; reflexivity. }
  assert (Hrun : enriched_until (H := Flaky.env) "CLI-BUCKET-0001"
                   (iter [B "b1"; B "down"; B "b3"]) (bk, [] ++ [L])
                   [ Item (B "b1") (PyStr "b1")
                       (inr {[ "system" := {[ "sys.m2.policy.version" := "2" ]};
                               "properties" := ∅ ]})
                       "Enabled"
                       [PyStr "b1"; PyInt 1; PyInt 2; PyInt 3;
                        PyStr "Enabled"] ]
                   Flaky.busy
                   (bk, (([] ++ [L]) ++ [F "b1"]) ++ [F "down"])).
  { eapply (until_later (H := Flaky.env));
      [reflexivity | reflexivity | reflexivity | reflexivity | reflexivity
      | reflexivity
      | eapply (column_other (H := Flaky.env) _ _ _ 2);
          [reflexivity | reflexivity | reflexivity | discriminate] |].
    eapply (until_here (H := Flaky.env)) with (w1 := (bk, ([] ++ [L]) ++ [F "b1"]))
                                              (out := inl Flaky.busy);
      [reflexivity | reflexivity | reflexivity |].
    apply (no_column_raised (H := Flaky.env)). discriminate. }
  exact (bucket_versioning_failure_stops (H := Flaky.env) a bk bk _ [L] []
           _ Flaky.busy _ eq_refl Hsrc Hrun).
Defined.

(** ** The sorted output of the commands that show *)

Lemma invoke2_eq `{Env2} (c : Client2.call) (s : St)
    (log : list Client2.call) :
  invoke2 c (s, log) =
    (let '(s', r) := storage2 c s in ((s', log ++ [c]), r)).
Proof. reflexivity. Qed.

Lemma sorted_items_perm {V : Type} (d : gmap string V) :
  sorted_items d ≡ₚ map_to_list d.
Proof. apply sorting.merge_sort_Permutation. Qed.

Lemma sorted_items_keys {V : Type} (d : gmap string V) :
  increasing (sorted_items d).*1.
Proof.
  assert (Hs : Sorted.StronglySorted (fun x y : string * V => String.le x.1 y.1)
                 (sorted_items d)).
  { apply sorting.StronglySorted_merge_sort.
    - intros x y z Hxy Hyz. etrans; eassumption.
    - intros x y. apply (total String.le). }
  assert (Hn : NoDup (sorted_items d).*1).
  { rewrite (sorted_items_perm d). apply NoDup_fst_map_to_list. }
  unfold increasing. induction Hs as [|x l _ IH Hx]; [constructor|].
  rewrite fmap_cons in Hn |- *. apply NoDup_cons in Hn as [Hx' Hn].
  constructor; [exact (IH Hn)|].
  apply Forall_fmap. rewrite Forall_forall in Hx |- *.
  intros y Hy. split; [exact (Hx y Hy)|].
  intros E. apply Hx'. rewrite E. apply list_elem_of_fmap. eauto.
Qed.

Lemma sorted_output {V : Type} (d : gmap string V) :
  prints (zip_star (sorted_items d)) d.
Proof.
  pose proof (sorted_items_perm d) as Hp.
  pose proof (sorted_items_keys d) as Hk.
  unfold prints, zip_star.
  destruct (sorted_items d) as [|x l] eqn:E.
  - symmetry in Hp. apply Permutation_nil_r in Hp.
    apply map_to_list_empty_iff, Hp.
  - repeat split.
    + intros ->. rewrite map_to_list_empty in Hp.
      apply Permutation_nil_r in Hp. discriminate Hp.
    + rewrite !length_fmap. reflexivity.
    + exact Hk.
    + rewrite zip_fst_snd, <- (list_to_map_to_list d).
      apply list_to_map_proper; [|exact Hp].
      clear -Hk. unfold increasing in Hk.
      induction Hk as [|k ks _ IH Hx]; constructor; [|exact IH].
      intros Hin. rewrite Forall_forall in Hx.
      destruct (Hx k Hin) as [_ Hne]. exact (Hne eq_refl).
Qed.

(** ** [bucket show] and [bucket set] *)

(** X11.  With a formatter other than [table], [bucket show] returns what
    [bucket_show] answered and nothing else: the keys of the answer in
    strictly increasing order, the values under their keys, and no tuple at
    all when the answer is empty.  The command has made this one call. *)
Theorem bucket_show_prints_the_answer `{Env2} (a : ShowBucket.args)
    (s s1 : St) (log : list Client2.call) (data : gmap string value) :
  ShowBucket.formatter a ≠ "table" ->
  storage2 (Client2.bucket_show (ShowBucket.bucket a)
              (request_id "CLI-BUCKET-")) s = (s1, inr data) ->
  ∃ out,
    ShowBucket.take_action a (s, log) =
      ((s1, log ++ [Client2.bucket_show (ShowBucket.bucket a)
                      (request_id "CLI-BUCKET-")]), inr out)
    ∧ prints out data.
Proof.
  intros Hf Hc. exists (zip_star (sorted_items data)).
  split; [|apply sorted_output].
  unfold ShowBucket.take_action. unfold bind2 at 1.
  rewrite invoke2_eq, Hc.
  destruct (String.eqb_spec (ShowBucket.formatter a) "table");
    [contradiction | reflexivity].
Qed.

Lemma bucket_show_prints_the_answer_witness :
  let data : gmap string value :=
    {[ "objects" := Scalar (PyInt 3); "bytes" := Scalar (PyInt 2048);
       "account" := Scalar (PyStr "myaccount") ]} in
  let E := Fake2.env ∅ ∅ ∅ data in
  let a := {| ShowBucket.bucket := "b"; ShowBucket.formatter := "json" |} in
  ∃ out,
    ShowBucket.take_action (H := E) a (Fake.holding [], []) =
      ((Fake.holding [], [Client2.bucket_show "b" "CLI-BUCKET-0001"]), inr out)
    ∧ prints out data.
Proof.
  intros data E a.
  exact (bucket_show_prints_the_answer (H := E) a (Fake.holding [])
           (Fake.holding []) [] data ltac:(discriminate) eq_refl).
Defined.

(** The same run, computed. *)
Example bucket_show_json :
  let data : gmap string value :=
    {[ "objects" := Scalar (PyInt 3); "bytes" := Scalar (PyInt 2048);
       "account" := Scalar (PyStr "myaccount") ]} in
  snd (ShowBucket.take_action (H := Fake2.env ∅ ∅ ∅ data)
         {| ShowBucket.bucket := "b"; ShowBucket.formatter := "json" |}
         (Fake.holding [], [])) =
    inr (Some (["account"; "bytes"; "objects"],
               [Scalar (PyStr "myaccount"); Scalar (PyInt 2048);
                Scalar (PyInt 3)])).
Proof. vm_compute. reflexivity. Qed.

Lemma bucket_table_eq `{Env2} (data : gmap string value) (w : world2) :
  bucket_table data w =
  match data !! "bytes" with
  | None => (w, inl (KeyError "bytes"))
  | Some b =>
      match convert_size b None with
      | inl e => (w, inl e)
      | inr bs =>
          match Timestamp_isoformat (default (Float 0) (data !! "mtime")) with
          | inl e => (w, inl e)
          | inr ms =>
              (w, inr (<["mtime" := Scalar (PyStr ms)]>
                         (<["bytes" := Scalar (PyStr bs)]> data)))
          end
      end
  end.
Proof.
  unfold bucket_table, bind2, subscript2, lift2.
  destruct (data !! "bytes") as [b|]; [|reflexivity]. cbn [ret2].
  destruct (convert_size b None) as [e|bs]; [reflexivity|].
  rewrite lookup_insert_ne by discriminate.
  destruct (Timestamp_isoformat _) as [e|ms]; reflexivity.
Qed.

(** X12.  With the [table] formatter, [bucket show] needs the ['bytes'] of
    the answer: when the answer has none the command raises KeyError, after
    its one call.  Otherwise it returns the answer with ['bytes'] replaced
    by its converted size and ['mtime'] replaced by the ISO form of the
    mtime, or of 0.0 when the answer has no mtime (the key is then added);
    the other keys are as in the answer. *)
Theorem bucket_show_table `{Env2} (a : ShowBucket.args)
    (s s1 : St) (log : list Client2.call) (data : gmap string value) :
  ShowBucket.formatter a = "table" ->
  storage2 (Client2.bucket_show (ShowBucket.bucket a)
              (request_id "CLI-BUCKET-")) s = (s1, inr data) ->
  let w1 := (s1, log ++ [Client2.bucket_show (ShowBucket.bucket a)
                           (request_id "CLI-BUCKET-")]) in
  (data !! "bytes" = None ->
   ShowBucket.take_action a (s, log) = (w1, inl (KeyError "bytes")))
  ∧ (∀ b bs ms,
       data !! "bytes" = Some b ->
       convert_size b None = inr bs ->
       Timestamp_isoformat (default (Float 0) (data !! "mtime")) = inr ms ->
       ∃ out,
         ShowBucket.take_action a (s, log) = (w1, inr out)
         ∧ prints out (<["mtime" := Scalar (PyStr ms)]>
                         (<["bytes" := Scalar (PyStr bs)]> data))).
Proof.
  intros Hf Hc w1.
  assert (E : ShowBucket.take_action a (s, log) =
              match bucket_table data w1 with
              | (w', inr d) => (w', inr (zip_star (sorted_items d)))
              | (w', inl e) => (w', inl e)
              end).
  { unfold ShowBucket.take_action. unfold bind2 at 1.
    rewrite invoke2_eq, Hc, Hf. reflexivity. }
  rewrite E, bucket_table_eq. split.
  - intros ->. reflexivity.
  - intros b bs ms -> -> ->. eexists. split; [reflexivity|].
    apply sorted_output.
Qed.

Lemma bucket_show_table_witness :
  let data : gmap string value :=
    {[ "objects" := Scalar (PyInt 3); "bytes" := Scalar (PyInt 2048) ]} in
  let E := Fake2.env ∅ ∅ ∅ data in
  let a := {| ShowBucket.bucket := "b"; ShowBucket.formatter := "table" |} in
  ∃ out,
    ShowBucket.take_action (H := E) a (Fake.holding [], []) =
      ((Fake.holding [], [Client2.bucket_show "b" "CLI-BUCKET-0001"]), inr out)
    ∧ prints out
        (<["mtime" := Scalar (PyStr "T0")]>
           (<["bytes" := Scalar (PyStr "2048")]> data)).
Proof.
  intros data E a.
  exact (proj2 (bucket_show_table (H := E) a (Fake.holding [])
                  (Fake.holding []) [] data eq_refl eq_refl)
           (Scalar (PyInt 2048)) "2048" "T0" eq_refl eq_refl eq_refl).
Defined.

(** X13.  [bucket set] makes one call, [bucket_update], whatever the client
    answers: with the metadata [{replication key: 'True'}] or [{...:
    'False'}] for [--replicate], with empty metadata when the flag is absent
    (the call is made all the same), and never with anything to delete. *)
Theorem bucket_set_metadata `{Env2} (a : SetBucket.args) (s : St)
    (log : list Client2.call) :
  ∃ metadata,
    snd (fst (SetBucket.take_action a (s, log))) =
      log ++ [Client2.bucket_update (SetBucket.bucket a) metadata None
                (request_id "CLI-BUCKET-")]
    ∧ metadata =
      match SetBucket.replicate a with
      | Some true => {[ BUCKET_PROP_REPLI_ENABLED := "True" ]}
      | Some false => {[ BUCKET_PROP_REPLI_ENABLED := "False" ]}
      | None => ∅
      end.
Proof.
  exists (SetBucket.metadata_of a). split.
  - unfold SetBucket.take_action. unfold bind2 at 1. rewrite invoke2_eq.
    destruct (storage2 _ s) as [s1 [e|data]]; [reflexivity|].
    unfold bind2.
    destruct (String.eqb (SetBucket.formatter a) "table");
      [|reflexivity].
    rewrite bucket_table_eq. repeat case_match; simplify_eq; reflexivity.
  - unfold SetBucket.metadata_of, set_if_given.
    destruct (SetBucket.replicate a) as [[|]|]; reflexivity.
Qed.

(** ** [container show] *)

Lemma not_a_meta_key (key : string) :
  String.prefix "meta." key = false -> ∀ k, key ≠ "meta." +:+ k.
Proof.
  intros Hp k ->. destruct k; discriminate Hp.
Qed.

Lemma fold_meta_other (l : list (string * string)) (info : gmap string value)
    (key : string) :
  (∀ kv, kv ∈ l -> "meta." +:+ kv.1 ≠ key) ->
  fold_left (fun info kv => <["meta." +:+ kv.1 := Scalar (PyStr kv.2)]> info)
    l info !! key = info !! key.
Proof.
  revert info. induction l as [|kv l IH]; intros info Hl; [reflexivity|].
  cbn [fold_left]. rewrite IH by (intros ? ?; apply Hl; set_solver).
  apply lookup_insert_ne, Hl. set_solver.
Qed.

Lemma fold_meta_bound (l : list (string * string)) (info : gmap string value)
    (k v : string) :
  NoDup l.*1 -> (k, v) ∈ l ->
  fold_left (fun info kv => <["meta." +:+ kv.1 := Scalar (PyStr kv.2)]> info)
    l info !! ("meta." +:+ k) = Some (Scalar (PyStr v)).
Proof.
  revert info. induction l as [|[k' v'] l IH]; intros info Hn Hin;
    [inversion Hin|].
  rewrite fmap_cons in Hn. apply NoDup_cons in Hn as [Hk' Hn].
  cbn [fold_left]. apply elem_of_cons in Hin as [[= <- <-]|Hin].
  - rewrite fold_meta_other; [apply lookup_insert_eq|].
    intros [k2 v2] Hin E. apply (inj (String.app "meta.")) in E.
    simpl in E. subst k2. apply Hk'. apply list_elem_of_fmap.
    exists (k, v2). split; [reflexivity | exact Hin].
  - apply IH; assumption.
Qed.

Lemma add_meta_bound `{Env2} (props : gmap string string)
    (info : gmap string value) (k v : string) :
  props !! k = Some v ->
  ShowContainer.add_meta props info !! ("meta." +:+ k) =
    Some (Scalar (PyStr v)).
Proof.
  intros Hk. apply fold_meta_bound; [apply NoDup_fst_map_to_list|].
  apply elem_of_map_to_list, Hk.
Qed.

Lemma add_meta_other `{Env2} (props : gmap string string)
    (info : gmap string value) (key : string) :
  (∀ k, key ≠ "meta." +:+ k) ->
  ShowContainer.add_meta props info !! key = info !! key.
Proof.
  intros Hkey. apply fold_meta_other. intros kv _ E. exact (Hkey _ (eq_sym E)).
Qed.

Lemma add_meta_keys `{Env2} (props : gmap string string)
    (info : gmap string value) (key : string) :
  is_Some (ShowContainer.add_meta props info !! key) ->
  is_Some (info !! key) ∨ ∃ k, key = "meta." +:+ k ∧ is_Some (props !! k).
Proof.
  unfold ShowContainer.add_meta.
  assert (G : ∀ l (info : gmap string value),
             is_Some (fold_left
                        (fun info kv =>
                           <["meta." +:+ kv.1 := Scalar (PyStr kv.2)]> info)
                        l info !! key) ->
             is_Some (info !! key) ∨ ∃ kv, kv ∈ l ∧ key = "meta." +:+ kv.1).
  { induction l as [|kv l IH]; intros info0 Hs; [left; exact Hs|].
    cbn [fold_left] in Hs. destruct (IH _ Hs) as [Hi|(kv' & Hin & ->)].
    - destruct (decide ("meta." +:+ kv.1 = key)) as [<-|Hne].
      + right. exists kv. split; [set_solver | reflexivity].
      + left. rewrite lookup_insert_ne in Hi by exact Hne. exact Hi.
    - right. exists kv'. split; [set_solver | reflexivity]. }
  intros Hs. destruct (G _ _ Hs) as [Hi|([k v] & Hin & ->)]; [left; exact Hi|].
  right. exists k. split; [reflexivity|].
  apply elem_of_map_to_list in Hin. eauto.
Qed.

Lemma int_of_value_world `{Env2} (v : value) (w w' : world2) (r : exn + Z) :
  int_of_value v w = (w', r) -> w' = w.
Proof.
  unfold int_of_value, ret2, raise2, lift2.
  repeat case_match; intros [= <- _]; reflexivity.
Qed.

Lemma shown_counters_world `{Env2} (formatter : string)
    (sys : gmap string string) (w w' : world2)
    (r : exn + value * value * value) :
  ShowContainer.shown_counters formatter sys w = (w', r) -> w' = w.
Proof.
  unfold ShowContainer.shown_counters, bind2, subscript2, lift2, ret2, raise2.
  repeat (case_match; simplify_eq; try (intros [= <- _]; reflexivity));
    repeat match goal with
           | E : int_of_value _ _ = _ |- _ =>
               apply int_of_value_world in E; subst
           end;
    intros [= <- _]; reflexivity.
Qed.

Lemma info_of_inv `{Env2} (formatter : string)
    (data : gmap string (gmap string string)) (sys props : gmap string string)
    (w w' : world2) (info : gmap string value) :
  data !! "system" = Some sys ->
  data !! "properties" = Some props ->
  ShowContainer.info_of formatter data w = (w', inr info) ->
  ∃ shown account base_name container,
    ShowContainer.shown_counters formatter sys w = (w, inr shown)
    ∧ sys !! "sys.account" = Some account
    ∧ sys !! "sys.name" = Some base_name
    ∧ sys !! "sys.user.name" = Some container
    ∧ w' = w
    ∧ info =
      ShowContainer.add_meta props
        (ShowContainer.optional_keys sys
           (ShowContainer.info_literal sys shown account base_name container)).
Proof.
  intros Hsys Hprops. unfold ShowContainer.info_of.
  unfold bind2 at 1. unfold subscript2 at 1. rewrite Hsys. cbn [ret2].
  unfold bind2 at 1.
  destruct (ShowContainer.shown_counters formatter sys w) as [w1 [e|shown]]
    eqn:Hshown; [discriminate|].
  apply shown_counters_world in Hshown as Hw. subst w1.
  unfold bind2, subscript2.
  destruct (sys !! "sys.account") as [account|]; [|discriminate].
  destruct (sys !! "sys.name") as [base_name|]; [|discriminate].
  destruct (sys !! "sys.user.name") as [container|]; [|discriminate].
  cbn [ret2]. rewrite Hprops. cbn [ret2]. intros [= <- <-].
  exists shown, account, base_name, container. repeat split; reflexivity.
Qed.

Ltac show_key :=
  rewrite add_meta_other by (apply not_a_meta_key; reflexivity);
  unfold ShowContainer.optional_keys, ShowContainer.info_literal;
  repeat case_match;
  repeat (rewrite lookup_insert_ne by discriminate);
  rewrite ?lookup_insert_eq; try reflexivity.

(** X14.  Whenever [container show] builds its dictionary, in any format:
    the account, base name and container are the [sys.account], [sys.name]
    and [sys.user.name] system properties; quota, storage policy and
    versioning read 'Namespace default' when the property is absent, the
    damaged-object and missing-chunk counters read 0, the status reads
    'Unknown' when it has no name; [bucket] and [delete_exceeding_versions]
    are there only when the property is, the latter being false exactly for
    '0'; every user property [k] is shown under ['meta.' + k] and shadows
    none of these keys; there is no other key. *)
Theorem show_container_fields `{Env2} (formatter : string)
    (data : gmap string (gmap string string)) (sys props : gmap string string)
    (w w' : world2) (info : gmap string value) :
  data !! "system" = Some sys ->
  data !! "properties" = Some props ->
  ShowContainer.info_of formatter data w = (w', inr info) ->
  let text (s : string) := Scalar (PyStr s) in
  info !! "account" = text <$> sys !! "sys.account"
  ∧ info !! "base_name" = text <$> sys !! "sys.name"
  ∧ info !! "container" = text <$> sys !! "sys.user.name"
  ∧ info !! "quota" =
    Some (get_or sys M2_PROP_QUOTA (text "Namespace default"))
  ∧ info !! "storage_policy" =
    Some (get_or sys M2_PROP_STORAGE_POLICY (text "Namespace default"))
  ∧ info !! "max_versions" =
    Some (get_or sys M2_PROP_VERSIONING_POLICY (text "Namespace default"))
  ∧ info !! "damaged_objects" =
    Some (get_or sys M2_PROP_DAMAGED_OBJECTS (Scalar (PyInt 0)))
  ∧ info !! "missing_chunks" =
    Some (get_or sys M2_PROP_MISSING_CHUNKS (Scalar (PyInt 0)))
  ∧ info !! "status" =
    Some (text (default "Unknown" (OIO_DB_STATUS_NAME (sys !! "sys.status"))))
  ∧ info !! "bucket" = text <$> sys !! M2_PROP_BUCKET_NAME
  ∧ info !! "delete_exceeding_versions" =
    (fun s => Scalar (PyBool (negb (String.eqb s "0")))) <$>
      sys !! M2_PROP_DEL_EXC_VERSIONS
  ∧ (∀ k v, props !! k = Some v -> info !! ("meta." +:+ k) = Some (text v))
  ∧ (∀ key, is_Some (info !! key) ->
            key ∈ show_keys ∨ ∃ k, key = "meta." +:+ k ∧ is_Some (props !! k)).
Proof.
  intros Hsys Hprops Hrun text.
  destruct (info_of_inv _ _ _ _ _ _ _ Hsys Hprops Hrun)
    as ([[ctime usage] objects] & account & base_name & container
        & _ & -> & -> & -> & _ & ->).
  repeat (split; [solve [show_key]|]).
  split; [intros k v Hk; apply add_meta_bound, Hk|].
  intros key Hs. apply add_meta_keys in Hs as [Hs|Hs]; [left | right; exact Hs].
  unfold ShowContainer.optional_keys, ShowContainer.info_literal, show_keys in *.
  repeat case_match;
    repeat match type of Hs with
           | is_Some (<[ ?k := _ ]> _ !! key) =>
               destruct (decide (k = key)) as [<-|?];
               [solve [repeat constructor]
               | rewrite lookup_insert_ne in Hs by assumption]
           end;
    rewrite lookup_empty in Hs; destruct Hs as [? [=]].
Qed.

Lemma show_container_fields_witness :
  let sys : gmap string string :=
    {[ "sys.account" := "myaccount"; "sys.name" := "0BAD";
       "sys.user.name" := "photos"; "sys.m2.ctime" := "1600000000000000";
       "sys.m2.policy.version.delete_exceeding" := "1";
       "sys.status" := "4294967295" ]} in
  let props : gmap string string :=
    {[ "account" := "shadow"; "color" := "blue" ]} in
  let data : gmap string (gmap string string) :=
    {[ "system" := sys; "properties" := props ]} in
  let E := Fake2.env sys props ∅ ∅ in
  let w : world2 (H := E) := (Fake.holding [], []) in
  ∃ w' info,
    ShowContainer.info_of (H := E) "table" data w = (w', inr info)
    ∧ info !! "account" = Some (Scalar (PyStr "myaccount"))
    ∧ info !! "meta.account" = Some (Scalar (PyStr "shadow"))
    ∧ info !! "quota" = Some (Scalar (PyStr "Namespace default"))
    ∧ info !! "status" = Some (Scalar (PyStr "Frozen"))
    ∧ info !! "bucket" = None
    ∧ info !! "delete_exceeding_versions" = Some (Scalar (PyBool true)).
Proof.
  intros sys props data E w.
  destruct (ShowContainer.info_of (H := E) "table" data w) as [w' [e|info]]
    eqn:Hrun; [vm_compute in Hrun; discriminate Hrun|].
  exists w', info. split; [reflexivity|].
  destruct (show_container_fields (H := E) "table" data sys props w w' info
              eq_refl eq_refl Hrun)
    as (Ha & _ & _ & Hq & _ & _ & _ & _ & Hst & Hb & Hd & Hm & _).
  repeat split;
    [exact Ha | exact (Hm "account" "shadow" eq_refl) | exact Hq | exact Hst
    | exact Hb | exact Hd].
Defined.

Lemma show_container_run `{Env2} (a : ShowContainer.args) (s s1 : St)
    (log : list Client2.call) (data : gmap string (gmap string string)) :
  let c := Client2.container_get_properties account
             (ContainerCommandMixin.container
                (ContainerCommandMixin.take_action_container
                   (ShowContainer.target a)))
             (ContainerCommandMixin.cid
                (ContainerCommandMixin.take_action_container
                   (ShowContainer.target a))) in
  storage2 c s = (s1, inr data) ->
  ShowContainer.take_action a (s, log) =
    match ShowContainer.info_of (ShowContainer.formatter a) data
            (s1, log ++ [c]) with
    | (w', inr info) => (w', inr (zip_star (sorted_items info)))
    | (w', inl e) => (w', inl e)
    end.
Proof.
  intros c Hc. unfold ShowContainer.take_action. unfold bind2 at 1.
  fold c. rewrite invoke2_eq, Hc. reflexivity.
Qed.

(** X15.  With a formatter other than [table], [container show] succeeds
    as soon as the answer has its system and user properties, a creation
    time that reads as a float and the three naming properties.  It has
    made one call; it returns the keys of its dictionary in strictly
    increasing order with the values under them; the creation time is the
    float divided by 1000000. and the usage and object counters are the
    strings of the system properties as they are, or the integer 0 when
    absent. *)
Theorem show_container_plain `{Env2} (a : ShowContainer.args) (s s1 : St)
    (log : list Client2.call) (data : gmap string (gmap string string))
    (sys props : gmap string string) (c : string) (f : float)
    (acct base name : string) :
  ShowContainer.formatter a ≠ "table" ->
  storage2 (Client2.container_get_properties account
              (ContainerCommandMixin.container
                 (ContainerCommandMixin.take_action_container
                    (ShowContainer.target a)))
              (ContainerCommandMixin.cid
                 (ContainerCommandMixin.take_action_container
                    (ShowContainer.target a)))) s = (s1, inr data) ->
  data !! "system" = Some sys ->
  data !! "properties" = Some props ->
  sys !! M2_PROP_CTIME = Some c ->
  float_of_string c = Some f ->
  sys !! "sys.account" = Some acct ->
  sys !! "sys.name" = Some base ->
  sys !! "sys.user.name" = Some name ->
  ∃ info keys values,
    ShowContainer.take_action a (s, log) =
      ((s1, log ++ [Client2.container_get_properties account
                      (ContainerCommandMixin.container
                         (ContainerCommandMixin.take_action_container
                            (ShowContainer.target a)))
                      (ContainerCommandMixin.cid
                         (ContainerCommandMixin.take_action_container
                            (ShowContainer.target a)))]),
       inr (Some (keys, values)))
    ∧ prints (Some (keys, values)) info
    ∧ info !! "ctime" = Some (Float (micro_to_seconds f))
    ∧ info !! "bytes_usage" =
      Some (get_or sys M2_PROP_USAGE (Scalar (PyInt 0)))
    ∧ info !! "objects" =
      Some (get_or sys M2_PROP_OBJECTS (Scalar (PyInt 0))).
Proof.
  intros Hf Hc Hsys Hprops Hct Hfl Ha Hb Hn.
  set (info := ShowContainer.add_meta props
                 (ShowContainer.optional_keys sys
                    (ShowContainer.info_literal sys
                       (Float (micro_to_seconds f),
                        get_or sys M2_PROP_USAGE (Scalar (PyInt 0)),
                        get_or sys M2_PROP_OBJECTS (Scalar (PyInt 0)))
                       acct base name))).
  assert (Hinfo : ∀ w, ShowContainer.info_of (ShowContainer.formatter a)
                         data w = (w, inr info)).
  { intros w. unfold ShowContainer.info_of, ShowContainer.shown_counters,
      bind2, subscript2.
    rewrite Hsys. cbn [ret2]. rewrite Hct. cbn [ret2]. rewrite Hfl.
    cbn [ret2].
    destruct (String.eqb_spec (ShowContainer.formatter a) "table");
      [contradiction|].
    cbn [ret2]. rewrite Ha, Hb, Hn. cbn [ret2]. rewrite Hprops. reflexivity. }
  assert (Hctime : info !! "ctime" = Some (Float (micro_to_seconds f)))
    by (subst info; show_key).
  pose proof (sorted_output info) as Hout.
  destruct (zip_star (sorted_items info)) as [[keys values]|] eqn:Hz.
  - exists info, keys, values.
    split; [rewrite (show_container_run a s s1 log data Hc), Hinfo, Hz;
            reflexivity|].
    split; [exact Hout|]. split; [exact Hctime|].
    split; subst info; show_key.
  - simpl in Hout. rewrite Hout, lookup_empty in Hctime. discriminate Hctime.
Qed.

Lemma show_container_plain_witness :
  let sys : gmap string string :=
    {[ "sys.account" := "myaccount"; "sys.name" := "0BAD";
       "sys.user.name" := "photos"; "sys.m2.ctime" := "1600000000000000";
       "sys.m2.usage" := "2048" ]} in
  let E := Fake2.env sys {[ "color" := "blue" ]} ∅ ∅ in
  let a := {| ShowContainer.target :=
                ContainerCommandMixin.parsed "photos" false;
              ShowContainer.formatter := "json" |} in
  ∃ info keys values,
    ShowContainer.take_action (H := E) a (Fake.holding [], []) =
      ((Fake.holding [],
        [Client2.container_get_properties "myaccount" (Some "photos") None]),
       inr (Some (keys, values)))
    ∧ prints (Some (keys, values)) info
    ∧ info !! "ctime" = Some (Float 1600000000)
    ∧ info !! "bytes_usage" = Some (Scalar (PyStr "2048"))
    ∧ info !! "objects" = Some (Scalar (PyInt 0)).
Proof.
  intros sys E a.
  exact (show_container_plain (H := E) a (Fake.holding []) (Fake.holding [])
           [] _ sys {[ "color" := "blue" ]} "1600000000000000"
           1600000000000000 "myaccount" "0BAD" "photos"
           ltac:(discriminate) eq_refl eq_refl eq_refl eq_refl eq_refl
           eq_refl eq_refl eq_refl).
Defined.

(** X16.  [container show] has no default for the creation time: when the
    system properties have none the command raises KeyError, and when it
    does not read as a float it raises ValueError, in every format and after
    its one call, although the other counters would default to 0. *)
Theorem show_container_needs_ctime `{Env2} (a : ShowContainer.args)
    (s s1 : St) (log : list Client2.call)
    (data : gmap string (gmap string string)) (sys : gmap string string) :
  storage2 (Client2.container_get_properties account
              (ContainerCommandMixin.container
                 (ContainerCommandMixin.take_action_container
                    (ShowContainer.target a)))
              (ContainerCommandMixin.cid
                 (ContainerCommandMixin.take_action_container
                    (ShowContainer.target a)))) s = (s1, inr data) ->
  data !! "system" = Some sys ->
  let w1 := (s1, log ++ [Client2.container_get_properties account
                           (ContainerCommandMixin.container
                              (ContainerCommandMixin.take_action_container
                                 (ShowContainer.target a)))
                           (ContainerCommandMixin.cid
                              (ContainerCommandMixin.take_action_container
                                 (ShowContainer.target a)))]) in
  (sys !! M2_PROP_CTIME = None ->
   ShowContainer.take_action a (s, log) = (w1, inl (KeyError M2_PROP_CTIME)))
  ∧ (∀ c, sys !! M2_PROP_CTIME = Some c -> float_of_string c = None ->
          ShowContainer.take_action a (s, log) = (w1, inl (ValueError c))).
Proof.
  intros Hc Hsys w1.
  rewrite (show_container_run a s s1 log data Hc).
  unfold ShowContainer.info_of, ShowContainer.shown_counters, bind2,
    subscript2.
  rewrite Hsys. cbn [ret2]. split.
  - intros ->. reflexivity.
  - intros c Hct Hfl. rewrite Hct. cbn [ret2]. rewrite Hfl. reflexivity.
Qed.

Lemma show_container_needs_ctime_witness :
  let sys : gmap string string :=
    {[ "sys.account" := "myaccount"; "sys.name" := "0BAD";
       "sys.user.name" := "photos" ]} in
  let E := Fake2.env sys ∅ ∅ ∅ in
  let a := {| ShowContainer.target :=
                ContainerCommandMixin.parsed "0BAD" true;
              ShowContainer.formatter := "table" |} in
  ShowContainer.take_action (H := E) a (Fake.holding [], []) =
    ((Fake.holding [],
      [Client2.container_get_properties "myaccount" None (Some "0BAD")]),
     inl (KeyError "sys.m2.ctime")).
Proof.
  intros sys E a.
  exact (proj1 (show_container_needs_ctime (H := E) a (Fake.holding [])
                  (Fake.holding []) [] _ sys eq_refl eq_refl) eq_refl).
Defined.

Lemma locate_sorted (account base_name name status meta0 meta1 meta2
    peers : string) :
  zip_star (sorted_items
    (<["meta2.sys.peers" := peers]>
    (<["meta2" := meta2]>
    (<["meta1" := meta1]>
    (<["meta0" := meta0]>
    (<["status" := status]>
    (<["name" := name]>
    (<["base_name" := base_name]>
    (<["account" := account]> (∅ : gmap string string))))))))))
  = Some (locate_keys,
          [account; base_name; meta0; meta1; meta2; peers; name; status]).
Proof. vm_compute. reflexivity. Qed.

Lemma meta2_of_acc `{Env2} (srv : list (gmap string string))
    (acc : list string) (w : world2) :
  Forall (locatable ["meta2"]) srv ->
  for_acc2 srv acc (fun d meta2 =>
    type <~ subscript2 d "type" ;;
    if String.eqb type "meta2" then
      host <~ subscript2 d "host" ;; ret2 (meta2 ++ [host])
    else ret2 meta2) w = (w, inr (acc ++ hosts_of "meta2" srv)).
Proof.
  intros Hall. revert acc.
  induction Hall as [|d srv (t & Ht & Hhost) _ IH]; intros acc.
  - simpl. unfold ret2. rewrite app_nil_r. reflexivity.
  - cbn [for_acc2]. unfold bind2 at 1. unfold bind2 at 1, subscript2 at 1.
    rewrite Ht. cbn [ret2]. unfold hosts_of. cbn [omap list_omap].
    fold (hosts_of "meta2" srv).
    destruct (String.eqb_spec t "meta2") as [->|Hne].
    + destruct (Hhost ltac:(repeat constructor)) as [h Hh].
      unfold bind2, subscript2. rewrite Hh. cbn [ret2].
      rewrite IH. case_decide; [|congruence].
      rewrite <- app_assoc. reflexivity.
    + unfold ret2 at 1. rewrite IH.
      case_decide; [congruence|reflexivity].
Qed.

Lemma meta0_meta1_of_acc `{Env2} (dir : list (gmap string string))
    (acc : list string * list string) (w : world2) :
  Forall (locatable ["meta0"; "meta1"]) dir ->
  for_acc2 dir acc (fun d acc =>
    type <~ subscript2 d "type" ;;
    meta0 <~ (if String.eqb type "meta0" then
                host <~ subscript2 d "host" ;; ret2 (acc.1 ++ [host])
              else ret2 acc.1) ;;
    type <~ subscript2 d "type" ;;
    meta1 <~ (if String.eqb type "meta1" then
                host <~ subscript2 d "host" ;; ret2 (acc.2 ++ [host])
              else ret2 acc.2) ;;
    ret2 (meta0, meta1)) w
  = (w, inr (acc.1 ++ hosts_of "meta0" dir, acc.2 ++ hosts_of "meta1" dir)).
Proof.
  intros Hall. revert acc.
  induction Hall as [|d dir (t & Ht & Hhost) _ IH]; intros [m0 m1].
  - simpl. unfold ret2. rewrite !app_nil_r. reflexivity.
  - cbn [for_acc2]. unfold bind2 at 1.
    assert (Hbody :
      (type <~ subscript2 d "type" ;;
       meta0 <~ (if String.eqb type "meta0" then
                   host <~ subscript2 d "host" ;; ret2 ((m0, m1).1 ++ [host])
                 else ret2 (m0, m1).1) ;;
       type <~ subscript2 d "type" ;;
       meta1 <~ (if String.eqb type "meta1" then
                   host <~ subscript2 d "host" ;; ret2 ((m0, m1).2 ++ [host])
                 else ret2 (m0, m1).2) ;;
       ret2 (meta0, meta1)) w
      = (w, inr (m0 ++ hosts_of "meta0" [d], m1 ++ hosts_of "meta1" [d]))).
    { unfold hosts_of. cbn [omap list_omap].
      unfold bind2, subscript2. rewrite Ht. cbn [ret2 fst snd].
      destruct (String.eqb_spec t "meta0") as [->|Hne0].
      - destruct (Hhost ltac:(repeat constructor)) as [h Hh].
        rewrite Hh. cbn [ret2]. simpl String.eqb. cbn [ret2].
        repeat case_decide; try congruence.
        rewrite app_nil_r. reflexivity.
      - cbn [ret2].
        destruct (String.eqb_spec t "meta1") as [->|Hne1].
        + destruct (Hhost ltac:(repeat constructor)) as [h Hh].
          rewrite Hh. cbn [ret2].
          repeat case_decide; try congruence.
          rewrite app_nil_r. reflexivity.
        + cbn [ret2].
          repeat case_decide; try congruence.
          rewrite !app_nil_r. reflexivity. }
    rewrite Hbody, IH. cbn [fst snd].
    unfold hosts_of. cbn [omap list_omap].
    repeat case_match; rewrite <- ?app_assoc; reflexivity.
Qed.

(** X17.  [container locate] on a container whose properties have the three
    naming keys and whose directory lists well-formed services makes two
    calls, the properties and then the directory, and returns eight columns
    in alphabetical order: the hosts of the directory entries of type meta0
    and meta1 and of the services of type meta2, each in the order listed
    and joined by a comma and a space, the peers of the system properties
    split at the commas and joined the same way ("Unknown" when absent), and
    the name of the status ("Unknown" when the table has none). *)
Theorem locate_container_output `{Env2} (a : LocateContainer.args)
    (s s1 s2 : St) (log : list Client2.call)
    (data : gmap string (gmap string string)) (sys : gmap string string)
    (data_dir : gmap string (list (gmap string string)))
    (srv dir : list (gmap string string)) (acct base name : string) :
  let tgt :=
    ContainerCommandMixin.take_action_container (LocateContainer.target a) in
  let c1 := Client2.container_get_properties account
              (ContainerCommandMixin.container tgt)
              (ContainerCommandMixin.cid tgt) in
  let c2 := Client2.directory_list account
              (ContainerCommandMixin.container tgt)
              (ContainerCommandMixin.cid tgt) in
  storage2 c1 s = (s1, inr data) ->
  data !! "system" = Some sys ->
  storage2 c2 s1 = (s2, inr data_dir) ->
  sys !! "sys.account" = Some acct ->
  sys !! "sys.name" = Some base ->
  sys !! "sys.user.name" = Some name ->
  data_dir !! "srv" = Some srv ->
  data_dir !! "dir" = Some dir ->
  Forall (locatable ["meta2"]) srv ->
  Forall (locatable ["meta0"; "meta1"]) dir ->
  LocateContainer.take_action a (s, log) =
    ((s2, log ++ [c1; c2]),
     inr (Some (locate_keys,
                [acct; base;
                 join ", " (hosts_of "meta0" dir);
                 join ", " (hosts_of "meta1" dir);
                 join ", " (hosts_of "meta2" srv);
                 join ", " (split_comma (default "Unknown"
                                           (sys !! "sys.peers")));
                 name;
                 default "Unknown"
                   (OIO_DB_STATUS_NAME (sys !! "sys.status"))]))).
Proof.
  intros tgt c1 c2 Hc1 Hsys Hc2 Ha Hb Hn Hsrv Hdir Hwsrv Hwdir.
  unfold LocateContainer.take_action. fold tgt. fold c1. fold c2.
  unfold bind2 at 1. rewrite invoke2_eq, Hc1.
  unfold bind2 at 1, subscript2 at 1. rewrite Hsys. cbn [ret2].
  unfold bind2 at 1. rewrite invoke2_eq, Hc2.
  unfold bind2 at 1, subscript2 at 1. rewrite Ha. cbn [ret2].
  unfold bind2 at 1, subscript2 at 1. rewrite Hb. cbn [ret2].
  unfold bind2 at 1, subscript2 at 1. rewrite Hn. cbn [ret2].
  unfold bind2 at 1, subscript2 at 1. rewrite Hsrv. cbn [ret2].
  unfold bind2 at 1, LocateContainer.meta2_of.
  rewrite (meta2_of_acc srv [] _ Hwsrv).
  unfold bind2 at 1, subscript2 at 1. rewrite Hdir. cbn [ret2].
  unfold bind2 at 1, LocateContainer.meta0_meta1_of.
  rewrite (meta0_meta1_of_acc dir ([], []) _ Hwdir).
  cbn [fst snd app]. unfold ret2. rewrite locate_sorted, <- app_assoc.
  reflexivity.
Qed.

Lemma locate_container_output_witness :
  let sys : gmap string string :=
    {[ "sys.account" := "myaccount"; "sys.name" := "0BAD";
       "sys.user.name" := "photos"; "sys.status" := "0";
       "sys.peers" := "10.0.0.1:6000,10.0.0.2:6000" ]} in
  let srv : list (gmap string string) :=
    [ {[ "type" := "meta2"; "host" := "10.0.0.1:6000" ]};
      {[ "type" := "rawx" ]} ] in
  let dir : list (gmap string string) :=
    [ {[ "type" := "meta1"; "host" := "10.0.0.3:6001" ]};
      {[ "type" := "meta0"; "host" := "10.0.0.4:6002" ]};
      {[ "type" := "meta1"; "host" := "10.0.0.5:6001" ]} ] in
  let E := Fake2.env sys ∅ {[ "srv" := srv; "dir" := dir ]} ∅ in
  LocateContainer.take_action (H := E)
    {| LocateContainer.target :=
         ContainerCommandMixin.parsed "photos" false |}
    (Fake.holding [], []) =
    ((Fake.holding [],
      [Client2.container_get_properties "myaccount" (Some "photos") None;
       Client2.directory_list "myaccount" (Some "photos") None]),
     inr (Some (locate_keys,
                ["myaccount"; "0BAD"; "10.0.0.4:6002";
                 "10.0.0.3:6001, 10.0.0.5:6001"; "10.0.0.1:6000";
                 "10.0.0.1:6000, 10.0.0.2:6000"; "photos"; "Enabled"]))).
Proof.
  intros sys srv dir E.
  assert (Hsrv : Forall (locatable ["meta2"]) srv).
  { repeat constructor.
    - exists "meta2". split; [reflexivity|]. intros _. eexists. reflexivity.
    - exists "rawx". split; [reflexivity|]. intros Hin.
      apply list_elem_of_singleton in Hin. discriminate Hin. }
  assert (Hdir : Forall (locatable ["meta0"; "meta1"]) dir).
  { repeat constructor.
    - exists "meta1". split; [reflexivity|]. intros _. eexists. reflexivity.
    - exists "meta0". split; [reflexivity|]. intros _. eexists. reflexivity.
    - exists "meta1". split; [reflexivity|]. intros _. eexists. reflexivity. }
  exact (locate_container_output (H := E) _ (Fake.holding [])
           (Fake.holding []) (Fake.holding []) [] _ sys _ srv dir
           "myaccount" "0BAD" "photos" eq_refl eq_refl eq_refl eq_refl
           eq_refl eq_refl eq_refl eq_refl Hsrv Hdir).
Defined.

(** X18.  [container locate] reads the 'system' entry of the properties
    before it asks the directory: without that entry it raises KeyError
    after one call and the directory is never listed.  The naming keys are
    read after the directory has answered: without 'sys.account' the
    KeyError comes after both calls. *)
Theorem locate_container_failure_order `{Env2} (a : LocateContainer.args)
    (s s1 : St) (log : list Client2.call)
    (data : gmap string (gmap string string)) :
  let tgt :=
    ContainerCommandMixin.take_action_container (LocateContainer.target a) in
  let c1 := Client2.container_get_properties account
              (ContainerCommandMixin.container tgt)
              (ContainerCommandMixin.cid tgt) in
  let c2 := Client2.directory_list account
              (ContainerCommandMixin.container tgt)
              (ContainerCommandMixin.cid tgt) in
  storage2 c1 s = (s1, inr data) ->
  (data !! "system" = None ->
   LocateContainer.take_action a (s, log) =
     ((s1, log ++ [c1]), inl (KeyError "system")))
  ∧ (∀ sys s2 data_dir,
       data !! "system" = Some sys ->
       storage2 c2 s1 = (s2, inr data_dir) ->
       sys !! "sys.account" = None ->
       LocateContainer.take_action a (s, log) =
         ((s2, log ++ [c1; c2]), inl (KeyError "sys.account")))
  ∧ (∀ sys s2 e,
       data !! "system" = Some sys ->
       storage2 c2 s1 = (s2, inl e) ->
       LocateContainer.take_action a (s, log) =
         ((s2, log ++ [c1; c2]), inl e)).
Proof.
  intros tgt c1 c2 Hc1.
  split; [|split]; intros;
    unfold LocateContainer.take_action; fold tgt; fold c1; fold c2;
    unfold bind2 at 1; rewrite invoke2_eq, Hc1;
    unfold bind2 at 1, subscript2 at 1;
    match goal with Hsys : data !! "system" = _ |- _ => rewrite Hsys end;
    [reflexivity| |]; cbn [ret2];
    unfold bind2 at 1; rewrite invoke2_eq;
    match goal with Hc2 : storage2 c2 s1 = _ |- _ => rewrite Hc2 end.
  - unfold bind2 at 1, subscript2 at 1.
    match goal with Ha : _ !! "sys.account" = _ |- _ => rewrite Ha end.
    rewrite <- app_assoc. reflexivity.
  - rewrite <- app_assoc. reflexivity.
Qed.

Lemma locate_container_failure_order_witness :
  let E := Fake2.env {[ "sys.name" := "0BAD" ]} ∅ ∅ ∅ in
  LocateContainer.take_action (H := E)
    {| LocateContainer.target :=
         ContainerCommandMixin.parsed "photos" false |}
    (Fake.holding [], []) =
    ((Fake.holding [],
      [Client2.container_get_properties "myaccount" (Some "photos") None;
       Client2.directory_list "myaccount" (Some "photos") None]),
     inl (KeyError "sys.account")).
Proof.
  intros E.
  exact (proj1 (proj2 (locate_container_failure_order (H := E) _
                         (Fake.holding []) (Fake.holding []) [] _ eq_refl))
           {[ "sys.name" := "0BAD" ]} (Fake.holding []) ∅
           eq_refl eq_refl eq_refl).
Defined.

(** ** The account of a resolved CID *)

(** X19.  With [--cid], [container flush] and [container refresh] work on
    the account and the name that [resolve_cid] answers, not on the account
    of the command line: they make two calls, and their outcome and the
    state they leave are those of the second.  Without [--cid] they make
    one call, with the account of the command line and the name given. *)
Theorem flush_refresh_resolved_account `{Env} (given acct name : string)
    (quick : bool) (s s1 : St) (log : list call) :
  storage (resolve_cid given) s = (s1, inr (acct, name)) ->
  FlushContainer.take_action
    {| FlushContainer.target := ContainerCommandMixin.parsed given true;
       FlushContainer.quick := quick |} (s, log) =
    (let '(s2, r) := storage (container_flush acct (Some name) quick) s1 in
     ((s2, log ++ [resolve_cid given;
                   container_flush acct (Some name) quick]), r))
  ∧ RefreshContainer.take_action
      {| RefreshContainer.target := ContainerCommandMixin.parsed given true |}
      (s, log) =
    (let '(s2, r) := storage (container_refresh acct (Some name)) s1 in
     ((s2, log ++ [resolve_cid given; container_refresh acct (Some name)]),
      r))
  ∧ FlushContainer.take_action
      {| FlushContainer.target := ContainerCommandMixin.parsed given false;
         FlushContainer.quick := quick |} (s, log) =
    (let '(s2, r) := storage (container_flush account (Some given) quick) s in
     ((s2, log ++ [container_flush account (Some given) quick]), r))
  ∧ RefreshContainer.take_action
      {| RefreshContainer.target := ContainerCommandMixin.parsed given false |}
      (s, log) =
    (let '(s2, r) := storage (container_refresh account (Some given)) s in
     ((s2, log ++ [container_refresh account (Some given)]), r)).
Proof.
  intros R. split; [|split; [|split]].
  - unfold FlushContainer.take_action. simpl.
    unfold bind. rewrite (invoke_ok _ _ _ _ _ R). cbn [ret fst snd].
    rewrite invoke_eq, <- app_assoc. reflexivity.
  - unfold RefreshContainer.take_action. simpl.
    unfold bind. rewrite (invoke_ok _ _ _ _ _ R). cbn [ret fst snd].
    rewrite invoke_eq, <- app_assoc. reflexivity.
  - unfold FlushContainer.take_action. simpl.
    unfold bind, ret. cbn [fst snd]. rewrite invoke_eq. reflexivity.
  - unfold RefreshContainer.take_action. simpl.
    unfold bind, ret. cbn [fst snd]. rewrite invoke_eq. reflexivity.
Qed.

Lemma flush_refresh_resolved_account_witness :
  let s := Fake.holding ["0BAD"; "name-of-0BAD"] in
  FlushContainer.take_action (H := Fake.env)
    {| FlushContainer.target := ContainerCommandMixin.parsed "0BAD" true;
       FlushContainer.quick := true |} (s, []) =
    ((s, [resolve_cid "0BAD";
          container_flush "myaccount" (Some "name-of-0BAD") true]), inr tt).
Proof.
  intros s.
  exact (proj1 (flush_refresh_resolved_account (H := Fake.env) "0BAD"
                  "myaccount" "name-of-0BAD" true s s [] eq_refl)).
Defined.
